(** * World Bank economic indicators ETL: transform, aggregate and load

    A shallow embedding of [src/main.py]:
    - [EconomicDataTransformer.transform] and [create_aggregations] as pure
      functions over lists of rows (the pandas DataFrame, in row order);
    - [MySQLLoader] as state-passing code over the four tables, each a finite
      map from its UNIQUE KEY to the remaining columns the code writes;
    - [run_etl_pipeline] and the script's [__main__] block on top of both;
    - [WorldBankExtractor] over the answers of the API, given from outside,
      and [run_etl_pipeline] with the extraction inside.

    Modelling conventions.
    - A DataFrame column that the code tests for null is an [option]; a null
      float is [NaN], as in pandas.
    - float64 values are binary64 floats, [fval]: the kernel's [float],
      with the operations of IEEE 754 (round to nearest, ties to even), the
      two zeros, the two infinities and one NaN.
    - Columns filled by the database engine alone ([id], [loaded_at],
      [updated_at]) and the engine's coercion of values to the column types
      are not modelled. *)

From Stdlib Require Import ZArith String List Lia Floats.
From stdpp Require Import gmap strings list sorting pretty.

Local Open Scope string_scope.
Local Open Scope Z_scope.

(** A decimal literal of a float stands for the nearest float, as in Python. *)
Set Warnings "-inexact-float".

(** ** float64 values *)

(** A value of a float column: a binary64 float. The null of pandas is the
    NaN. *)
Definition fval : Type := float.

Definition NaN : fval := nan.

Definition isna (v : fval) : bool := is_nan v.

(** The arithmetic of numpy on float64: each operation rounds its exact
    result to the nearest float, ties to even. *)
Definition fdiv (a b : fval) : fval := (a / b)%float.
Definition fsub (a b : fval) : fval := (a - b)%float.
Definition fadd (a b : fval) : fval := (a + b)%float.
Definition fmul (a b : fval) : fval := (a * b)%float.

(** [float(n)] of an integer: the nearest float (the integers the code
    converts are far inside the range of float64). *)
Definition of_Z (n : Z) : fval := SF2Prim (binary_normalize prec emax n 0 false).

(** The nearest integer, ties to the even one, of a float given by sign,
    mantissa and exponent; a float that is an integer, a zero, an infinity or
    the NaN is left as it is, and a zero result keeps the sign. *)
Definition SFrint (x : spec_float) : spec_float :=
  match x with
  | S754_finite s m (Zneg k) =>
      let d := 2 ^ Zpos k in
      let q := Zpos m / d in
      let n := match 2 * (Zpos m mod d) ?= d with
               | Lt => q
               | Gt => q + 1
               | Eq => if Z.even q then q else q + 1
               end in
      binary_normalize prec emax (cond_Zopp s n) 0 s
  | _ => x
  end.

(** [numpy.rint]. *)
Definition rint (v : fval) : fval := SF2Prim (SFrint (Prim2SF v)).

(** [Series.round(2)] is numpy's [around]: [rint(x * 100) / 100], each step
    in float64. *)
Definition round2 (v : fval) : fval :=
  fdiv (rint (fmul v (of_Z 100))) (of_Z 100).

(** ** Rows of the DataFrame *)

(** The frame built by [extract_all_data]: seven columns. *)
Module Raw.
Record t : Type := mk {
  country_code : option string;
  country_name : string;
  indicator_code : string;
  indicator_name : string;
  year : option Z;
  value : fval;
  extracted_at : Z
}.
End Raw.

(** The frame after [transform]: the same columns plus [decade], [period]
    and [continent]. *)
Record Row : Type := mkRow {
  country_code : option string;
  country_name : string;
  indicator_code : string;
  indicator_name : string;
  year : option Z;
  value : fval;
  decade : option Z;
  period : option string;
  continent : option string;
  extracted_at : Z
}.

(** The [subset] of [drop_duplicates]. *)
Definition RecordKey : Type := option string * string * option Z.

Definition raw_key (r : Raw.t) : RecordKey :=
  (Raw.country_code r, Raw.indicator_code r, Raw.year r).

Definition row_key (r : Row) : RecordKey :=
  (country_code r, indicator_code r, year r).

(** ** EconomicDataTransformer.transform *)

(** [DataFrame.drop_duplicates(subset=...)], keep='first': a row is kept when
    no earlier row has the same key (nulls compare equal). *)
Fixpoint drop_duplicates_from (seen : list RecordKey) (df : list Raw.t) : list Raw.t :=
  match df with
  | [] => []
  | r :: df' =>
      if decide (raw_key r ∈ seen) then drop_duplicates_from seen df'
      else r :: drop_duplicates_from (raw_key r :: seen) df'
  end.

Definition drop_duplicates (df : list Raw.t) : list Raw.t :=
  drop_duplicates_from [] df.

(** [DataFrame.dropna(subset=['value'])]. *)
Definition dropna_value (df : list Raw.t) : list Raw.t :=
  filter (λ r, isna (Raw.value r) = false) df.

(** [numpy.searchsorted(bins, x, side='left')]: how many edges are below [x]. *)
Definition searchsorted_left (bins : list Z) (x : Z) : nat :=
  length (filter (λ b, b < x) bins).

(** [pd.cut(x, bins, labels=labels, include_lowest=True)] with the default
    [right=True]: the intervals are closed on the right, and the lowest edge
    is put into the first one. *)
Definition pd_cut (bins : list Z) (labels : list string) (include_lowest : bool)
    (x : option Z) : option string :=
  match x with
  | None => None
  | Some x =>
      let i := searchsorted_left bins x in
      let i := if include_lowest && bool_decide (Some x = head bins) then 1%nat else i in
      if bool_decide (i = 0%nat) || bool_decide (i = length bins) then None
      else labels !! (i - 1)%nat
  end.

Definition period_bins : list Z := [2000; 2010; 2015; 2020; 2025].
Definition period_labels : list string := ["2000s"; "2010-2015"; "2015-2020"; "2020s"].

Definition period_of (y : option Z) : option string :=
  pd_cut period_bins period_labels true y.

Definition continent_map (c : string) : option string :=
  if decide (c = "IND") then Some "Asia"
  else if decide (c = "CHN") then Some "Asia"
  else if decide (c = "JPN") then Some "Asia"
  else if decide (c = "USA") then Some "North America"
  else if decide (c = "BRA") then Some "South America"
  else if decide (c = "GBR") then Some "Europe"
  else if decide (c = "DEU") then Some "Europe"
  else None.

(** The derived columns and the rounding, row by row. *)
Definition add_derived (r : Raw.t) : Row :=
  {| country_code := Raw.country_code r;
     country_name := Raw.country_name r;
     indicator_code := Raw.indicator_code r;
     indicator_name := Raw.indicator_name r;
     year := Raw.year r;
     value := round2 (Raw.value r);
     decade := (λ y, (y / 10) * 10) <$> Raw.year r;
     period := period_of (Raw.year r);
     continent := Raw.country_code r ≫= continent_map;
     extracted_at := Raw.extracted_at r |}.

(** Python exceptions the pipeline can meet. *)
Inductive exn : Type :=
  | AssertionError (msg : string)
  | ValueError (msg : string)
  | DbError (msg : string).

Definition year_ge (floor : Z) (r : Row) : bool :=
  match year r with Some y => floor <=? y | None => false end.

Definition transform (df : list Raw.t) : exn + list Row :=
  let df := drop_duplicates df in
  let df := dropna_value df in
  let df := add_derived <$> df in
  if existsb (λ r, bool_decide (country_code r = None)) df
  then inl (AssertionError "Null country codes found")
  else if existsb (λ r, bool_decide (year r = None)) df
  then inl (AssertionError "Null years found")
  else if negb (forallb (year_ge 2000) df)
  then inl (AssertionError "Invalid years found")
  else inr df.

(** ** EconomicDataTransformer.create_aggregations *)

(** Orders used by [sort_values]: ascending, nulls last; several columns are
    compared lexicographically. Python orders [str] by code point. *)
Definition opt_le {A} (le : relation A) : relation (option A) := λ a b,
  match a, b with
  | Some x, Some y => le x y
  | _, None => True
  | None, Some _ => False
  end.

Definition lex_le {A B} (leA : relation A) (leB : relation B) : relation (A * B) :=
  λ p q, leA p.1 q.1 ∧ (leA q.1 p.1 → leB p.2 q.2).

Global Instance opt_le_dec {A} (le : relation A) `{!RelDecision le} :
  RelDecision (opt_le le).
Proof. intros [x|] [y|]; simpl; apply _. Defined.

Global Instance lex_le_dec {A B} (leA : relation A) (leB : relation B)
  `{!RelDecision leA, !RelDecision leB} : RelDecision (lex_le leA leB).
Proof. intros p q. unfold lex_le. apply _. Defined.

Definition le_year : relation Row := λ a b, opt_le Z.le (year a) (year b).

Definition le_group_year : relation Row := λ a b,
  lex_le (opt_le String.le) (lex_le String.le (opt_le Z.le))
    (country_code a, (indicator_code a, year a))
    (country_code b, (indicator_code b, year b)).

Global Instance le_year_dec : RelDecision le_year.
Proof. intros a b. unfold le_year. apply _. Defined.

Global Instance le_group_year_dec : RelDecision le_group_year.
Proof. intros a b. unfold le_group_year. apply _. Defined.

(** [df.sort_values('year')]. Which row of two with the same year comes
    first depends on the sorting algorithm (the default is not stable);
    nothing proved below depends on it. *)
Definition sort_values_year (df : list Row) : list Row :=
  merge_sort le_year df.

(** [df.sort_values(['country_code', 'indicator_code', 'year'])] *)
Definition sort_values_group_year (df : list Row) : list Row :=
  merge_sort le_group_year df.

(** The key of [groupby(['country_code', 'indicator_code'])]; a row whose key
    has a null is in no group (pandas' default [dropna=True]). *)
Definition GroupKey : Type := string * string.

Definition group_key (r : Row) : option GroupKey :=
  c ← country_code r; Some (c, indicator_code r).

Definition in_group (g : GroupKey) (r : Row) : Prop := group_key r = Some g.

Global Instance in_group_dec g r : Decision (in_group g r).
Proof. unfold in_group. apply _. Defined.

(** The groups of a frame, in ascending key order (the default [sort=True]). *)
Definition group_keys (df : list Row) : list GroupKey :=
  merge_sort (lex_le String.le String.le) (remove_dups (omap group_key df)).

(** [GroupBy.last()] takes, column by column, the last non-null entry of the
    group. The columns modelled without null take the entry of the last row. *)
Definition last_valid {A} (col : Row → option A) (rows : list Row) : option A :=
  last (omap col rows).

Definition last_notna (col : Row → fval) (rows : list Row) : fval :=
  default NaN (last (filter (λ v, isna v = false) (col <$> rows))).

Definition last_of {A} (d : A) (col : Row → A) (rows : list Row) : A :=
  default d (col <$> last rows).

Definition groupby_last (g : GroupKey) (rows : list Row) : Row :=
  {| country_code := Some g.1;
     country_name := last_of "" country_name rows;
     indicator_code := g.2;
     indicator_name := last_of "" indicator_name rows;
     year := last_valid year rows;
     value := last_notna value rows;
     decade := last_valid decade rows;
     period := last_valid period rows;
     continent := last_valid continent rows;
     extracted_at := last_of 0 extracted_at rows |}.

(** [df.sort_values('year').groupby([...]).last().reset_index()] *)
Definition latest_values_of (df : list Row) : list Row :=
  let sorted := sort_values_year df in
  (λ g, groupby_last g (filter (in_group g) sorted)) <$> group_keys df.

(** A row of the year-over-year frame: the row and its [yoy_change]. *)
Record YoyRow : Type := mkYoy {
  yoy_row : Row;
  yoy_change : fval
}.

(** [GroupBy.shift(1)] at a row: the value of the previous row of the same
    group among the rows [before] it, null when there is none. *)
Definition shifted_value (before : list Row) (r : Row) : fval :=
  match group_key r with
  | None => NaN
  | Some g => default NaN (value <$> last (filter (in_group g) before))
  end.

(** [pct_change()] is [value / value.shift(1) - 1]; the code multiplies the
    result by 100. (The values are non-null after [transform], so the
    forward fill that [pct_change] applies to nulls has nothing to fill.) *)
Definition pct_change (v prev : fval) : fval :=
  fsub (fdiv v prev) (of_Z 1).

Fixpoint with_yoy_change (before : list Row) (df : list Row) : list YoyRow :=
  match df with
  | [] => []
  | r :: df' =>
      {| yoy_row := r;
         yoy_change := fmul (pct_change (value r) (shifted_value before r)) (of_Z 100) |}
      :: with_yoy_change (before ++ [r]) df'
  end.

Definition yoy_changes_of (df : list Row) : list YoyRow :=
  let yoy := with_yoy_change [] (sort_values_group_year df) in
  filter (λ y, isna (yoy_change y) = false) yoy.

(** The dictionary returned by [create_aggregations]. Its third entry,
    [decade_averages], is consumed by no loader and is left out. *)
Record Summaries : Type := mkSummaries {
  latest_values : list Row;
  yoy_changes : list YoyRow
}.

Definition create_aggregations (df : list Row) : Summaries :=
  {| latest_values := latest_values_of df;
     yoy_changes := yoy_changes_of df |}.

(** ** The database: four tables behind their unique keys *)

(** [economic_indicators], UNIQUE KEY (country_code, indicator_code, year). *)
Module EconomicIndicators.
Definition key : Type := string * string * Z.
Record t : Type := mk {
  country_name : string;
  indicator_name : string;
  value : fval;
  decade : Z;
  period : string;
  continent : option string;
  extracted_at : Z
}.
(** ON DUPLICATE KEY UPDATE value = VALUES(value),
    extracted_at = VALUES(extracted_at) *)
Definition on_duplicate (old new : t) : t :=
  {| country_name := country_name old;
     indicator_name := indicator_name old;
     value := value new;
     decade := decade old;
     period := period old;
     continent := continent old;
     extracted_at := extracted_at new |}.
End EconomicIndicators.

(** [latest_indicators], UNIQUE KEY (country_code, indicator_code). *)
Module LatestIndicators.
Definition key : Type := string * string.
Record t : Type := mk {
  latest_year : Z;
  latest_value : fval
}.
(** ON DUPLICATE KEY UPDATE latest_year = VALUES(latest_year),
    latest_value = VALUES(latest_value) *)
Definition on_duplicate (old new : t) : t :=
  {| latest_year := latest_year new; latest_value := latest_value new |}.
End LatestIndicators.

(** [yoy_changes], UNIQUE KEY (country_code, indicator_code, year). *)
Module YoyChanges.
Definition key : Type := string * string * Z.
Record t : Type := mk {
  value : fval;
  yoy_change : fval
}.
(** ON DUPLICATE KEY UPDATE value = VALUES(value),
    yoy_change = VALUES(yoy_change) *)
Definition on_duplicate (old new : t) : t :=
  {| value := value new; yoy_change := yoy_change new |}.
End YoyChanges.

(** [country_summary], UNIQUE KEY (country_code). A NULL number is [NaN]. *)
Module CountrySummary.
Definition key : Type := string.
Record t : Type := mk {
  country_name : string;
  total_indicators : nat;
  latest_gdp : fval;
  latest_population : fval;
  avg_gdp_growth : fval
}.
(** ON DUPLICATE KEY UPDATE total_indicators, latest_gdp,
    latest_population, avg_gdp_growth (not country_name) *)
Definition on_duplicate (old new : t) : t :=
  {| country_name := country_name old;
     total_indicators := total_indicators new;
     latest_gdp := latest_gdp new;
     latest_population := latest_population new;
     avg_gdp_growth := avg_gdp_growth new |}.
End CountrySummary.

Record Tables : Type := mkTables {
  tbl_economic_indicators : gmap EconomicIndicators.key EconomicIndicators.t;
  tbl_latest_indicators : gmap LatestIndicators.key LatestIndicators.t;
  tbl_yoy_changes : gmap YoyChanges.key YoyChanges.t;
  tbl_country_summary : gmap CountrySummary.key CountrySummary.t
}.

Definition no_tables : Tables := mkTables ∅ ∅ ∅ ∅.

(** INSERT ... ON DUPLICATE KEY UPDATE on one row. *)
Definition upsert `{Countable K} {V} (on_duplicate : V → V → V)
    (k : K) (v : V) (m : gmap K V) : gmap K V :=
  match m !! k with
  | Some old => <[k := on_duplicate old v]> m
  | None => <[k := v]> m
  end.

(** A batch of upserts, in order. *)
Definition upsert_all `{Countable K} {V} (on_duplicate : V → V → V)
    (kvs : list (K * V)) (m : gmap K V) : gmap K V :=
  foldl (λ m kv, upsert on_duplicate kv.1 kv.2 m) m kvs.

(** The statements the loader sends, with their parameters. *)
Inductive stmt : Type :=
  | CreateTableIfNotExists (table : string)
  | InsertEconomicIndicator (country_code : option string) (country_name : string)
      (indicator_code : string) (indicator_name : string) (year : Z) (value : fval)
      (decade : Z) (period : string) (continent : option string) (extracted_at : Z)
  | InsertLatestIndicator (country_code : option string) (indicator_code : string)
      (latest_year : Z) (latest_value : fval)
  | InsertYoyChange (country_code : option string) (indicator_code : string)
      (year : Z) (value : fval) (yoy_change : fval)
  | InsertSelectCountrySummary.

(** *** The SELECT of [create_country_summary] *)

Definition fval_lt (a b : fval) : bool := (a <? b)%float.

(** SQL MAX and AVG skip NULLs and are NULL over no value. They are taken
    over the floats that were sent; the DECIMAL arithmetic of the engine is
    part of its coercion of values, which is not modelled. *)
Definition sql_max (vs : list fval) : fval :=
  foldr (λ v acc, if isna acc then v else if fval_lt acc v then v else acc) NaN
    (filter (λ v, isna v = false) vs).

Definition sql_avg (vs : list fval) : fval :=
  let vs := filter (λ v, isna v = false) vs in
  match vs with
  | [] => NaN
  | _ => fdiv (foldr fadd (of_Z 0) vs) (of_Z (Z.of_nat (length vs)))
  end.

Definition ei_row : Type := EconomicIndicators.key * EconomicIndicators.t.
Definition ei_country (e : ei_row) : string := e.1.1.1.
Definition ei_indicator (e : ei_row) : string := e.1.1.2.
Definition ei_year (e : ei_row) : Z := e.1.2.

(** ROW_NUMBER() OVER (PARTITION BY country_code, indicator_code
    ORDER BY year DESC) = 1: no row of the partition has a later year (the
    unique key leaves no tie). *)
Definition rn_is_1 (rows : list ei_row) (e : ei_row) : Prop :=
  Forall (λ e', ei_country e' = ei_country e → ei_indicator e' = ei_indicator e →
                ei_year e' ≤ ei_year e) rows.

Global Instance rn_is_1_dec rows e : Decision (rn_is_1 rows e).
Proof. unfold rn_is_1. apply _. Defined.

Definition case_when_indicator (code : string) (rows : list ei_row) : list fval :=
  (λ e, if decide (ei_indicator e = code) then EconomicIndicators.value e.2 else NaN)
    <$> rows.

(** One row per group of GROUP BY e.country_code, e.country_name. *)
Definition summary_select (t : Tables) : list (CountrySummary.key * CountrySummary.t) :=
  let rows := map_to_list (tbl_economic_indicators t) in
  let e := filter (rn_is_1 rows) rows in
  let groups := remove_dups ((λ r, (ei_country r, EconomicIndicators.country_name r.2)) <$> e) in
  (λ g : string * string,
     let rs := filter (λ r, (ei_country r, EconomicIndicators.country_name r.2) = g) e in
     (g.1,
      {| CountrySummary.country_name := g.2;
         CountrySummary.total_indicators := length (remove_dups (ei_indicator <$> rs));
         CountrySummary.latest_gdp := sql_max (case_when_indicator "NY.GDP.MKTP.CD" rs);
         CountrySummary.latest_population := sql_max (case_when_indicator "SP.POP.TOTL" rs);
         CountrySummary.avg_gdp_growth := sql_avg (case_when_indicator "NY.GDP.MKTP.KD.ZG" rs) |}))
  <$> groups.

(** *** What a statement does to the tables

    [None] is the engine refusing the row: a NULL in a NOT NULL key column. *)
Definition exec_stmt (s : stmt) (t : Tables) : option Tables :=
  match s with
  | CreateTableIfNotExists _ => Some t
  | InsertEconomicIndicator cc cn ic iname y v d p c x =>
      cc ← cc;
      Some (mkTables
        (upsert EconomicIndicators.on_duplicate (cc, ic, y)
           (EconomicIndicators.mk cn iname v d p c x) (tbl_economic_indicators t))
        (tbl_latest_indicators t) (tbl_yoy_changes t) (tbl_country_summary t))
  | InsertLatestIndicator cc ic y v =>
      cc ← cc;
      Some (mkTables (tbl_economic_indicators t)
        (upsert LatestIndicators.on_duplicate (cc, ic) (LatestIndicators.mk y v)
           (tbl_latest_indicators t))
        (tbl_yoy_changes t) (tbl_country_summary t))
  | InsertYoyChange cc ic y v c =>
      cc ← cc;
      Some (mkTables (tbl_economic_indicators t) (tbl_latest_indicators t)
        (upsert YoyChanges.on_duplicate (cc, ic, y) (YoyChanges.mk v c) (tbl_yoy_changes t))
        (tbl_country_summary t))
  | InsertSelectCountrySummary =>
      Some (mkTables (tbl_economic_indicators t) (tbl_latest_indicators t)
        (tbl_yoy_changes t)
        (upsert_all CountrySummary.on_duplicate (summary_select t)
           (tbl_country_summary t)))
  end.

(** ** The loader's world: the connection's transaction and the log *)

(** [committed] is what the server holds; [working] is what the open
    transaction of the connection sees. *)
Record Db : Type := mkDb {
  committed : Tables;
  working : Tables
}.

Inductive LogRecord : Type :=
  | INFO (msg : string)
  | ERROR (msg : string).

Record State : Type := mkState {
  db : Db;
  log : list LogRecord
}.

(** Code that changes the state and returns or raises. *)
Definition M (A : Type) : Type := State → State * (exn + A).

Definition ret {A} (a : A) : M A := λ st, (st, inr a).
Definition raise {A} (e : exn) : M A := λ st, (st, inl e).
Definition bind {A B} (m : M A) (k : A → M B) : M B := λ st,
  match m st with
  | (st', inr a) => k a st'
  | (st', inl e) => (st', inl e)
  end.

Notation "'do' x <- m ; k" := (bind m (λ x, k))
  (at level 10, x name, m at level 100, k at level 200).
Notation "m >> k" := (bind m (λ _, k))
  (at level 100, k at level 200, right associativity).

(** [try: body  except Error as e: handler e] catches the database errors
    only; any other exception passes through. *)
Definition try_except_Error {A} (body : M A) (handler : string → M A) : M A := λ st,
  match body st with
  | (st', inl (DbError msg)) => handler msg st'
  | r => r
  end.

(** [try: body  except Exception as e: handler e] *)
Definition try_except_Exception {A} (body : M A) (handler : exn → M A) : M A := λ st,
  match body st with
  | (st', inl e) => handler e st'
  | r => r
  end.

Fixpoint for_each {A} (l : list A) (body : A → M unit) : M unit :=
  match l with
  | [] => ret tt
  | x :: l' => body x >> for_each l' body
  end.

Definition logging_info (msg : string) : M unit := λ st,
  (mkState (db st) (log st ++ [INFO msg]), inr tt).

Definition logging_error (msg : string) : M unit := λ st,
  (mkState (db st) (log st ++ [ERROR msg]), inr tt).

Definition exn_str (e : exn) : string :=
  match e with AssertionError m | ValueError m | DbError m => m end.

Definition connection_rollback : M unit := λ st,
  (mkState (mkDb (committed (db st)) (committed (db st))) (log st), inr tt).

(** [int(x)] of a null number *)
Definition py_int (x : option Z) : M Z :=
  match x with
  | Some n => ret n
  | None => raise (ValueError "cannot convert float NaN to integer")
  end.

(** [str(x)] of a possibly null label *)
Definition py_str (x : option string) : string := default "nan" x.

(** What the loader asks of the server: a statement, or the commit of the
    transaction. *)
Inductive request : Type :=
  | Execute (s : stmt)
  | Commit.

(** What the outside world decides: which requests the server refuses
    (besides the key constraint), given the tables the transaction sees, and
    how [mysql.connector.connect] ends. *)
Inductive ConnectOutcome : Type :=
  | Connected
  | NotConnected
  | ConnectError (msg : string).

Section Loader.
Variable rejects : request → Tables → bool.
Variable connect_outcome : ConnectOutcome.

(** [cursor.execute(query, values)]: a refused statement raises
    [mysql.connector.Error] and changes nothing. *)
Definition cursor_execute (s : stmt) : M unit := λ st,
  if rejects (Execute s) (working (db st)) then (st, inl (DbError "statement refused"))
  else match exec_stmt s (working (db st)) with
       | None => (st, inl (DbError "Column cannot be null"))
       | Some w => (mkState (mkDb (committed (db st)) w) (log st), inr tt)
       end.

(** [connection.commit()]: a refused commit raises [mysql.connector.Error]
    and leaves the transaction open, with what it has written. *)
Definition connection_commit : M unit := λ st,
  if rejects Commit (working (db st)) then (st, inl (DbError "commit refused"))
  else (mkState (mkDb (working (db st)) (working (db st))) (log st), inr tt).

(** *** MySQLLoader *)

Definition connect : M (option bool) :=
  match connect_outcome with
  | Connected =>
      (λ st, (mkState (mkDb (committed (db st)) (committed (db st))) (log st), inr tt)) >>
      logging_info "Successfully connected to MySQL" >>
      ret (Some true)
  | NotConnected => ret None
  | ConnectError msg =>
      logging_error ("Error connecting to MySQL: " +:+ msg) >>
      ret (Some false)
  end.

Definition create_tables : M unit :=
  try_except_Error
    (cursor_execute (CreateTableIfNotExists "economic_indicators") >>
     cursor_execute (CreateTableIfNotExists "latest_indicators") >>
     cursor_execute (CreateTableIfNotExists "yoy_changes") >>
     cursor_execute (CreateTableIfNotExists "country_summary") >>
     connection_commit >>
     logging_info "All tables created successfully")
    (λ e,
     logging_error ("Error creating tables: " +:+ e) >>
     raise (DbError e)).

(** The bodies of the three [for _, row in ....iterrows()] loops. *)
Definition insert_economic_indicator (row : Row) : M unit :=
  do y <- py_int (year row);
  do d <- py_int (decade row);
  cursor_execute
    (InsertEconomicIndicator (country_code row) (country_name row)
       (indicator_code row) (indicator_name row) y (value row) d
       (py_str (period row)) (continent row) (extracted_at row)).

Definition insert_latest_indicator (row : Row) : M unit :=
  do y <- py_int (year row);
  cursor_execute
    (InsertLatestIndicator (country_code row) (indicator_code row) y (value row)).

Definition insert_yoy_change (yrow : YoyRow) : M unit :=
  if isna (yoy_change yrow) then ret tt
  else
    let row := yoy_row yrow in
    do y <- py_int (year row);
    cursor_execute
      (InsertYoyChange (country_code row) (indicator_code row) y (value row)
         (yoy_change yrow)).

Definition load_main_data (df : list Row) : M unit :=
  try_except_Error
    (for_each df insert_economic_indicator >>
     connection_commit >>
     logging_info ("Loaded " +:+ pretty (length df) +:+
                   " records to economic_indicators table"))
    (λ e,
     logging_error ("Error loading main data: " +:+ e) >>
     connection_rollback >>
     raise (DbError e)).

Definition load_aggregations (summaries : Summaries) : M unit :=
  try_except_Error
    (for_each (latest_values summaries) insert_latest_indicator >>
     for_each (yoy_changes summaries) insert_yoy_change >>
     connection_commit >>
     logging_info "Loaded all aggregations successfully")
    (λ e,
     logging_error ("Error loading aggregations: " +:+ e) >>
     connection_rollback >>
     raise (DbError e)).

Definition create_country_summary : M unit :=
  try_except_Error
    (cursor_execute InsertSelectCountrySummary >>
     connection_commit >>
     logging_info "Country summary created successfully")
    (λ e,
     logging_error ("Error creating summary: " +:+ e) >>
     raise (DbError e)).

(** Closing the connection drops what it has not committed. *)
Definition close : M unit :=
  connection_rollback >>
  logging_info "MySQL connection closed".

(** The body of [if loader.connect():] in [run_etl_pipeline]. *)
Definition load_steps (transformed_data : list Row) (summaries : Summaries) : M unit :=
  create_tables >>
  load_main_data transformed_data >>
  load_aggregations summaries >>
  create_country_summary >>
  close.

(** ** run_etl_pipeline

    [raw_data] is what [extract_all_data] returned; the HTTP extraction
    itself, its log lines and those of [transform], the elapsed time and the
    text of the traceback logged after "Pipeline failed" are outside the
    model. *)
Definition banner : string :=
  "============================================================".

Definition run_etl_pipeline (raw_data : list Raw.t) : M bool :=
  logging_info banner >>
  logging_info "Starting World Bank Economic Indicators ETL Pipeline" >>
  logging_info banner >>
  try_except_Exception
    (logging_info "STEP 1: EXTRACT" >>
     if bool_decide (raw_data = []) then
       logging_error "No data extracted. Exiting." >>
       ret false
     else
       logging_info ("Extracted " +:+ pretty (length raw_data) +:+ " records") >>
       logging_info "STEP 2: TRANSFORM" >>
       do transformed_data <-
         match transform raw_data with
         | inl e => raise e
         | inr df => ret df
         end;
       let summaries := create_aggregations transformed_data in
       logging_info ("Transformed " +:+ pretty (length transformed_data) +:+ " records") >>
       logging_info "STEP 3: LOAD" >>
       do connected <- connect;
       (if bool_decide (connected = Some true) then
          load_steps transformed_data summaries
        else ret tt) >>
       logging_info banner >>
       logging_info "Pipeline completed successfully" >>
       logging_info ("Total records processed: " +:+
                     pretty (length transformed_data)) >>
       logging_info banner >>
       ret true)
    (λ e,
     logging_error ("Pipeline failed: " +:+ exn_str e) >>
     ret false).

(** The [__main__] block calls [run_etl_pipeline()] and drops its result;
    the interpreter then ends with status 0. *)
Definition main (raw_data : list Raw.t) (st : State) : State * Z :=
  let '(st', _) := run_etl_pipeline raw_data st in (st', 0).

End Loader.

(** ** Vocabulary of the statements *)

(** A row is the first of its key in the frame. *)
Definition first_of_key (df : list Raw.t) (r : Raw.t) : Prop :=
  ∃ i, df !! i = Some r ∧
       ∀ j r', (j < i)%nat → df !! j = Some r' → raw_key r' ≠ raw_key r.

(** The rows [transform] checks and returns: first of their key, value
    not null. *)
Definition kept (df : list Raw.t) (r : Raw.t) : Prop :=
  first_of_key df r ∧ isna (Raw.value r) = false.

(** What the three assertions reject. *)
Definition violates_checks (r : Raw.t) : Prop :=
  Raw.country_code r = None ∨ Raw.year r = None ∨
  ∃ y, Raw.year r = Some y ∧ y < 2000.

(** The frame that [transform] hands on: no key twice, and no null in the
    checked columns. *)
Definition enriched (df : list Row) : Prop :=
  NoDup (row_key <$> df) ∧
  ∀ r, r ∈ df →
    is_Some (country_code r) ∧ is_Some (year r) ∧ isna (value r) = false.

Definition year_of (r : Row) : Z := default 0 (year r).

(** The columns of a row of the latest view: the ones the loader writes. *)
Definition view_of (r : Row) : option string * string * option Z * fval :=
  (country_code r, indicator_code r, year r, value r).

(** [r] is a row of [df] with the latest year of its group. *)
Definition latest_in (df : list Row) (r : Row) : Prop :=
  r ∈ df ∧
  ∀ r', r' ∈ df → group_key r' = group_key r → year_of r' ≤ year_of r.

(** [prev] is the row of [df] just before [r] in time, within the group of
    [r]: an earlier year, and no year of the group in between. *)
Definition preceding_in (df : list Row) (r prev : Row) : Prop :=
  prev ∈ df ∧ group_key prev = group_key r ∧ year_of prev < year_of r ∧
  ∀ x, x ∈ df → group_key x = group_key r → year_of x < year_of r →
       year_of x ≤ year_of prev.

(** What one upsert does to the row stored under [k]. *)
Definition upsert_at `{EqDecision K} {V} (on_duplicate : V → V → V)
    (k : K) (o : option V) (kv : K * V) : option V :=
  if decide (kv.1 = k)
  then Some (match o with Some old => on_duplicate old kv.2 | None => kv.2 end)
  else o.

(** The last row that a batch writes under [k]. *)
Definition last_for `{EqDecision K} {V} (k : K) (kvs : list (K * V)) : option V :=
  last (snd <$> filter (λ kv, kv.1 = k) kvs).

(** The rows the loader sends for a frame, as key and columns; [None] when
    a conversion of a row fails or its country code is null. *)
Definition main_entry (row : Row) : option (EconomicIndicators.key * EconomicIndicators.t) :=
  c ← country_code row; y ← year row; d ← decade row;
  Some ((c, indicator_code row, y),
        EconomicIndicators.mk (country_name row) (indicator_name row) (value row) d
          (py_str (period row)) (continent row) (extracted_at row)).

Definition latest_entry (row : Row) : option (LatestIndicators.key * LatestIndicators.t) :=
  c ← country_code row; y ← year row;
  Some ((c, indicator_code row), LatestIndicators.mk y (value row)).

Definition yoy_entry (yrow : YoyRow) : option (YoyChanges.key * YoyChanges.t) :=
  c ← country_code (yoy_row yrow); y ← year (yoy_row yrow);
  Some ((c, indicator_code (yoy_row yrow), y),
        YoyChanges.mk (value (yoy_row yrow)) (yoy_change yrow)).

(** The tables after a batch that the server accepts whole. *)
Definition apply_batch
    (mains : list (EconomicIndicators.key * EconomicIndicators.t))
    (latests : list (LatestIndicators.key * LatestIndicators.t))
    (yoys : list (YoyChanges.key * YoyChanges.t)) (t : Tables) : Tables :=
  let main := upsert_all EconomicIndicators.on_duplicate mains (tbl_economic_indicators t) in
  let t' := mkTables main
    (upsert_all LatestIndicators.on_duplicate latests (tbl_latest_indicators t))
    (upsert_all YoyChanges.on_duplicate yoys (tbl_yoy_changes t))
    (tbl_country_summary t) in
  mkTables (tbl_economic_indicators t') (tbl_latest_indicators t') (tbl_yoy_changes t')
    (upsert_all CountrySummary.on_duplicate (summary_select t') (tbl_country_summary t')).

(** One table changed, the others kept. *)
Definition with_main (f : gmap EconomicIndicators.key EconomicIndicators.t →
                          gmap EconomicIndicators.key EconomicIndicators.t)
    (t : Tables) : Tables :=
  mkTables (f (tbl_economic_indicators t)) (tbl_latest_indicators t)
    (tbl_yoy_changes t) (tbl_country_summary t).

Definition with_latest (f : gmap LatestIndicators.key LatestIndicators.t →
                            gmap LatestIndicators.key LatestIndicators.t)
    (t : Tables) : Tables :=
  mkTables (tbl_economic_indicators t) (f (tbl_latest_indicators t))
    (tbl_yoy_changes t) (tbl_country_summary t).

Definition with_yoy (f : gmap YoyChanges.key YoyChanges.t →
                         gmap YoyChanges.key YoyChanges.t)
    (t : Tables) : Tables :=
  mkTables (tbl_economic_indicators t) (tbl_latest_indicators t)
    (f (tbl_yoy_changes t)) (tbl_country_summary t).

(** The tables after the INSERT ... SELECT of [create_country_summary]. *)
Definition summarised (t : Tables) : Tables :=
  mkTables (tbl_economic_indicators t) (tbl_latest_indicators t) (tbl_yoy_changes t)
    (upsert_all CountrySummary.on_duplicate (summary_select t) (tbl_country_summary t)).

(** The state with another working copy of the tables. *)
Definition set_working (w : Tables) (st : State) : State :=
  mkState (mkDb (committed (db st)) w) (log st).

(** What [run_etl_pipeline] logs before and after the load stage of a run
    that extracted [n] records and transformed them into [m]. *)
Definition log_until_load (n m : nat) : list LogRecord :=
  [ INFO banner;
    INFO "Starting World Bank Economic Indicators ETL Pipeline";
    INFO banner;
    INFO "STEP 1: EXTRACT";
    INFO ("Extracted " +:+ pretty n +:+ " records");
    INFO "STEP 2: TRANSFORM";
    INFO ("Transformed " +:+ pretty m +:+ " records");
    INFO "STEP 3: LOAD" ].

Definition log_completed (m : nat) : list LogRecord :=
  [ INFO banner;
    INFO "Pipeline completed successfully";
    INFO ("Total records processed: " +:+ pretty m);
    INFO banner ].

(** What [connect] logs when it does not connect. *)
Definition log_not_connected (outcome : ConnectOutcome) : list LogRecord :=
  match outcome with
  | ConnectError msg => [ERROR ("Error connecting to MySQL: " +:+ msg)]
  | _ => []
  end.

(** What [run_etl_pipeline] logs when nothing was extracted. *)
Definition log_no_data : list LogRecord :=
  [ INFO banner;
    INFO "Starting World Bank Economic Indicators ETL Pipeline";
    INFO banner;
    INFO "STEP 1: EXTRACT";
    ERROR "No data extracted. Exiting." ].

(** ** Sample inputs *)

Definition row_1999 (v : fval) : Raw.t :=
  Raw.mk (Some "IND") "India" "NY.GDP.MKTP.CD" "GDP (current US$)" (Some 1999) v 0.

Definition dup_rows : list Raw.t :=
  [ Raw.mk (Some "IND") "India" "SP.POP.TOTL" "Population, total" (Some 2010) (of_Z 5) 0;
    Raw.mk (Some "IND") "India" "SP.POP.TOTL" "Population, total" (Some 2010) (of_Z 6) 1;
    Raw.mk (Some "IND") "India" "SP.POP.TOTL" "Population, total" (Some 2011) (of_Z 7) 1 ].

Definition null_value_row : Raw.t :=
  Raw.mk (Some "IND") "India" "SP.POP.TOTL" "Population, total" (Some 2010) NaN 0.

(** The spec's case: years 2015, 2020, 2018 of one group, in that order. *)
Definition years_2015_2020_2018 : list Raw.t :=
  [ Raw.mk (Some "IND") "India" "SP.POP.TOTL" "Population, total" (Some 2015) (of_Z 15) 0;
    Raw.mk (Some "IND") "India" "SP.POP.TOTL" "Population, total" (Some 2020) (of_Z 20) 0;
    Raw.mk (Some "IND") "India" "SP.POP.TOTL" "Population, total" (Some 2018) (of_Z 18) 0 ].

(** The spec's case: values 100, 110, 121 in 2010, 2011, 2012. *)
Definition values_100_110_121 : list Raw.t :=
  [ Raw.mk (Some "IND") "India" "NY.GDP.MKTP.CD" "GDP (current US$)" (Some 2010) (of_Z 100) 0;
    Raw.mk (Some "IND") "India" "NY.GDP.MKTP.CD" "GDP (current US$)" (Some 2011) (of_Z 110) 0;
    Raw.mk (Some "IND") "India" "NY.GDP.MKTP.CD" "GDP (current US$)" (Some 2012) (of_Z 121) 0 ].

Definition zero_in (y : Z) : Raw.t :=
  Raw.mk (Some "JPN") "Japan" "FP.CPI.TOTL.ZG" "Inflation, consumer prices (annual %)"
    (Some y) (of_Z 0) 0.

Definition values_0_0 : list Raw.t := [zero_in 2010; zero_in 2011].

Definition accepts_all : request → Tables → bool := λ _ _, false.

(** The server refuses the rows of one year of the main table. *)
Definition refuses_year (y : Z) : request → Tables → bool := λ s _,
  match s with
  | Execute (InsertEconomicIndicator _ _ _ _ y' _ _ _ _ _) => bool_decide (y' = y)
  | _ => false
  end.

(** The server refuses every commit. *)
Definition refuses_commit : request → Tables → bool := λ r _,
  match r with Commit => true | _ => false end.

(** The server refuses every row of the latest view. *)
Definition refuses_latest : request → Tables → bool := λ s _,
  match s with Execute (InsertLatestIndicator _ _ _ _) => true | _ => false end.

Definition df_100_110_121 : list Row := add_derived <$> values_100_110_121.

Definition stored_2010 : EconomicIndicators.t :=
  EconomicIndicators.mk "Bharat" "Gross domestic product" (of_Z 1) 2000 "old" None (-1).

(** Storage that already holds the row of 2010, under other names. *)
Definition holds_2010 : State :=
  let t := mkTables {[ ("IND", "NY.GDP.MKTP.CD", 2010) := stored_2010 ]} ∅ ∅ ∅ in
  mkState (mkDb t t) [].

Definition empty_state : State := mkState (mkDb no_tables no_tables) [].


(** * The rest of the script *)

(** ** create_aggregations: the decade averages *)

(** The key of [groupby(['country_code', 'indicator_code', 'decade'])]; a
    row with a null in it is in no group. *)
Definition DecadeKey : Type := string * string * Z.

Definition decade_key (r : Row) : option DecadeKey :=
  c ← country_code r; d ← decade r; Some (c, indicator_code r, d).

Definition in_decade (k : DecadeKey) (r : Row) : Prop := decade_key r = Some k.

Global Instance in_decade_dec k r : Decision (in_decade k r).
Proof. unfold in_decade. apply _. Defined.

Definition le_decade_key : relation DecadeKey :=
  lex_le (lex_le String.le String.le) Z.le.

Global Instance le_decade_key_dec : RelDecision le_decade_key.
Proof. unfold le_decade_key. apply _. Defined.

(** The groups, in ascending key order. *)
Definition decade_keys (df : list Row) : list DecadeKey :=
  merge_sort le_decade_key (remove_dups (omap decade_key df)).

(** [df.groupby([...])['value'].mean().reset_index()]: the third entry of
    the dictionary of [create_aggregations], which no loader reads. [mean]
    is the mean that pandas takes of the values of a group, in the order of
    the frame; how it sums them is the library's and is given from outside. *)
Definition decade_averages_of (mean : list fval → fval) (df : list Row) :
    list (DecadeKey * fval) :=
  (λ k, (k, mean (value <$> filter (in_decade k) df))) <$> decade_keys df.

(** A mean for the examples: the values that are not null, added from left
    to right, over their number; null over no value. (On the examples every
    order of summation gives the same float.) *)
Definition mean_left_to_right (vs : list fval) : fval :=
  let vs := filter (λ v, isna v = false) vs in
  match vs with
  | [] => NaN
  | _ => fdiv (foldl fadd (of_Z 0) vs) (of_Z (Z.of_nat (length vs)))
  end.

(** ** Configuration *)

(** The dictionaries [COUNTRIES] and [INDICATORS], in the order of their
    items. *)
Definition COUNTRIES : list (string * string) :=
  [ ("IND", "India"); ("USA", "United States"); ("CHN", "China");
    ("GBR", "United Kingdom"); ("JPN", "Japan"); ("DEU", "Germany");
    ("BRA", "Brazil") ].

Definition INDICATORS : list (string * string) :=
  [ ("NY.GDP.MKTP.CD", "GDP (current US$)");
    ("NY.GDP.PCAP.CD", "GDP per capita (current US$)");
    ("NY.GDP.MKTP.KD.ZG", "GDP growth (annual %)");
    ("SP.POP.TOTL", "Population, total");
    ("FP.CPI.TOTL.ZG", "Inflation, consumer prices (annual %)");
    ("SL.UEM.TOTL.ZS", "Unemployment, total (% of labor force)");
    ("NE.EXP.GNFS.ZS", "Exports of goods and services (% of GDP)");
    ("NE.IMP.GNFS.ZS", "Imports of goods and services (% of GDP)") ].

(** ** WorldBankExtractor *)

(** A record of the API, decoded: [country] and [indicator] are objects
    with an [id] and a [value]; [value] is a number or null. *)
Module Api.
Record t : Type := mk {
  country_id : option string;
  country_value : string;
  indicator_id : string;
  indicator_value : string;
  date : string;
  value : option fval
}.
End Api.

(** How [requests.get], [raise_for_status] and [response.json()] end: with
    a [RequestException], or with the decoded body, [[metadata, data]].
    An element of the body is modelled by the records it holds; the
    metadata and a null hold none. *)
Inductive Response : Type :=
  | RequestException (msg : string)
  | Json (data : list (list Api.t)).

(** A loop that carries local variables. *)
Fixpoint fold_each {A S} (l : list A) (body : S → A → M S) (s : S) : M S :=
  match l with
  | [] => ret s
  | x :: l' => do s' <- body s x; fold_each l' body s'
  end.

Module WorldBankExtractor.
Section Extractor.
(** The outside world: the answer of the API to the request for a country
    and an indicator, [int] on a string (the number, or the message of the
    [ValueError]), and the clock when the record after [n] others is
    appended. *)
Variable fetch : string → string → Response.
Variable int_of_str : string → string + Z.
Variable now : nat → Z.

Definition extract_indicator_data (country_code indicator_code : string) :
    M (list Api.t) :=
  match fetch country_code indicator_code with
  | Json data =>
      match data !! 1%nat with
      | Some (record :: records) => ret (record :: records)
      | _ => ret []
      end
  | RequestException e =>
      logging_error ("Error fetching " +:+ country_code +:+ "/" +:+ indicator_code
                     +:+ ": " +:+ e) >>
      ret []
  end.

(** The body of [for record in data]. *)
Definition append_record (all_records : list Raw.t) (record : Api.t) :
    M (list Raw.t) :=
  match Api.value record with
  | None => ret all_records
  | Some v =>
      match int_of_str (Api.date record) with
      | inl msg => raise (ValueError msg)
      | inr y =>
          ret (all_records ++
               [ Raw.mk (Api.country_id record) (Api.country_value record)
                   (Api.indicator_id record) (Api.indicator_value record)
                   (Some y) v (now (length all_records)) ])%list
      end
  end.

(** The body of the two nested loops; the local variables are
    [all_records] and [current]. *)
Definition extract_pair (total : nat) (country indicator : string * string)
    (vars : list Raw.t * nat) : M (list Raw.t * nat) :=
  let current := S vars.2 in
  logging_info ("[" +:+ pretty current +:+ "/" +:+ pretty total +:+ "] Extracting "
                +:+ country.2 +:+ " - " +:+ indicator.2) >>
  do data <- extract_indicator_data country.1 indicator.1;
  do all_records <- fold_each data append_record vars.1;
  ret (all_records, current).

Definition extract_all_data : M (list Raw.t) :=
  let total := (length COUNTRIES * length INDICATORS)%nat in
  logging_info ("Starting extraction for " +:+ pretty (length COUNTRIES)
                +:+ " countries and " +:+ pretty (length INDICATORS)
                +:+ " indicators") >>
  do vars <-
    fold_each COUNTRIES (λ vars country,
      fold_each INDICATORS (λ vars indicator,
        extract_pair total country indicator vars) vars) ([], 0%nat);
  logging_info ("Extracted " +:+ pretty (length vars.1) +:+ " total records") >>
  ret vars.1.

End Extractor.
End WorldBankExtractor.

(** ** EconomicDataTransformer.transform, with what it logs *)

Module EconomicDataTransformer.
Definition transform (df : list Raw.t) : M (list Row) :=
  logging_info "Starting transformation" >>
  logging_info ("Removed " +:+
                pretty (Z.of_nat (length df) - Z.of_nat (length (drop_duplicates df)))
                +:+ " duplicates") >>
  match transform df with
  | inl e => raise e
  | inr df =>
      logging_info ("Transformation complete. Final records: " +:+ pretty (length df)) >>
      ret df
  end.
End EconomicDataTransformer.

(** ** The script from end to end *)

Module Script.
Section Run.
Variable fetch : string → string → Response.
Variable int_of_str : string → string + Z.
Variable now : nat → Z.
Variable rejects : request → Tables → bool.
Variable connect_outcome : ConnectOutcome.

(** [run_etl_pipeline] with the extraction and with the log lines of the
    stages; the elapsed time and the text of the traceback stay out. *)
Definition run_etl_pipeline : M bool :=
  logging_info banner >>
  logging_info "Starting World Bank Economic Indicators ETL Pipeline" >>
  logging_info banner >>
  try_except_Exception
    (logging_info "STEP 1: EXTRACT" >>
     do raw_data <- WorldBankExtractor.extract_all_data fetch int_of_str now;
     if bool_decide (raw_data = []) then
       logging_error "No data extracted. Exiting." >>
       ret false
     else
       logging_info ("Extracted " +:+ pretty (length raw_data) +:+ " records") >>
       logging_info "STEP 2: TRANSFORM" >>
       do transformed_data <- EconomicDataTransformer.transform raw_data;
       let summaries := create_aggregations transformed_data in
       logging_info ("Transformed " +:+ pretty (length transformed_data) +:+ " records") >>
       logging_info "STEP 3: LOAD" >>
       do connected <- connect connect_outcome;
       (if bool_decide (connected = Some true) then
          load_steps rejects transformed_data summaries
        else ret tt) >>
       logging_info banner >>
       logging_info "Pipeline completed successfully" >>
       logging_info ("Total records processed: " +:+
                     pretty (length transformed_data)) >>
       logging_info banner >>
       ret true)
    (λ e,
     logging_error ("Pipeline failed: " +:+ exn_str e) >>
     ret false).

End Run.
End Script.

(** A property of the state that a piece of code keeps, however it ends. *)
Definition preserves {A} (I : State → Prop) (m : M A) : Prop :=
  ∀ st st' r, I st → m st = (st', r) → I st'.

(** A property of the tables that holds of the committed ones and of the
    ones the connection sees. *)
Definition both (J : Tables → Prop) (st : State) : Prop :=
  J (committed (db st)) ∧ J (working (db st)).

(** A part of the tables is, after the step, committed and as seen by the
    connection, what was committed before. *)
Definition unchanged {A} (part : Tables → A) (st st' : State) : Prop :=
  part (committed (db st')) = part (committed (db st)) ∧
  part (working (db st')) = part (committed (db st)).

(** Every key stored in [t] is stored in [t']. *)
Definition keeps_rows (t t' : Tables) : Prop :=
  (∀ k, is_Some (tbl_economic_indicators t !! k) →
        is_Some (tbl_economic_indicators t' !! k)) ∧
  (∀ k, is_Some (tbl_latest_indicators t !! k) →
        is_Some (tbl_latest_indicators t' !! k)) ∧
  (∀ k, is_Some (tbl_yoy_changes t !! k) → is_Some (tbl_yoy_changes t' !! k)) ∧
  (∀ k, is_Some (tbl_country_summary t !! k) → is_Some (tbl_country_summary t' !! k)).

(** Storage whose latest table holds a later year than the frames below. *)
Definition holds_latest_2023 : State :=
  let t := mkTables ∅ {[ ("IND", "NY.GDP.MKTP.CD") := LatestIndicators.mk 2023 (of_Z 999) ]}
             ∅ ∅ in
  mkState (mkDb t t) [].

(** What the load steps log when every step succeeds, for a frame of [n]
    rows. *)
Definition log_loaded (n : nat) : list LogRecord :=
  [ INFO "All tables created successfully";
    INFO ("Loaded " +:+ pretty n +:+ " records to economic_indicators table");
    INFO "Loaded all aggregations successfully";
    INFO "Country summary created successfully";
    INFO "MySQL connection closed" ].

(** The row stored for a country and an indicator with the latest year. *)
Definition latest_stored (main : gmap EconomicIndicators.key EconomicIndicators.t)
    (c i : string) (e : EconomicIndicators.t) : Prop :=
  ∃ y, main !! (c, i, y) = Some e ∧ ∀ y' e', main !! (c, i, y') = Some e' → y' ≤ y.

(** Two values are the same number: the same float, or two floats that
    compare equal (the two zeros do). *)
Definition same_number (a b : fval) : Prop :=
  a = b ∨ (a =? b)%float = true.

(** Two years of GDP growth and one of population for one country. *)
Definition growth_3_then_7 : gmap EconomicIndicators.key EconomicIndicators.t :=
  let row v := EconomicIndicators.mk "India" "" (of_Z v) 2010 "2015-2020" (Some "Asia") 0 in
  {[ ("IND", "NY.GDP.MKTP.KD.ZG", 2019) := row 3;
     ("IND", "NY.GDP.MKTP.KD.ZG", 2020) := row 7;
     ("IND", "SP.POP.TOTL", 2020) := row 1380 ]}.

(** Storage that holds these rows and nothing else. *)
Definition holds_growth : State :=
  let t := mkTables growth_3_then_7 ∅ ∅ ∅ in
  mkState (mkDb t t) [].

(** The rows that the SELECT of [create_country_summary] keeps: the ones
    with [rn = 1]. *)
Definition latest_rows (main : gmap EconomicIndicators.key EconomicIndicators.t) :
    list ei_row :=
  filter (rn_is_1 (map_to_list main)) (map_to_list main).

(** The state in which the load steps start: the transaction opened by
    [connect], and the log of a run that extracted [n] records and
    transformed them into [m]. *)
Definition connected_state (n m : nat) (st : State) : State :=
  mkState (mkDb (committed (db st)) (committed (db st)))
    (log st ++ log_until_load n m ++ [INFO "Successfully connected to MySQL"]).

(** What [run_etl_pipeline] logs up to the failure of [transform], for [n]
    extracted records. *)
Definition log_until_transform (n : nat) : list LogRecord :=
  [ INFO banner;
    INFO "Starting World Bank Economic Indicators ETL Pipeline";
    INFO banner;
    INFO "STEP 1: EXTRACT";
    INFO ("Extracted " +:+ pretty n +:+ " records");
    INFO "STEP 2: TRANSFORM" ].

(** ** The extraction, in closed form *)

(** The requests of [extract_all_data], in their order: for each country,
    each indicator. *)
Definition requests : list ((string * string) * (string * string)) :=
  country ← COUNTRIES; (λ indicator, (country, indicator)) <$> INDICATORS.

(** The records that a request brings: none when it fails. *)
Definition answered (fetch : string → string → Response)
    (request : (string * string) * (string * string)) : list Api.t :=
  match fetch request.1.1 request.2.1 with
  | Json data => default [] (data !! 1%nat)
  | RequestException _ => []
  end.

(** The records with a value, of all requests. *)
Definition valued_records (fetch : string → string → Response) : list Api.t :=
  request ← requests; filter (λ record, is_Some (Api.value record)) (answered fetch request).

(** The row made of the record appended after [n] others, with its year. *)
Definition to_raw (now : nat → Z) (n : nat) (record : Api.t * Z) : Raw.t :=
  Raw.mk (Api.country_id record.1) (Api.country_value record.1)
    (Api.indicator_id record.1) (Api.indicator_value record.1)
    (Some record.2) (default NaN (Api.value record.1)) (now n).

Definition year_of_date (int_of_str : string → string + Z) (record : Api.t) : option Z :=
  match int_of_str (Api.date record) with inr y => Some y | inl _ => None end.

(** ** Sample answers of the outside world *)

Definition gdp_record (date : string) (value : option fval) : Api.t :=
  Api.mk (Some "IND") "India" "NY.GDP.MKTP.CD" "GDP (current US$)" date value.

(** India's GDP of 2021 and 2020 and a null for 2019; the requests for
    the United States fail; the others bring nothing. *)
Definition fetch_india_gdp (country_code indicator_code : string) : Response :=
  if decide (country_code = "IND" ∧ indicator_code = "NY.GDP.MKTP.CD") then
    Json [ []; [ gdp_record "2021" (Some (of_Z 3170000000000));
                 gdp_record "2020" (Some (of_Z 2660000000000));
                 gdp_record "2019" None ] ]
  else if decide (country_code = "USA") then RequestException "Read timed out"
  else Json [ []; [] ].

(** The same, with a quarter among the dates. *)
Definition fetch_quarter (country_code indicator_code : string) : Response :=
  if decide (country_code = "IND" ∧ indicator_code = "NY.GDP.MKTP.CD") then
    Json [ []; [ gdp_record "2021" (Some (of_Z 3170000000000));
                 gdp_record "2020Q4" (Some (of_Z 2660000000000)) ] ]
  else Json [ []; [] ].

Definition fetch_nothing (country_code indicator_code : string) : Response :=
  RequestException "Connection refused".

(** [int] on the dates of the samples. *)
Definition int_of_sample_date (s : string) : string + Z :=
  if decide (s = "2021") then inr 2021
  else if decide (s = "2020") then inr 2020
  else inl ("invalid literal for int() with base 10: '" +:+ s +:+ "'").

Definition clock_0 (n : nat) : Z := 0.

(** Since the log was [l0], every record logged satisfies [P]. *)
Definition logged_since (l0 : list LogRecord) (P : LogRecord → Prop) (st : State) : Prop :=
  ∃ l, log st = (l0 ++ l)%list ∧ Forall P l.

(** [run_etl_pipeline] after the extraction. *)
Definition script_after_extract (rejects : request → Tables → bool)
    (connect_outcome : ConnectOutcome) (raw_data : list Raw.t) : M bool :=
  if bool_decide (raw_data = []) then
    logging_error "No data extracted. Exiting." >>
    ret false
  else
    logging_info ("Extracted " +:+ pretty (length raw_data) +:+ " records") >>
    logging_info "STEP 2: TRANSFORM" >>
    do transformed_data <- EconomicDataTransformer.transform raw_data;
    let summaries := create_aggregations transformed_data in
    logging_info ("Transformed " +:+ pretty (length transformed_data) +:+ " records") >>
    logging_info "STEP 3: LOAD" >>
    do connected <- connect connect_outcome;
    (if bool_decide (connected = Some true) then
       load_steps rejects transformed_data summaries
     else ret tt) >>
    logging_info banner >>
    logging_info "Pipeline completed successfully" >>
    logging_info ("Total records processed: " +:+
                  pretty (length transformed_data)) >>
    logging_info banner >>
    ret true.

(** The [except Exception] clause of [run_etl_pipeline]. *)
Definition pipeline_failed (e : exn) : M bool :=
  logging_error ("Pipeline failed: " +:+ exn_str e) >>
  ret false.

(** ** The extraction without its log *)

(** A loop over a list whose body returns the next local variables or
    raises. *)
Fixpoint fold_result {A S E} (step : S → A → E + S) (s : S) (l : list A) : E + S :=
  match l with
  | [] => inr s
  | x :: l' =>
      match step s x with
      | inl e => inl e
      | inr s' => fold_result step s' l'
      end
  end.

(** What [append_record] returns. *)
Definition appended (int_of_str : string → string + Z) (now : nat → Z)
    (all_records : list Raw.t) (record : Api.t) : exn + list Raw.t :=
  match Api.value record with
  | None => inr all_records
  | Some v =>
      match int_of_str (Api.date record) with
      | inl msg => inl (ValueError msg)
      | inr y =>
          inr (all_records ++
               [ Raw.mk (Api.country_id record) (Api.country_value record)
                   (Api.indicator_id record) (Api.indicator_value record)
                   (Some y) v (now (length all_records)) ])%list
      end
  end.

(** What the body of the nested loops returns for a request. *)
Definition extracted_pair (fetch : string → string → Response)
    (int_of_str : string → string + Z) (now : nat → Z)
    (vars : list Raw.t * nat) (request : (string * string) * (string * string)) :
    exn + (list Raw.t * nat) :=
  match fold_result (appended int_of_str now) vars.1 (answered fetch request) with
  | inl e => inl e
  | inr all_records => inr (all_records, S vars.2)
  end.

(** The records with a value. *)
Definition valued (records : list Api.t) : list Api.t :=
  filter (λ record, is_Some (Api.value record)) records.

(** The state in which [run_etl_pipeline] starts the extraction. *)
Definition script_extract_state (st : State) : State :=
  mkState (db st)
    (log st ++ [INFO banner] ++
     [INFO "Starting World Bank Economic Indicators ETL Pipeline"] ++
     [INFO banner] ++ [INFO "STEP 1: EXTRACT"]).


(** * Properties *)

(** ** float64 *)


Lemma SFcompare_refl x : x ≠ S754_nan → SFcompare x x = Some Eq.
Proof.
  destruct x as [s|s| |s m e]; intros Hx; try done; try by destruct s.
  simpl. rewrite Z.compare_refl, Pos.compare_cont_refl. by destruct s.
Qed.

Lemma isna_spec v : isna v = true ↔ Prim2SF v = S754_nan.
Proof.
  unfold isna, is_nan. rewrite FloatAxioms.eqb_spec. unfold SFeqb.
  destruct (Prim2SF v) as [s|s| |s m e] eqn:Hv; [| |done|];
    (rewrite SFcompare_refl by done); done.
Qed.

Lemma isna_false v : isna v = false ↔ Prim2SF v ≠ S754_nan.
Proof. rewrite <- isna_spec. by destruct (isna v). Qed.

Lemma isna_eq a b :
  (Prim2SF a = S754_nan ↔ Prim2SF b = S754_nan) → isna a = isna b.
Proof.
  rewrite <- !isna_spec. destruct (isna a), (isna b); intuition congruence.
Qed.

Lemma shr_1_nonneg mrs : 0 ≤ shr_m mrs → 0 ≤ shr_m (shr_1 mrs).
Proof. destruct mrs as [[|[p|p|]|[p|p|]] r s]; simpl; lia. Qed.

Lemma iter_pos_shr_1_nonneg p mrs :
  0 ≤ shr_m mrs → 0 ≤ shr_m (SpecFloat.iter_pos shr_1 p mrs).
Proof.
  revert mrs. induction p as [p IH|p IH|]; intros mrs H; simpl.
  - apply IH, IH. by apply shr_1_nonneg.
  - by apply IH, IH.
  - by apply shr_1_nonneg.
Qed.

Lemma shr_fexp_nonneg m e l :
  0 ≤ m → 0 ≤ shr_m (shr_fexp prec emax m e l).1.
Proof.
  intros Hm. unfold shr_fexp, shr.
  assert (0 ≤ shr_m (shr_record_of_loc m l)) as H0 by (by destruct l as [|[]]).
  destruct (_ - e); simpl; [done| |done]. by apply iter_pos_shr_1_nonneg.
Qed.

Lemma binary_round_aux_notnan sx mx ex lx :
  0 ≤ mx → binary_round_aux prec emax sx mx ex lx ≠ S754_nan.
Proof.
  intros Hm. unfold binary_round_aux.
  pose proof (shr_fexp_nonneg mx ex lx Hm) as H1.
  destruct (shr_fexp prec emax mx ex lx) as [mrs' e']. simpl in H1.
  assert (0 ≤ round_nearest_even (shr_m mrs') (loc_of_shr_record mrs')) as H2.
  { unfold round_nearest_even. destruct (loc_of_shr_record mrs') as [|[]]; try lia.
    destruct (Z.even _); lia. }
  pose proof (shr_fexp_nonneg _ e' loc_Exact H2) as H3.
  destruct (shr_fexp prec emax _ e' loc_Exact) as [mrs'' e'']. simpl in H3.
  destruct (shr_m mrs''); [done| |lia]. by destruct (_ <=? _).
Qed.

Lemma binary_round_notnan sx mx ex : binary_round prec emax sx mx ex ≠ S754_nan.
Proof.
  unfold binary_round. destruct (shl_align _ _ _) as [mz ez].
  by apply binary_round_aux_notnan.
Qed.

Lemma binary_normalize_notnan m e s : binary_normalize prec emax m e s ≠ S754_nan.
Proof. destruct m; simpl; [done|apply binary_round_notnan..]. Qed.

(** ** Which results are null *)

Lemma SFmul_finite_nan x s m e :
  SF64mul x (S754_finite s m e) = S754_nan ↔ x = S754_nan.
Proof.
  destruct x as [sx|sx| |sx mx ex]; simpl; try done.
  split; [|done]. intros H. by apply binary_round_aux_notnan in H.
Qed.

Lemma SFsub_finite_nan x s m e :
  SF64sub x (S754_finite s m e) = S754_nan ↔ x = S754_nan.
Proof.
  destruct x as [sx|sx| |sx mx ex]; simpl; try done.
  split; [|done]. intros H. by apply binary_normalize_notnan in H.
Qed.

Lemma SFdiv_core_nonneg m1 e1 m2 e2 :
  0 ≤ (SFdiv_core_binary prec emax (Z.pos m1) e1 (Z.pos m2) e2).1.1.
Proof.
  unfold SFdiv_core_binary.
  set (s := _ - _ - Z.min _ _).
  set (m' := match s with Z.pos _ => Z.shiftl (Z.pos m1) s | 0 => Z.pos m1 | Z.neg _ => 0 end).
  assert (0 ≤ m') as Hm'.
  { unfold m'. destruct s; [lia| |lia]. apply Z.shiftl_nonneg. lia. }
  assert (Z.div_eucl m' (Z.pos m2) = (m' / Z.pos m2, m' mod Z.pos m2)) as ->.
  { unfold Z.div, Z.modulo. by destruct (Z.div_eucl m' (Z.pos m2)). }
  simpl. apply Z.div_pos; lia.
Qed.

Lemma SFdiv_finite_notnan sx mx ex sy my ey :
  SF64div (S754_finite sx mx ex) (S754_finite sy my ey) ≠ S754_nan.
Proof.
  unfold SF64div, SFdiv.
  pose proof (SFdiv_core_nonneg mx ex my ey) as H.
  destruct (SFdiv_core_binary prec emax (Z.pos mx) ex (Z.pos my) ey) as [[mz ez] lz].
  by apply binary_round_aux_notnan.
Qed.

Lemma SFdiv_nan x y :
  SF64div x y = S754_nan ↔
  x = S754_nan ∨ y = S754_nan ∨
  ((∃ s, x = S754_zero s) ∧ (∃ s, y = S754_zero s)) ∨
  ((∃ s, x = S754_infinity s) ∧ (∃ s, y = S754_infinity s)).
Proof.
  destruct x as [sx|sx| |sx mx ex], y as [sy|sy| |sy my ey];
    try (simpl; split; [done|]; intros [?|[?|[[[? ?] [? ?]]|[[? ?] [? ?]]]]]; done);
    try (simpl; split; [|done]; intros _; eauto 10).
  split; [by intros ?%SFdiv_finite_notnan|].
  intros [?|[?|[[[? ?] [? ?]]|[[? ?] [? ?]]]]]; done.
Qed.

Lemma is_zero_spec v : is_zero v = true ↔ ∃ s, Prim2SF v = S754_zero s.
Proof.
  unfold is_zero. rewrite FloatAxioms.eqb_spec.
  change (Prim2SF zero) with (S754_zero false). unfold SFeqb.
  destruct (Prim2SF v) as [s|s| |s m e]; simpl.
  - split; [eauto|done].
  - destruct s; (split; [done|by intros [? ?]]).
  - split; [done|by intros [? ?]].
  - destruct s; (split; [done|by intros [? ?]]).
Qed.

Lemma is_infinity_spec v : is_infinity v = true ↔ ∃ s, Prim2SF v = S754_infinity s.
Proof.
  unfold is_infinity. rewrite FloatAxioms.eqb_spec, abs_spec.
  change (Prim2SF infinity) with (S754_infinity false). unfold SFeqb.
  destruct (Prim2SF v) as [s|s| |s m e]; simpl.
  - split; [done|by intros [? ?]].
  - split; [eauto|done].
  - split; [done|by intros [? ?]].
  - split; [done|by intros [? ?]].
Qed.

Lemma isna_fmul_100 v : isna (fmul v (of_Z 100)) = isna v.
Proof.
  change (of_Z 100) with 100%float.
  apply isna_eq. unfold fmul. rewrite mul_spec.
  change (Prim2SF 100%float) with (S754_finite false 7036874417766400 (-46)).
  apply SFmul_finite_nan.
Qed.

Lemma isna_fsub_1 v : isna (fsub v (of_Z 1)) = isna v.
Proof.
  change (of_Z 1) with 1%float.
  apply isna_eq. unfold fsub. rewrite sub_spec.
  change (Prim2SF 1%float) with (S754_finite false 4503599627370496 (-52)).
  apply SFsub_finite_nan.
Qed.

Lemma isna_fdiv a b :
  isna (fdiv a b) = true ↔
  isna a = true ∨ isna b = true ∨ (is_zero a = true ∧ is_zero b = true) ∨
  (is_infinity a = true ∧ is_infinity b = true).
Proof.
  rewrite !isna_spec, !is_zero_spec, !is_infinity_spec. unfold fdiv.
  rewrite div_spec. apply SFdiv_nan.
Qed.

Lemma isna_fdiv_100 v : isna (fdiv v (of_Z 100)) = isna v.
Proof.
  change (of_Z 100) with 100%float.
  apply isna_eq. unfold fdiv. rewrite div_spec, SFdiv_nan.
  change (Prim2SF 100%float) with (S754_finite false 7036874417766400 (-46)).
  split; [|by left]. intros [?|[?|[[_ [? ?]]|[_ [? ?]]]]]; done.
Qed.

(** ** rint *)

Lemma SFldexp_notnan x e : x ≠ S754_nan → SFldexp prec emax x e ≠ S754_nan.
Proof. destruct x; simpl; try done. intros _. apply binary_round_notnan. Qed.

Lemma SF2Prim_notnan x : x ≠ S754_nan → Prim2SF (SF2Prim x) ≠ S754_nan.
Proof.
  destruct x as [s|s| |s m e]; intros Hx; [by destruct s|by destruct s|done|].
  unfold SF2Prim.
  assert (Prim2SF (Z.ldexp (of_uint63 (Uint63.of_Z (Z.pos m))) e) ≠ S754_nan) as H.
  { rewrite Z_ldexp_spec. apply SFldexp_notnan. rewrite of_uint63_spec.
    apply binary_normalize_notnan. }
  destruct s; [|done]. rewrite opp_spec.
  by destruct (Prim2SF (Z.ldexp (of_uint63 (Uint63.of_Z (Z.pos m))) e)).
Qed.

Lemma SFrint_nan x : SFrint x = S754_nan ↔ x = S754_nan.
Proof.
  destruct x as [s|s| |s m [|e|e]]; simpl; try done.
  split; [|done]. intros H. by apply binary_normalize_notnan in H.
Qed.

Lemma isna_rint v : isna (rint v) = isna v.
Proof.
  unfold rint. destruct (isna v) eqn:Hv.
  - apply isna_spec in Hv. by rewrite Hv.
  - apply isna_false in Hv. apply isna_false, SF2Prim_notnan. by rewrite SFrint_nan.
Qed.

Lemma isna_round2 v : isna (round2 v) = isna v.
Proof. unfold round2. by rewrite isna_fdiv_100, isna_rint, isna_fmul_100. Qed.

(** ** Division by one *)

Lemma Z_div_eucl_eq a b : Z.div_eucl a b = (a / b, a mod b).
Proof. unfold Z.div, Z.modulo. by destruct (Z.div_eucl a b). Qed.

Lemma fexp_eq k : fexp prec emax k = Z.max (k - 53) (-1074).
Proof. reflexivity. Qed.

Lemma shr_fexp_canonical m e :
  fexp prec emax (Z.pos (digits2_pos m) + e) = e →
  shr_fexp prec emax (Z.pos m) e loc_Exact
    = ({| shr_m := Z.pos m; shr_r := false; shr_s := false |}, e).
Proof.
  intros Hc. unfold shr_fexp. cbn [Zdigits2 shr_record_of_loc]. rewrite Hc, Z.sub_diag.
  reflexivity.
Qed.

Lemma binary_round_aux_canonical s m e :
  fexp prec emax (Z.pos (digits2_pos m) + e) = e → e ≤ 971 →
  binary_round_aux prec emax s (Z.pos m) e loc_Exact = S754_finite s m e.
Proof.
  intros Hc He. unfold binary_round_aux. rewrite (shr_fexp_canonical m e Hc).
  cbn [shr_m loc_of_shr_record round_nearest_even].
  rewrite (shr_fexp_canonical m e Hc). cbn [shr_m].
  change (emax - prec) with 971. by rewrite (proj2 (Z.leb_le _ _) He).
Qed.

Lemma binary_round_aux_double s m e :
  fexp prec emax (Z.pos (digits2_pos m) + e) = e → e ≤ 971 →
  Z.pos (digits2_pos m) = 53 →
  binary_round_aux prec emax s (Z.pos m~0) (e - 1) loc_Exact = S754_finite s m e.
Proof.
  intros Hc He Hd. unfold binary_round_aux.
  assert (shr_fexp prec emax (Z.pos m~0) (e - 1) loc_Exact
          = ({| shr_m := Z.pos m; shr_r := false; shr_s := false |}, e)) as ->.
  { unfold shr_fexp. cbn [Zdigits2 shr_record_of_loc digits2_pos].
    rewrite Pos2Z.inj_succ, Hd.
    assert (fexp prec emax (Z.succ 53 + (e - 1)) - (e - 1) = 1) as ->.
    { rewrite fexp_eq in Hc |- *. lia. }
    cbn [shr SpecFloat.iter_pos shr_1 orb]. f_equal. lia. }
  cbn [shr_m loc_of_shr_record round_nearest_even].
  rewrite (shr_fexp_canonical m e Hc). cbn [shr_m].
  change (emax - prec) with 971. by rewrite (proj2 (Z.leb_le _ _) He).
Qed.

(** Dividing by one changes nothing. *)
Lemma SFdiv_one x :
  valid_binary x = true →
  SF64div x (S754_finite false 4503599627370496 (-52)) = x.
Proof.
  destruct x as [s|s| |s m e]; simpl; [by destruct s|by destruct s|done|].
  intros [Hc He]%andb_prop.
  apply Z.eqb_eq in Hc. apply Z.leb_le in He. change (emax - prec) with 971 in He.
  unfold SFdiv_core_binary. cbn [Zdigits2].
  change (Z.pos (digits2_pos 4503599627370496)) with 53.
  set (d := Z.pos (digits2_pos m)) in *.
  assert (0 < d) as Hd by (unfold d; lia).
  rewrite xorb_false_r.
  rewrite fexp_eq in Hc |- *.
  destruct (decide (d = 53 ∧ -1074 < e)) as [[Hd53 Hlt]|Hno].
  - assert (Z.min (Z.max (d + e - (53 + -52) - 53) (-1074)) (e - -52) = e - 1) as -> by lia.
    assert (e - -52 - (e - 1) = 53) as -> by lia.
    cbv iota.
    rewrite Z.shiftl_mul_pow2 by lia.
    rewrite Z_div_eucl_eq.
    change (2 ^ 53) with (2 * 4503599627370496).
    rewrite Z.mul_assoc, Z.div_mul, Z.mod_mul by lia.
    change (new_location 4503599627370496 0) with loc_Exact.
    replace (Z.pos m * 2) with (Z.pos m~0) by lia.
    apply binary_round_aux_double; [by rewrite fexp_eq|done|done].
  - assert (Z.min (Z.max (d + e - (53 + -52) - 53) (-1074)) (e - -52) = e) as -> by lia.
    assert (e - -52 - e = 52) as -> by lia.
    cbv iota.
    rewrite Z.shiftl_mul_pow2 by lia.
    rewrite Z_div_eucl_eq.
    change (2 ^ 52) with 4503599627370496.
    rewrite Z.div_mul, Z.mod_mul by lia.
    change (new_location 4503599627370496 0) with loc_Exact.
    apply binary_round_aux_canonical; [by rewrite fexp_eq|done].
Qed.

Lemma fadd_0_fdiv_1 v : same_number (fdiv (fadd v (of_Z 0)) (of_Z 1)) v.
Proof.
  change (of_Z 0) with 0%float. change (of_Z 1) with 1%float.
  destruct (isna v) eqn:Hv.
  - left. apply Prim2SF_inj. unfold fdiv, fadd. rewrite div_spec, add_spec.
    apply isna_spec in Hv. by rewrite Hv.
  - right. rewrite FloatAxioms.eqb_spec. unfold fdiv, fadd. rewrite div_spec, add_spec.
    change (Prim2SF 0%float) with (S754_zero false).
    change (Prim2SF 1%float) with (S754_finite false 4503599627370496 (-52)).
    apply isna_false in Hv. pose proof (Prim2SF_valid v) as Hvalid.
    destruct (Prim2SF v) as [s|s| |s m e] eqn:HX; [by destruct s|by destruct s|done|].
    cbn [SF64add SFadd]. rewrite SFdiv_one by done.
    unfold SFeqb. by rewrite SFcompare_refl.
Qed.

Lemma fmul_pct_change_NaN v : fmul (pct_change v NaN) (of_Z 100) = NaN.
Proof.
  unfold pct_change. change (of_Z 100) with 100%float. change (of_Z 1) with 1%float.
  apply Prim2SF_inj. unfold fmul, fsub, fdiv. rewrite mul_spec, sub_spec, div_spec.
  change (Prim2SF NaN) with S754_nan. by destruct (Prim2SF v).
Qed.
(** ** transform *)

Lemma round2_notna v : isna v = false → isna (round2 v) = false.
Proof. intros Hv. by rewrite isna_round2. Qed.


Lemma drop_duplicates_from_spec seen df r :
  r ∈ drop_duplicates_from seen df ↔
  (raw_key r ∉ seen) ∧ first_of_key df r.
Proof.
  revert seen. induction df as [|r0 df IH]; intros seen; simpl.
  - split; [by intros ?%elem_of_nil|]. by intros [_ (i & ? & _)].
  - destruct (decide (raw_key r0 ∈ seen)) as [Hin|Hout].
    + rewrite IH. split.
      * intros [Hr (i & Hi & Hfirst)]. split; [done|]. exists (S i). split; [done|].
        intros [|j] r' Hj Hr'; simplify_eq/=; [congruence|].
        eapply Hfirst; [|done]. lia.
      * intros [Hr (i & Hi & Hfirst)]. split; [done|].
        destruct i as [|i]; simplify_eq/=; [done|].
        exists i. split; [done|]. intros j r' Hj Hr'.
        apply (Hfirst (S j)); [lia|done].
    + rewrite elem_of_cons, IH. split.
      * intros [->|[Hr (i & Hi & Hfirst)]].
        -- split; [done|]. exists 0%nat. split; [done|]. intros; lia.
        -- apply not_elem_of_cons in Hr as [Hne Hr]. split; [done|].
           exists (S i). split; [done|].
           intros [|j] r' Hj Hr'; simplify_eq/=; [congruence|].
           eapply Hfirst; [|done]. lia.
      * intros [Hr (i & Hi & Hfirst)].
        destruct i as [|i]; simplify_eq/=; [by left|]. right.
        split.
        -- apply not_elem_of_cons. split; [|done].
           intros Heq. by apply (Hfirst 0%nat r0); [lia|..].
        -- exists i. split; [done|]. intros j r' Hj Hr'.
           apply (Hfirst (S j)); [lia|done].
Qed.

Lemma elem_of_drop_duplicates df r :
  r ∈ drop_duplicates df ↔ first_of_key df r.
Proof.
  unfold drop_duplicates. rewrite drop_duplicates_from_spec.
  split; [by intros [_ ?]|]. intros ?. split; [|done]. apply not_elem_of_nil.
Qed.

Lemma drop_duplicates_from_NoDup seen df :
  NoDup (raw_key <$> drop_duplicates_from seen df).
Proof.
  revert seen. induction df as [|r0 df IH]; intros seen; simpl; [constructor|].
  destruct (decide (raw_key r0 ∈ seen)); [done|].
  rewrite fmap_cons. constructor; [|done].
  intros (r & Hk & Hr)%list_elem_of_fmap.
  apply drop_duplicates_from_spec in Hr as [Hr _].
  apply Hr. rewrite Hk. by left.
Qed.

Lemma drop_duplicates_NoDup df : NoDup (raw_key <$> drop_duplicates df).
Proof. apply drop_duplicates_from_NoDup. Qed.

Lemma elem_of_cleaned df r :
  r ∈ dropna_value (drop_duplicates df) ↔ kept df r.
Proof.
  unfold dropna_value, kept. rewrite list_elem_of_filter, elem_of_drop_duplicates.
  tauto.
Qed.

Lemma year_ge_false r :
  year_ge 2000 (add_derived r) = false ↔
  Raw.year r = None ∨ ∃ y, Raw.year r = Some y ∧ y < 2000.
Proof.
  unfold year_ge. simpl. destruct (Raw.year r) as [y|]; [|naive_solver].
  rewrite Z.leb_gt. split; [intros ?; right; eauto|]. by intros [?|(? & [= <-] & ?)].
Qed.

Lemma transform_cases df :
  let rows := add_derived <$> dropna_value (drop_duplicates df) in
  (transform df = inr rows ∧
   ∀ r, kept df r → ¬ violates_checks r) ∨
  (∃ msg r, transform df = inl (AssertionError msg) ∧ kept df r ∧ violates_checks r).
Proof.
  intros rows. unfold transform. fold rows.
  destruct (existsb (λ r, bool_decide (country_code r = None)) rows) eqn:E1.
  { right. apply existsb_exists in E1 as (x & Hx%list_elem_of_In & Hc%bool_decide_eq_true).
    apply list_elem_of_fmap in Hx as (r & -> & Hr%elem_of_cleaned).
    eexists _, r. split; [done|]. split; [done|]. by left. }
  destruct (existsb (λ r, bool_decide (year r = None)) rows) eqn:E2.
  { right. apply existsb_exists in E2 as (x & Hx%list_elem_of_In & Hc%bool_decide_eq_true).
    apply list_elem_of_fmap in Hx as (r & -> & Hr%elem_of_cleaned).
    eexists _, r. split; [done|]. split; [done|]. right; by left. }
  destruct (forallb (year_ge 2000) rows) eqn:E3; simpl.
  - left. split; [done|]. intros r Hr Hbad.
    assert (add_derived r ∈ rows) as Hin.
    { apply list_elem_of_fmap. exists r. by rewrite elem_of_cleaned. }
    destruct Hbad as [Hc|Hy].
    + apply not_true_iff_false in E1. apply E1, existsb_exists.
      exists (add_derived r). split; [by apply list_elem_of_In|]. by apply bool_decide_eq_true.
    + rewrite forallb_forall in E3. specialize (E3 _ (proj1 (list_elem_of_In _ _) Hin)).
      apply year_ge_false in Hy. congruence.
  - right. apply not_true_iff_false in E3. rewrite forallb_forall in E3.
    destruct (decide (Exists (λ x, year_ge 2000 x = false) rows)) as [Hex|Hnex].
    + apply Exists_exists in Hex as (x & Hx & Hf).
      apply list_elem_of_fmap in Hx as (r & -> & Hr%elem_of_cleaned).
      eexists _, r. split; [done|]. split; [done|]. right. by apply year_ge_false.
    + exfalso. apply E3. intros x Hx%list_elem_of_In.
      destruct (year_ge 2000 x) eqn:E; [done|].
      exfalso. apply Hnex, Exists_exists. eauto.
Qed.

Lemma transform_inr df out :
  transform df = inr out →
  out = add_derived <$> dropna_value (drop_duplicates df).
Proof.
  intros H. destruct (transform_cases df) as [[Heq _]|(msg & r & Heq & _)];
    congruence.
Qed.

Lemma transform_NoDup df out :
  transform df = inr out → NoDup (row_key <$> out).
Proof.
  intros ->%transform_inr. rewrite <- list_fmap_compose.
  eapply sublist_NoDup; [apply drop_duplicates_NoDup|].
  apply fmap_sublist, sublist_filter.
Qed.

Lemma elem_of_transform df out o :
  transform df = inr out →
  o ∈ out ↔ ∃ r, kept df r ∧ o = add_derived r.
Proof.
  intros ->%transform_inr. rewrite list_elem_of_fmap.
  split.
  - intros (r & -> & Hr%elem_of_cleaned). eauto.
  - intros (r & Hr%elem_of_cleaned & ->). eauto.
Qed.

(** In a list without two elements of the same key, a key has at most one
    element. *)
Lemma count_key_NoDup {A K} `{EqDecision K} (f : A → K) (l : list A) (k : K) :
  NoDup (f <$> l) →
  length (filter (λ x, f x = k) l) = if decide (k ∈ f <$> l) then 1%nat else 0%nat.
Proof.
  induction l as [|x l IH]; simpl; [done|].
  rewrite NoDup_cons. intros [Hx Hl]. rewrite filter_cons.
  destruct (decide (f x = k)) as [<-|Hne]; simpl.
  - rewrite decide_True by (by left). rewrite IH by done.
    by rewrite decide_False.
  - rewrite IH by done. destruct (decide (k ∈ f <$> l)) as [Hin|Hout].
    + rewrite decide_True; [done|]. by right.
    + rewrite decide_False; [done|]. rewrite not_elem_of_cons. split; [congruence|done].
Qed.

(** C4, as the code computes it: the bins of [period] are closed on the
    right, (2000, 2010], (2010, 2015], (2015, 2020], (2020, 2025], with
    2000 added to the first; so 2010 is labelled "2000s", 2015 "2010-2015"
    and 2020 "2015-2020", and a year outside the bins has no label. *)
Theorem period_right_closed (y : Z) :
  period_of (Some y) =
    if decide (y < 2000) then None
    else if decide (y ≤ 2010) then Some "2000s"
    else if decide (y ≤ 2015) then Some "2010-2015"
    else if decide (y ≤ 2020) then Some "2015-2020"
    else if decide (y ≤ 2025) then Some "2020s"
    else None.
Proof.
  unfold period_of, pd_cut, searchsorted_left, period_bins, period_labels.
  cbn [filter list_filter head andb].
  destruct (decide (2000 < y)), (decide (2010 < y)), (decide (2015 < y)),
    (decide (2020 < y)), (decide (2025 < y)); try lia;
    repeat case_decide; try lia; cbn; repeat case_bool_decide;
    try lia; try congruence; try reflexivity.
  all: simpl in *; try lia; try discriminate.
  all: exfalso; assert (y = 2000) by lia; congruence.
Qed.

(** The code at the edges of the bins, and around them. *)
Example period_of_edges :
  (λ y, period_of (Some y)) <$> [1999; 2000; 2009; 2010; 2011; 2015; 2016; 2020; 2021; 2025; 2026]
  = [None; Some "2000s"; Some "2000s"; Some "2000s"; Some "2010-2015";
     Some "2010-2015"; Some "2015-2020"; Some "2015-2020"; Some "2020s";
     Some "2020s"; None].
Proof. reflexivity. Qed.

(** C3, amended: [transform] fails with an assertion error exactly when a
    row that it keeps (the first row of its key, with a value that is not
    null) has a null country code, a null year or a year below 2000; a row
    removed as a duplicate or for its null value is not checked. A failure
    returns no rows. *)
Theorem transform_fails_iff (df : list Raw.t) :
  (∃ msg, transform df = inl (AssertionError msg)) ↔
  (∃ r, kept df r ∧ violates_checks r).
Proof.
  destruct (transform_cases df) as [[Heq Hok]|(msg & r & Heq & Hr & Hbad)].
  - split.
    + intros [msg Hmsg]. congruence.
    + intros (r & Hr & Hbad). by destruct (Hok r Hr).
  - split; eauto.
Qed.

(** C3, the spec's case: a row of 1999 with a value makes [transform] fail. *)
Example transform_year_1999 :
  transform [row_1999 (of_Z 5)] = inl (AssertionError "Invalid years found").
Proof. reflexivity. Qed.

(** C3 as stated fails: a row of 1999 whose value is null is dropped before
    the checks, and [transform] returns the empty frame. *)
Lemma transform_year_1999_null_value :
  ¬ (∀ df r, r ∈ df → violates_checks r →
       ∃ msg, transform df = inl (AssertionError msg)).
Proof.
  intros H. destruct (H [row_1999 NaN] (row_1999 NaN)) as [msg Hmsg].
  - by left.
  - right; right. exists 1999. by split.
  - discriminate Hmsg.
Qed.

(** C6, amended: when [transform] returns, its frame has at most one row
    for each (country_code, indicator_code, year), and exactly one for the
    keys whose first row in the input has a value that is not null. *)
Theorem transform_one_row_per_kept_key (df : list Raw.t) (out : list Row) :
  transform df = inr out →
  ∀ k : RecordKey,
    (length (filter (λ o, row_key o = k) out) ≤ 1)%nat ∧
    (length (filter (λ o, row_key o = k) out) = 1%nat ↔
     ∃ r, kept df r ∧ raw_key r = k).
Proof.
  intros Ht k. rewrite (count_key_NoDup row_key out k) by by eapply transform_NoDup.
  destruct (decide (k ∈ row_key <$> out)) as [Hin|Hout].
  - split; [lia|]. split; [intros _|done].
    apply list_elem_of_fmap in Hin as (o & -> & Ho).
    apply (elem_of_transform df out o Ht) in Ho as (r & Hr & ->). eauto.
  - split; [lia|]. split; [done|]. intros (r & Hr & <-). exfalso. apply Hout.
    apply list_elem_of_fmap. exists (add_derived r). split; [done|].
    apply (elem_of_transform df out _ Ht). eauto.
Qed.

(** On a frame with a duplicated key: the output has two rows, one of them
    for the duplicated key. *)
Lemma transform_one_row_per_kept_key_witness :
  let k : RecordKey := (Some "IND", "SP.POP.TOTL", Some 2010) in
  ∃ out, transform dup_rows = inr out ∧ length out = 2%nat ∧
    (length (filter (λ o, row_key o = k) out) ≤ 1)%nat ∧
    (length (filter (λ o, row_key o = k) out) = 1%nat ↔
     ∃ r, kept dup_rows r ∧ raw_key r = k).
Proof.
  eexists. split; [reflexivity|]. split; [reflexivity|].
  apply (transform_one_row_per_kept_key dup_rows); reflexivity.
Defined.

(** C6 as stated fails: the key of a row whose value is null has no row in
    the output. *)
Lemma transform_drops_null_value_key :
  ¬ (∀ df out, transform df = inr out →
       ∀ r, r ∈ df → length (filter (λ o, row_key o = raw_key r) out) = 1%nat).
Proof.
  intros H. specialize (H [null_value_row] [] eq_refl null_value_row).
  by specialize (H ltac:(by left)).
Qed.

(** ** The orders of [sort_values] *)

Global Instance opt_le_total {A} (le : relation A) `{!Total le} : Total (opt_le le).
Proof. intros [x|] [y|]; simpl; auto; apply (total le). Qed.

Global Instance opt_le_trans {A} (le : relation A) `{!Transitive le} :
  Transitive (opt_le le).
Proof. intros [x|] [y|] [z|]; simpl; try done. apply transitivity. Qed.

Global Instance opt_le_antisymm {A} (le : relation A) `{!AntiSymm (=) le} :
  AntiSymm (=) (opt_le le).
Proof.
  intros [x|] [y|]; simpl; try done. intros ??. f_equal. by apply (anti_symm le).
Qed.

Global Instance lex_le_total {A B} (leA : relation A) (leB : relation B)
  `{!RelDecision leA, !Total leA, !Total leB} : Total (lex_le leA leB).
Proof.
  intros [a1 b1] [a2 b2]. unfold lex_le. simpl.
  destruct (decide (leA a1 a2)) as [H12|H12], (decide (leA a2 a1)) as [H21|H21].
  - destruct (total leB b1 b2); auto.
  - left. split; [done|]. by intros ?.
  - right. split; [done|]. by intros ?.
  - destruct (total leA a1 a2); done.
Qed.

Global Instance lex_le_trans {A B} (leA : relation A) (leB : relation B)
  `{!Transitive leA, !Transitive leB} : Transitive (lex_le leA leB).
Proof.
  intros [a1 b1] [a2 b2] [a3 b3]. unfold lex_le. simpl.
  intros [H12 Hb12] [H23 Hb23]. split; [by etrans|].
  intros H31. trans b2.
  - apply Hb12. by etrans.
  - apply Hb23. by etrans.
Qed.

Global Instance lex_le_antisymm {A B} (leA : relation A) (leB : relation B)
  `{!AntiSymm (=) leA, !AntiSymm (=) leB} : AntiSymm (=) (lex_le leA leB).
Proof.
  intros [a1 b1] [a2 b2]. unfold lex_le. simpl.
  intros [H12 Hb12] [H21 Hb21]. f_equal.
  - by apply (anti_symm leA).
  - apply (anti_symm leB); auto.
Qed.

Global Instance le_year_total : Total le_year.
Proof. intros a b. unfold le_year. apply (total _). Qed.

Global Instance le_year_trans : Transitive le_year.
Proof. intros a b c. unfold le_year. apply transitivity. Qed.

Global Instance le_group_year_total : Total le_group_year.
Proof. intros a b. unfold le_group_year. apply (total _). Qed.

Global Instance le_group_year_trans : Transitive le_group_year.
Proof. intros a b c. unfold le_group_year. apply transitivity. Qed.

Lemma StronglySorted_filter {A} (R : relation A) (P : A → Prop)
    `{!∀ x, Decision (P x)} (l : list A) :
  StronglySorted R l → StronglySorted R (filter P l).
Proof.
  induction 1 as [|x l Hl IH Hx]; [constructor|].
  rewrite filter_cons. destruct (decide (P x)); [|done].
  constructor; [done|]. rewrite Forall_forall in Hx |- *.
  intros y [_ Hy]%list_elem_of_filter. auto.
Qed.


(** ** create_aggregations *)

Lemma transform_enriched raw df : transform raw = inr df → enriched df.
Proof.
  intros Ht. split; [by eapply transform_NoDup|].
  intros o (r & [Hfirst Hv] & ->)%(elem_of_transform raw df o Ht).
  destruct (transform_cases raw) as [[_ Hok]|(msg & r' & Heq & _)]; [|congruence].
  assert (¬ violates_checks r) as Hr by (by apply Hok).
  unfold violates_checks in Hr. simpl.
  split; [|split].
  - destruct (Raw.country_code r); [done|]. destruct Hr; auto.
  - destruct (Raw.year r); [done|]. destruct Hr; auto.
  - by apply round2_notna.
Qed.

Lemma enriched_Permutation df df' : df' ≡ₚ df → enriched df → enriched df'.
Proof.
  intros Hp [Hnd Hall]. split.
  - by rewrite Hp.
  - intros r Hr. apply Hall. by rewrite <- Hp.
Qed.

Lemma NoDup_fmap_eq {A B} (f : A → B) (l : list A) (x y : A) :
  NoDup (f <$> l) → x ∈ l → y ∈ l → f x = f y → x = y.
Proof.
  induction l as [|z l IH]; [by intros _ ?%elem_of_nil|].
  rewrite fmap_cons, NoDup_cons. intros [Hz Hl] Hx Hy Hf.
  apply elem_of_cons in Hx as [->|Hx], Hy as [->|Hy]; auto.
  - destruct Hz. rewrite Hf. by apply list_elem_of_fmap_2.
  - destruct Hz. rewrite <- Hf. by apply list_elem_of_fmap_2.
Qed.

Lemma enriched_year r df : enriched df → r ∈ df → year r = Some (year_of r).
Proof.
  intros [_ Hall] Hr. destruct (Hall r Hr) as (_ & [y Hy] & _).
  unfold year_of. by rewrite Hy.
Qed.

(** Two rows of a group with the same year are one row. *)
Lemma enriched_same_year df r r' :
  enriched df → r ∈ df → r' ∈ df →
  group_key r = group_key r' → year_of r = year_of r' → r = r'.
Proof.
  intros Hen Hr Hr' Hg Hy.
  apply (NoDup_fmap_eq row_key df); [apply Hen|done..|].
  destruct Hen as [_ Hall].
  destruct (Hall r Hr) as ([c Hc] & [y Hyr] & _).
  destruct (Hall r' Hr') as ([c' Hc'] & [y' Hyr'] & _).
  unfold group_key, year_of, row_key in *. rewrite Hc, Hc', Hyr, Hyr' in *.
  simplify_eq/=. congruence.
Qed.

Lemma le_year_enriched df r r' :
  enriched df → r ∈ df → r' ∈ df → le_year r r' ↔ year_of r ≤ year_of r'.
Proof.
  intros Hen Hr Hr'. unfold le_year.
  by rewrite (enriched_year r df), (enriched_year r' df).
Qed.

Lemma elem_of_group_keys df g :
  g ∈ group_keys df ↔ ∃ r, r ∈ df ∧ group_key r = Some g.
Proof.
  unfold group_keys. rewrite merge_sort_Permutation, elem_of_remove_dups.
  apply list_elem_of_omap.
Qed.

Lemma NoDup_group_keys df : NoDup (group_keys df).
Proof.
  unfold group_keys. rewrite merge_sort_Permutation. apply NoDup_remove_dups.
Qed.

Lemma group_keys_Permutation df df' : df' ≡ₚ df → group_keys df' = group_keys df.
Proof.
  intros Hp. unfold group_keys.
  apply (Sorted_unique (lex_le String.le String.le)).
  - apply (Sorted_merge_sort _).
  - apply (Sorted_merge_sort _).
  - rewrite !merge_sort_Permutation.
    apply NoDup_Permutation; [apply NoDup_remove_dups..|].
    intros g. rewrite !elem_of_remove_dups, !list_elem_of_omap.
    by setoid_rewrite Hp.
Qed.

Lemma group_key_groupby_last g rows : group_key (groupby_last g rows) = Some g.
Proof. by destruct g. Qed.

Lemma last_valid_total {A} (col : Row → option A) (rows : list Row) :
  (∀ r, r ∈ rows → is_Some (col r)) → last_valid col rows = last rows ≫= col.
Proof.
  unfold last_valid. induction rows as [|r rows _] using rev_ind; [done|].
  intros Hall. rewrite omap_app, last_snoc. simpl.
  destruct (Hall r) as [a Ha]; [apply elem_of_app; right; by left|].
  rewrite Ha. simpl. by rewrite last_snoc.
Qed.

Lemma last_notna_total (col : Row → fval) (rows : list Row) (r : Row) :
  (∀ r, r ∈ rows → isna (col r) = false) → last rows = Some r →
  last_notna col rows = col r.
Proof.
  unfold last_notna. intros Hall (rows' & ->)%last_Some.
  rewrite fmap_app, filter_app. simpl. rewrite filter_cons.
  rewrite decide_True by (apply Hall, elem_of_app; right; by left).
  by rewrite filter_nil, last_snoc.
Qed.

Lemma sorted_group_year df g :
  StronglySorted le_year (filter (in_group g) (sort_values_year df)).
Proof. apply StronglySorted_filter, (StronglySorted_merge_sort _). Qed.

Lemma elem_of_sorted_group df g r :
  r ∈ filter (in_group g) (sort_values_year df) ↔ group_key r = Some g ∧ r ∈ df.
Proof.
  unfold sort_values_year. by rewrite list_elem_of_filter, merge_sort_Permutation.
Qed.

(** The last row of a group, after the sort by year, has the latest year. *)
Lemma last_of_group_latest df g :
  enriched df → g ∈ group_keys df →
  ∃ r, last (filter (in_group g) (sort_values_year df)) = Some r ∧
       group_key r = Some g ∧ latest_in df r.
Proof.
  intros Hen (r0 & Hr0 & Hg0)%elem_of_group_keys.
  pose proof (sorted_group_year df g) as Hsorted.
  assert (r0 ∈ filter (in_group g) (sort_values_year df)) as Hin0
    by by apply elem_of_sorted_group.
  destruct (last (filter (in_group g) (sort_values_year df))) as [r|] eqn:Hlast.
  2:{ apply last_None in Hlast. rewrite Hlast in Hin0. by apply elem_of_nil in Hin0. }
  exists r. split; [done|].
  pose proof (last_Some_elem_of _ _ Hlast) as [Hg Hr]%elem_of_sorted_group.
  split; [done|]. split; [done|]. intros r' Hr' Hg'.
  assert (r' ∈ filter (in_group g) (sort_values_year df)) as Hin'.
  { apply elem_of_sorted_group. split; [congruence|done]. }
  apply last_Some in Hlast as [G HG]. rewrite HG in Hsorted, Hin'.
  apply elem_of_app in Hin' as [Hin'|Hin'%list_elem_of_singleton]; [|subst; lia].
  apply (le_year_enriched df); [done..|].
  eapply (StronglySorted_app_1_elem_of le_year G [r]); [done..|]. by left.
Qed.

Lemma view_of_groupby_last df g r :
  enriched df →
  last (filter (in_group g) (sort_values_year df)) = Some r →
  view_of (groupby_last g (filter (in_group g) (sort_values_year df))) = view_of r.
Proof.
  intros [_ Hall] Hlast.
  pose proof (last_Some_elem_of _ _ Hlast) as [Hg Hr]%elem_of_sorted_group.
  assert (∀ x, x ∈ filter (in_group g) (sort_values_year df) → x ∈ df) as Hsub.
  { by intros x [_ ?]%elem_of_sorted_group. }
  unfold view_of, groupby_last. simpl.
  rewrite (last_valid_total year), Hlast by (intros x Hx; by apply Hall, Hsub).
  rewrite (last_notna_total value _ r) by (try done; intros x Hx; by apply Hall, Hsub).
  unfold group_key in Hg. destruct (country_code r) as [c|]; [|done].
  simplify_eq/=. done.
Qed.

Lemma filter_fmap_key {A K} `{EqDecision K} (key_of : A → option K) (f : K → A)
    (keys : list K) (g : K) :
  (∀ g', key_of (f g') = Some g') → NoDup keys → g ∈ keys →
  filter (λ a, key_of a = Some g) (f <$> keys) = [f g].
Proof.
  intros Hkey. induction keys as [|g0 keys IH]; [by intros _ ?%elem_of_nil|].
  rewrite NoDup_cons. intros [Hg0 Hnd] Hin. rewrite fmap_cons, filter_cons, Hkey.
  destruct (decide (Some g0 = Some g)) as [[= ->]|Hne].
  - f_equal. clear IH Hin. induction keys as [|g1 keys IH]; [done|].
    apply not_elem_of_cons in Hg0 as [Hne Hg0]. apply NoDup_cons in Hnd as [_ Hnd].
    rewrite fmap_cons, filter_cons, Hkey.
    rewrite decide_False by congruence. auto.
  - apply IH; [done|]. apply elem_of_cons in Hin as [->|]; [done|done].
Qed.

Lemma sorted_group_Permutation df df' g :
  enriched df → df' ≡ₚ df →
  filter (in_group g) (sort_values_year df') = filter (in_group g) (sort_values_year df).
Proof.
  intros Hen Hp.
  apply (StronglySorted_unique_strong le_year); [|apply sorted_group_year..|].
  - intros x1 x2 [Hg1 Hx1]%elem_of_sorted_group [Hg2 Hx2]%elem_of_sorted_group H12 H21.
    rewrite Hp in Hx1.
    apply (enriched_same_year df); [done..|congruence|].
    apply (le_year_enriched df) in H12, H21; [lia|done..].
  - unfold sort_values_year. by rewrite !merge_sort_Permutation, Hp.
Qed.

Lemma latest_values_of_Permutation df df' :
  enriched df → df' ≡ₚ df → latest_values_of df' = latest_values_of df.
Proof.
  intros Hen Hp. unfold latest_values_of.
  rewrite (group_keys_Permutation df df' Hp).
  apply list_fmap_ext. intros _ g _. by rewrite (sorted_group_Permutation df df' g).
Qed.

(** C5: in the frame returned by [transform], every group
    (country_code, indicator_code) has one row with the latest year, and
    the latest view holds for that group exactly the view of that row
    (its codes, year and value); the view has no row outside the groups;
    no two rows of a group share the latest year, so no tie is ever broken;
    and the view is the same for every order of the rows of the frame. *)
Theorem latest_values_max_year (raw : list Raw.t) (df : list Row) :
  transform raw = inr df →
  let latest := latest_values (create_aggregations df) in
  (∀ r0, r0 ∈ df →
     ∃ r, latest_in df r ∧ group_key r = group_key r0 ∧
          view_of <$> filter (λ l, group_key l = group_key r0) latest = [view_of r]) ∧
  (∀ l, l ∈ latest → ∃ r0, r0 ∈ df ∧ group_key l = group_key r0) ∧
  (∀ r r', latest_in df r → latest_in df r' → group_key r = group_key r' → r = r') ∧
  (∀ df', df' ≡ₚ df → latest_values (create_aggregations df') = latest).
Proof.
  intros Hen%transform_enriched. simpl. split; [|split; [|split]].
  - intros r0 Hr0.
    destruct (proj2 Hen r0 Hr0) as ([c Hc] & _).
    assert (group_key r0 = Some (c, indicator_code r0)) as Hg0
      by (unfold group_key; by rewrite Hc).
    assert ((c, indicator_code r0) ∈ group_keys df) as Hin
      by (apply elem_of_group_keys; eauto).
    destruct (last_of_group_latest df _ Hen Hin) as (r & Hlast & Hg & Hlatest).
    exists r. split; [done|]. split; [by rewrite Hg0|].
    unfold latest_values_of. rewrite Hg0.
    rewrite (filter_fmap_key group_key);
      [|intros g'; apply group_key_groupby_last|apply NoDup_group_keys|done].
    simpl. f_equal. by apply view_of_groupby_last.
  - intros l (g & -> & Hin)%list_elem_of_fmap.
    apply elem_of_group_keys in Hin as (r0 & Hr0 & Hg0).
    exists r0. split; [done|]. by rewrite group_key_groupby_last.
  - intros r r' [Hr Hmax] [Hr' Hmax'] Hg.
    apply (enriched_same_year df); [done..|].
    specialize (Hmax r' Hr' (eq_sym Hg)). specialize (Hmax' r Hr Hg). lia.
  - intros df' Hp. by apply latest_values_of_Permutation.
Qed.

(** On the years 2015, 2020, 2018 of one group: the latest view is the row
    of 2020, for every order of the rows. *)
Lemma latest_values_max_year_witness :
  ∃ df, transform years_2015_2020_2018 = inr df ∧
    view_of <$> latest_values (create_aggregations df)
      = [(Some "IND", "SP.POP.TOTL", Some 2020, of_Z 20)] ∧
    ∀ df', df' ≡ₚ df →
      latest_values (create_aggregations df') = latest_values (create_aggregations df).
Proof.
  eexists. split; [reflexivity|]. split; [reflexivity|].
  apply (latest_values_max_year years_2015_2020_2018). reflexivity.
Defined.

(** *** Year-over-year changes *)

Lemma elem_of_with_yoy_change before l y :
  y ∈ with_yoy_change before l ↔
  ∃ l1 r l2, l = (l1 ++ r :: l2)%list ∧
    y = {| yoy_row := r;
           yoy_change := fmul (pct_change (value r) (shifted_value (before ++ l1) r))
                              (of_Z 100) |}.
Proof.
  revert before. induction l as [|r0 l IH]; intros before; simpl.
  - split; [by intros ?%elem_of_nil|]. intros (l1 & r & l2 & Hl & _).
    by destruct l1.
  - rewrite elem_of_cons, IH. split.
    + intros [->|(l1 & r & l2 & -> & ->)].
      * exists [], r0, l. by rewrite app_nil_r.
      * exists (r0 :: l1), r, l2. by rewrite <- app_assoc.
    + intros (l1 & r & l2 & Hl & ->). destruct l1 as [|r1 l1]; simplify_eq/=.
      * left. by rewrite app_nil_r.
      * right. exists l1, r, l2. by rewrite <- app_assoc.
Qed.

Lemma fmap_yoy_row_with_yoy_change before l :
  yoy_row <$> with_yoy_change before l = l.
Proof.
  revert before. induction l as [|r l IH]; intros before; simpl; [done|].
  by rewrite IH.
Qed.

Lemma le_group_year_same_group a b :
  group_key a = group_key b → is_Some (country_code a) →
  le_group_year a b ↔ le_year a b.
Proof.
  intros Hg [c Hc]. unfold group_key in Hg. rewrite Hc in Hg. simpl in Hg.
  destruct (country_code b) as [c'|] eqn:Hc'; simplify_eq/=.
  unfold le_group_year, le_year, lex_le. rewrite Hc, Hc'. simpl.
  assert (indicator_code a = indicator_code b) as -> by done.
  split; [intros (_ & H); by apply H|].
  intros H. split; [done|]. intros _. split; [done|]. done.
Qed.

Lemma preceding_in_unique df r p p' :
  enriched df → preceding_in df r p → preceding_in df r p' → p = p'.
Proof.
  intros Hen (Hp & Hg & Hlt & Hmax) (Hp' & Hg' & Hlt' & Hmax').
  apply (enriched_same_year df); [done..|congruence|].
  specialize (Hmax p' Hp' Hg' Hlt'). specialize (Hmax' p Hp Hg Hlt). lia.
Qed.

(** In the frame sorted by group and year, the rows of the group of [r]
    before [r] are the ones with an earlier year, the latest of them last. *)
Lemma shifted_in_sorted df l1 r l2 g :
  enriched df → sort_values_group_year df = (l1 ++ r :: l2)%list →
  group_key r = Some g →
  match last (filter (in_group g) l1) with
  | Some p => preceding_in df r p
  | None => ∀ x, x ∈ df → group_key x = group_key r → year_of r ≤ year_of x
  end.
Proof.
  intros Hen HS Hg.
  assert (sort_values_group_year df ≡ₚ df) as Hperm by apply merge_sort_Permutation.
  assert (StronglySorted le_group_year (l1 ++ r :: l2)) as Hsorted.
  { rewrite <- HS. apply (StronglySorted_merge_sort _). }
  assert (NoDup (l1 ++ r :: l2)) as Hnd.
  { rewrite <- HS, Hperm. eapply NoDup_fmap_1, Hen. }
  assert (∀ x, x ∈ (l1 ++ r :: l2)%list ↔ x ∈ df) as Hin.
  { intros x. by rewrite <- HS, Hperm. }
  assert (r ∈ df) as Hr by (apply Hin, elem_of_app; right; by left).
  assert (∀ x, x ∈ l1 → group_key x = group_key r → year_of x < year_of r) as Hbefore.
  { intros x Hx Hgx.
    assert (x ∈ df) as Hxdf by (apply Hin, elem_of_app; by left).
    assert (le_group_year x r) as Hle.
    { eapply (StronglySorted_app_1_elem_of _ l1 (r :: l2)); [done..|by left]. }
    apply le_group_year_same_group in Hle; [|done|by apply Hen].
    apply (le_year_enriched df) in Hle; [|done..].
    destruct (decide (year_of x = year_of r)) as [Heq|]; [|lia].
    assert (x = r) as -> by by apply (enriched_same_year df).
    apply NoDup_app in Hnd as (_ & Hnd & _). destruct (Hnd r Hx). by left. }
  assert (∀ x, x ∈ df → group_key x = group_key r → year_of x < year_of r → x ∈ l1)
    as Hearlier.
  { intros x Hx Hgx Hlt. apply Hin in Hx.
    apply elem_of_app in Hx as [Hx|Hx]; [done|].
    apply elem_of_cons in Hx as [->|Hx]; [lia|].
    assert (le_group_year r x) as Hle.
    { apply StronglySorted_app_1_r, StronglySorted_inv in Hsorted as [_ Hall].
      rewrite Forall_forall in Hall. by apply Hall. }
    assert (x ∈ df) as Hxdf by (apply Hin, elem_of_app; right; by right).
    apply le_group_year_same_group in Hle; [|done|by apply Hen].
    apply (le_year_enriched df) in Hle; [lia|done..]. }
  destruct (last (filter (in_group g) l1)) as [p|] eqn:Hlast.
  - pose proof (last_Some_elem_of _ _ Hlast) as [Hgp Hp]%list_elem_of_filter.
    unfold in_group in Hgp.
    assert (p ∈ df) as Hpdf by (apply Hin, elem_of_app; by left).
    split; [done|]. split; [congruence|]. split; [apply Hbefore; [done|congruence]|].
    intros x Hx Hgx Hlt.
    assert (x ∈ filter (in_group g) l1) as Hxf.
    { apply list_elem_of_filter. split; [unfold in_group; congruence|by apply Hearlier]. }
    apply last_Some in Hlast as [F HF]. rewrite HF in Hxf.
    apply elem_of_app in Hxf as [Hxf|Hxf%list_elem_of_singleton]; [|subst; lia].
    assert (StronglySorted le_group_year (F ++ [p])) as HsF.
    { rewrite <- HF. apply StronglySorted_filter. by apply StronglySorted_app_1_l in Hsorted. }
    assert (le_group_year x p) as Hle.
    { eapply (StronglySorted_app_1_elem_of _ F [p]); [done..|by left]. }
    apply le_group_year_same_group in Hle; [|congruence|by apply Hen].
    by apply (le_year_enriched df) in Hle.
  - intros x Hx Hgx. destruct (decide (year_of r ≤ year_of x)); [done|].
    apply last_None in Hlast.
    exfalso. eapply (filter_nil_not_elem_of (in_group g) l1 x); [done| |].
    + unfold in_group. congruence.
    + apply Hearlier; [done..|lia].
Qed.

(** The change against an earlier value, neither of them null: it is null
    exactly for a zero against a zero and for an infinity against an
    infinity. *)
Lemma yoy_change_isna (v prev : fval) :
  isna v = false → isna prev = false →
  isna (fmul (pct_change v prev) (of_Z 100)) = true ↔
    (is_zero v = true ∧ is_zero prev = true) ∨
    (is_infinity v = true ∧ is_infinity prev = true).
Proof.
  intros Hv Hp. unfold pct_change.
  rewrite isna_fmul_100, isna_fsub_1, isna_fdiv, Hv, Hp.
  split; [intros [?|[?|?]]; [done..|done]|by auto].
Qed.

Lemma elem_of_yoy_changes_of df y :
  enriched df →
  y ∈ yoy_changes_of df ↔
  ∃ r prev, r ∈ df ∧ preceding_in df r prev ∧
    isna (fmul (pct_change (value r) (value prev)) (of_Z 100)) = false ∧
    y = {| yoy_row := r;
           yoy_change := fmul (pct_change (value r) (value prev)) (of_Z 100) |}.
Proof.
  intros Hen. unfold yoy_changes_of.
  rewrite list_elem_of_filter, elem_of_with_yoy_change. split.
  - intros [Hna (l1 & r & l2 & HS & ->)]. simpl in Hna.
    assert (r ∈ df) as Hr.
    { rewrite <- (merge_sort_Permutation le_group_year df).
      fold (sort_values_group_year df). rewrite HS. apply elem_of_app; right; by left. }
    destruct (proj2 Hen r Hr) as ([c Hc] & _).
    assert (group_key r = Some (c, indicator_code r)) as Hg
      by (unfold group_key; by rewrite Hc).
    pose proof (shifted_in_sorted df l1 r l2 _ Hen HS Hg) as Hshift.
    revert Hna. unfold shifted_value. rewrite Hg. simpl.
    destruct (last (filter (in_group (c, indicator_code r)) l1)) as [p|]; simpl.
    + intros Hna. by exists r, p.
    + by rewrite fmul_pct_change_NaN.
  - intros (r & prev & Hr & Hprev & Hna & ->). simpl. 
    assert (r ∈ sort_values_group_year df) as Hin.
    { unfold sort_values_group_year. by rewrite merge_sort_Permutation. }
    apply list_elem_of_split in Hin as (l1 & l2 & HS).
    destruct (proj2 Hen r Hr) as ([c Hc] & _).
    assert (group_key r = Some (c, indicator_code r)) as Hg
      by (unfold group_key; by rewrite Hc).
    pose proof (shifted_in_sorted df l1 r l2 _ Hen HS Hg) as Hshift.
    assert (shifted_value l1 r = value prev) as Hsv.
    { unfold shifted_value. rewrite Hg.
      destruct (last (filter (in_group (c, indicator_code r)) l1)) as [p|]; simpl.
      - by rewrite (preceding_in_unique df r p prev).
      - destruct Hprev as (Hp & Hgp & Hlt & _). specialize (Hshift prev Hp Hgp). lia. }
    split.
    + exact Hna.
    + exists l1, r, l2. split; [done|]. simpl. by rewrite Hsv.
Qed.

Lemma yoy_changes_of_NoDup df :
  enriched df → NoDup ((λ y, row_key (yoy_row y)) <$> yoy_changes_of df).
Proof.
  intros [Hnd _]. unfold yoy_changes_of.
  rewrite (list_fmap_compose yoy_row row_key).
  eapply sublist_NoDup; [|apply fmap_sublist, fmap_sublist, sublist_filter].
  rewrite fmap_yoy_row_with_yoy_change. unfold sort_values_group_year.
  by rewrite merge_sort_Permutation.
Qed.

(** C2, amended: in the frame returned by [transform], the year-over-year
    view has a row for a year of a group exactly when the group has an
    earlier year and the change against the nearest earlier year is not
    null. No year of a group has two rows. The change is
    (value / earlier value - 1) * 100 in float64, each of the three
    operations rounded; it is null exactly for a zero against a zero and
    for an infinity against an infinity. *)
Theorem yoy_changes_spec (raw : list Raw.t) (df : list Row) :
  transform raw = inr df →
  let yoy := yoy_changes (create_aggregations df) in
  let change r prev := fmul (pct_change (value r) (value prev)) (of_Z 100) in
  (∀ y, y ∈ yoy ↔
     ∃ r prev, r ∈ df ∧ preceding_in df r prev ∧ isna (change r prev) = false ∧
       y = {| yoy_row := r; yoy_change := change r prev |}) ∧
  NoDup ((λ y, row_key (yoy_row y)) <$> yoy) ∧
  (∀ r prev, r ∈ df → prev ∈ df →
     change r prev = ((value r / value prev - 1) * 100)%float ∧
     (isna (change r prev) = true ↔
        (is_zero (value r) = true ∧ is_zero (value prev) = true) ∨
        (is_infinity (value r) = true ∧ is_infinity (value prev) = true))).
Proof.
  intros Hen%transform_enriched. simpl. split; [|split].
  - intros y. by apply elem_of_yoy_changes_of.
  - by apply yoy_changes_of_NoDup.
  - intros r prev Hr Hprev. split; [reflexivity|].
    apply yoy_change_isna; by apply Hen.
Qed.

(** On the values 100, 110, 121 of 2010, 2011, 2012: the view has the rows
    of 2011 and 2012, each with the change 10.000000000000009: the quotient
    110/100 is rounded to the float of 1.1, which lies above 1.1, and the
    subtraction and the product keep the error. *)
Lemma yoy_changes_spec_witness :
  ∃ df, transform values_100_110_121 = inr df ∧
    (λ y, (year (yoy_row y), value (yoy_row y), yoy_change y))
      <$> yoy_changes (create_aggregations df)
      = [(Some 2011, of_Z 110, 10.000000000000009%float);
         (Some 2012, of_Z 121, 10.000000000000009%float)] ∧
    NoDup ((λ y, row_key (yoy_row y)) <$> yoy_changes (create_aggregations df)).
Proof.
  eexists. split; [reflexivity|]. split; [vm_compute; reflexivity|].
  apply (yoy_changes_spec values_100_110_121). reflexivity.
Defined.

(** The sign of a zero decides the sign of the change: 5 against -0.0 is
    minus infinity. *)
Example yoy_change_against_negative_zero :
  fmul (pct_change (of_Z 5) (-0)%float) (of_Z 100) = neg_infinity ∧
  fmul (pct_change (of_Z 5) 0%float) (of_Z 100) = infinity.
Proof. split; vm_compute; reflexivity. Qed.

(** C2 as stated fails, twice. 2011 has the earlier year 2010 in its group,
    but with both values 0 the change is 0/0, null, and the row is filtered
    out. And on the values 100, 110, 121 the changes are not 10. *)
Lemma yoy_changes_not_as_stated :
  ¬ (∀ raw df r prev, transform raw = inr df → r ∈ df → preceding_in df r prev →
       ∃ y, y ∈ yoy_changes (create_aggregations df) ∧ yoy_row y = r) ∧
  ¬ (∀ df, transform values_100_110_121 = inr df →
       yoy_change <$> yoy_changes (create_aggregations df) = [of_Z 10; of_Z 10]).
Proof.
  split.
  - intros H.
    destruct (H values_0_0 (add_derived <$> values_0_0)
                (add_derived (zero_in 2011)) (add_derived (zero_in 2010)))
      as (y & Hy & _).
    + reflexivity.
    + right; by left.
    + split; [by left|]. split; [done|]. split; [done|].
      intros x Hx _ Hlt. apply elem_of_cons in Hx as [->|Hx]; [done|].
      apply list_elem_of_singleton in Hx as ->. by compute in Hlt.
    + vm_compute in Hy. by apply elem_of_nil in Hy.
  - intros H. specialize (H _ eq_refl).
    apply (f_equal (λ l, (default NaN (head l) =? of_Z 10)%float)) in H.
    vm_compute in H. discriminate.
Qed.

(** ** INSERT ... ON DUPLICATE KEY UPDATE *)

Section upsert.
Context `{Countable K} {V : Type} (on_duplicate : V → V → V).
Implicit Types (k : K) (v x z : V) (o : option V) (m : gmap K V)
  (kv : K * V) (kvs : list (K * V)).

Lemma lookup_upsert k k' v m :
  upsert on_duplicate k' v m !! k = upsert_at on_duplicate k (m !! k) (k', v).
Proof.
  unfold upsert, upsert_at. simpl. destruct (decide (k' = k)) as [->|Hne].
  - destruct (m !! k); by rewrite lookup_insert_eq.
  - destruct (m !! k'); by rewrite lookup_insert_ne.
Qed.

Lemma lookup_upsert_all kvs m k :
  upsert_all on_duplicate kvs m !! k = foldl (upsert_at on_duplicate k) (m !! k) kvs.
Proof.
  unfold upsert_all. revert m. induction kvs as [|[k' v] kvs IH]; intros m; [done|].
  simpl. by rewrite IH, lookup_upsert.
Qed.

Lemma last_for_snoc k kvs kv :
  last_for k (kvs ++ [kv]) = if decide (kv.1 = k) then Some kv.2 else last_for k kvs.
Proof.
  unfold last_for. rewrite filter_app, filter_cons, filter_nil.
  destruct (decide (kv.1 = k)); simpl.
  - rewrite fmap_app. simpl. by rewrite last_snoc.
  - by rewrite app_nil_r.
Qed.

Lemma upsert_at_untouched k kvs o :
  last_for k kvs = None → foldl (upsert_at on_duplicate k) o kvs = o.
Proof.
  induction kvs as [|kv kvs IH] using rev_ind; [done|].
  rewrite last_for_snoc, foldl_snoc. unfold upsert_at at 1.
  destruct (decide (kv.1 = k)); [done|auto].
Qed.

Section laws.
Hypothesis on_duplicate_last : ∀ x a b,
  on_duplicate (on_duplicate x a) b = on_duplicate x b.
Hypothesis on_duplicate_same : ∀ a, on_duplicate a a = a.

(** A stored row takes from the batch what the last row for its key
    brings. *)
Lemma upsert_at_stored k kvs x :
  foldl (upsert_at on_duplicate k) (Some x) kvs =
    Some (match last_for k kvs with Some v => on_duplicate x v | None => x end).
Proof.
  induction kvs as [|kv kvs IH] using rev_ind; [done|].
  rewrite last_for_snoc, foldl_snoc, IH. unfold upsert_at.
  destruct (decide (kv.1 = k)); [|done].
  destruct (last_for k kvs); by rewrite ?on_duplicate_last.
Qed.

Lemma upsert_at_written k kvs o v :
  last_for k kvs = Some v →
  ∃ z, foldl (upsert_at on_duplicate k) o kvs = Some z ∧ on_duplicate z v = z.
Proof.
  revert v. induction kvs as [|kv kvs IH] using rev_ind; [done|].
  intros v. rewrite last_for_snoc, foldl_snoc. unfold upsert_at at 1.
  destruct (decide (kv.1 = k)) as [_|_]; [|by apply IH].
  intros [= <-]. destruct (foldl (upsert_at on_duplicate k) o kvs); eauto.
Qed.

(** Applying a batch twice is applying it once. *)
Lemma upsert_all_idemp kvs m :
  upsert_all on_duplicate kvs (upsert_all on_duplicate kvs m)
  = upsert_all on_duplicate kvs m.
Proof.
  apply map_eq. intros k. rewrite !lookup_upsert_all.
  destruct (last_for k kvs) as [v|] eqn:Hlast.
  - destruct (upsert_at_written k kvs (m !! k) v Hlast) as (z & -> & Hz).
    by rewrite upsert_at_stored, Hlast, Hz.
  - by rewrite !upsert_at_untouched.
Qed.
End laws.
End upsert.

Lemma main_upsert_idemp (kvs : list (EconomicIndicators.key * EconomicIndicators.t))
    (m : gmap EconomicIndicators.key EconomicIndicators.t) :
  upsert_all EconomicIndicators.on_duplicate kvs
    (upsert_all EconomicIndicators.on_duplicate kvs m)
  = upsert_all EconomicIndicators.on_duplicate kvs m.
Proof. apply upsert_all_idemp; [done|]. by intros []. Qed.

Lemma latest_upsert_idemp (kvs : list (LatestIndicators.key * LatestIndicators.t))
    (m : gmap LatestIndicators.key LatestIndicators.t) :
  upsert_all LatestIndicators.on_duplicate kvs
    (upsert_all LatestIndicators.on_duplicate kvs m)
  = upsert_all LatestIndicators.on_duplicate kvs m.
Proof. apply upsert_all_idemp; [done|]. by intros []. Qed.

Lemma yoy_upsert_idemp (kvs : list (YoyChanges.key * YoyChanges.t))
    (m : gmap YoyChanges.key YoyChanges.t) :
  upsert_all YoyChanges.on_duplicate kvs (upsert_all YoyChanges.on_duplicate kvs m)
  = upsert_all YoyChanges.on_duplicate kvs m.
Proof. apply upsert_all_idemp; [done|]. by intros []. Qed.

Lemma summary_upsert_idemp (kvs : list (CountrySummary.key * CountrySummary.t))
    (m : gmap CountrySummary.key CountrySummary.t) :
  upsert_all CountrySummary.on_duplicate kvs
    (upsert_all CountrySummary.on_duplicate kvs m)
  = upsert_all CountrySummary.on_duplicate kvs m.
Proof. apply upsert_all_idemp; [done|]. by intros []. Qed.

Lemma apply_batch_idemp mains latests yoys t :
  apply_batch mains latests yoys (apply_batch mains latests yoys t)
  = apply_batch mains latests yoys t.
Proof.
  unfold apply_batch. cbn [tbl_economic_indicators tbl_latest_indicators
    tbl_yoy_changes tbl_country_summary].
  rewrite main_upsert_idemp, latest_upsert_idemp, yoy_upsert_idemp.
  f_equal. unfold summary_select. cbn [tbl_economic_indicators].
  apply summary_upsert_idemp.
Qed.

(** ** MySQLLoader *)

Lemma set_working_id st : set_working (working (db st)) st = st.
Proof. by destruct st as [[] ?]. Qed.


(** A loop whose body, when it ends well, sends the entries of its row:
    if the loop ends well, the working copy has taken the entries of all
    rows in order, and nothing else of the state has changed. *)
Lemma for_each_ok {A KV} (body : A → M unit) (entries : A → option (list KV))
    (step : Tables → KV → Tables) (l : list A) (st st' : State) :
  (∀ x st st', body x st = (st', inr tt) →
     ∃ kvs, entries x = Some kvs ∧
            st' = set_working (foldl step (working (db st)) kvs) st) →
  for_each l body st = (st', inr tt) →
  ∃ kvss, mapM entries l = Some kvss ∧
          st' = set_working (foldl step (working (db st)) (concat kvss)) st.
Proof.
  intros Hbody. revert st. induction l as [|x l IH]; intros st; simpl.
  - intros [= <-]. exists []. split; [done|]. simpl. by rewrite set_working_id.
  - unfold bind at 1. destruct (body x st) as [st1 [e|[]]] eqn:Hx; [done|].
    intros Hl. apply Hbody in Hx as (kvs & Hkvs & ->).
    apply IH in Hl as (kvss & Hkvss & ->).
    exists (kvs :: kvss). rewrite Hkvs. simpl. rewrite Hkvss. simpl.
    split; [done|]. by rewrite foldl_app.
Qed.

(** A loop whose body leaves the committed tables alone leaves them alone,
    however it ends. *)
Lemma for_each_committed {A} (body : A → M unit) (l : list A) (st st' : State) r :
  (∀ x st st' r, body x st = (st', r) → committed (db st') = committed (db st)) →
  for_each l body st = (st', r) → committed (db st') = committed (db st).
Proof.
  intros Hbody. revert st. induction l as [|x l IH]; intros st; simpl.
  - by intros [= <- _].
  - unfold bind at 1. destruct (body x st) as [st1 [e|[]]] eqn:Hx.
    + intros [= <- _]. by eapply Hbody.
    + intros Hl. rewrite (IH _ Hl). by eapply Hbody.
Qed.

Lemma foldl_with_main kvs t :
  foldl (λ t kv, with_main (upsert EconomicIndicators.on_duplicate kv.1 kv.2) t) t kvs
  = with_main (upsert_all EconomicIndicators.on_duplicate kvs) t.
Proof.
  revert t. induction kvs as [|kv kvs IH]; intros t; simpl; [by destruct t|].
  by rewrite IH.
Qed.

Lemma foldl_with_latest kvs t :
  foldl (λ t kv, with_latest (upsert LatestIndicators.on_duplicate kv.1 kv.2) t) t kvs
  = with_latest (upsert_all LatestIndicators.on_duplicate kvs) t.
Proof.
  revert t. induction kvs as [|kv kvs IH]; intros t; simpl; [by destruct t|].
  by rewrite IH.
Qed.

Lemma foldl_with_yoy kvs t :
  foldl (λ t kv, with_yoy (upsert YoyChanges.on_duplicate kv.1 kv.2) t) t kvs
  = with_yoy (upsert_all YoyChanges.on_duplicate kvs) t.
Proof.
  revert t. induction kvs as [|kv kvs IH]; intros t; simpl; [by destruct t|].
  by rewrite IH.
Qed.

Section LoaderFacts.
Variable rejects : request → Tables → bool.

Ltac run_M :=
  repeat first
    [ progress (unfold insert_economic_indicator, insert_latest_indicator,
                  insert_yoy_change, bind, ret, raise, py_int, cursor_execute,
                  exec_stmt in *)
    | progress simplify_option_eq
    | case_match ].

Lemma insert_economic_indicator_ok row st st' :
  insert_economic_indicator rejects row st = (st', inr tt) →
  ∃ kv, main_entry row = Some kv ∧
    st' = set_working
            (with_main (upsert EconomicIndicators.on_duplicate kv.1 kv.2)
               (working (db st))) st.
Proof.
  unfold main_entry. intros Hrow. run_M. eexists. split; [done|]. done.
Qed.

Lemma insert_latest_indicator_ok row st st' :
  insert_latest_indicator rejects row st = (st', inr tt) →
  ∃ kv, latest_entry row = Some kv ∧
    st' = set_working
            (with_latest (upsert LatestIndicators.on_duplicate kv.1 kv.2)
               (working (db st))) st.
Proof.
  unfold latest_entry. intros Hrow. run_M. eexists. split; [done|]. done.
Qed.

Lemma insert_yoy_change_ok yrow st st' :
  insert_yoy_change rejects yrow st = (st', inr tt) →
  if isna (yoy_change yrow) then st' = st
  else ∃ kv, yoy_entry yrow = Some kv ∧
    st' = set_working
            (with_yoy (upsert YoyChanges.on_duplicate kv.1 kv.2)
               (working (db st))) st.
Proof.
  unfold yoy_entry. intros Hrow. run_M; [done|]. eexists. split; [done|]. done.
Qed.

Lemma insert_committed row st st' r :
  (insert_economic_indicator rejects row st = (st', r) ∨
   insert_latest_indicator rejects row st = (st', r)) →
  committed (db st') = committed (db st).
Proof. intros [H|H]; by run_M. Qed.

Lemma insert_yoy_committed yrow st st' r :
  insert_yoy_change rejects yrow st = (st', r) →
  committed (db st') = committed (db st).
Proof. intros H; by run_M. Qed.
End LoaderFacts.

Lemma mapM_singletons {A B} (f : A → option B) (l : list A) (kvss : list (list B)) :
  mapM (λ x, (λ kv, [kv]) <$> f x) l = Some kvss → mapM f l = Some (concat kvss).
Proof.
  revert kvss. induction l as [|x l IH]; intros kvss; simpl.
  - by intros [= <-].
  - destruct (f x) as [kv|]; simpl; [|done].
    destruct (mapM _ l) as [kvss'|]; simpl; [|done].
    intros [= <-]. by rewrite (IH kvss').
Qed.

Lemma mapM_yoy_entries (l : list YoyRow) (kvss : list (list (YoyChanges.key * YoyChanges.t))) :
  mapM (λ y, if isna (yoy_change y) then Some [] else (λ kv, [kv]) <$> yoy_entry y) l
    = Some kvss →
  mapM yoy_entry (filter (λ y, isna (yoy_change y) = false) l) = Some (concat kvss).
Proof.
  revert kvss. induction l as [|y l IH]; intros kvss; simpl.
  - by intros [= <-].
  - rewrite filter_cons. destruct (isna (yoy_change y)) eqn:Hna; simpl.
    + destruct (mapM _ l) as [kvss'|]; simpl; [|done].
      intros [= <-]. simpl. by apply IH.
    + destruct (yoy_entry y) as [kv|]; simpl; [|done].
      destruct (mapM _ l) as [kvss'|]; simpl; [|done].
      intros [= <-]. simpl. by rewrite (IH kvss').
Qed.

Section LoaderRuns.
Variable rejects : request → Tables → bool.

Ltac step_M :=
  repeat first
    [ progress (unfold try_except_Error, bind, ret, raise, logging_info,
                  logging_error, connection_commit, connection_rollback,
                  cursor_execute, exec_stmt in *)
    | progress simplify_option_eq
    | case_match ].

Lemma load_main_data_ok df st st' :
  load_main_data rejects df st = (st', inr tt) →
  ∃ kvs, mapM main_entry df = Some kvs ∧
    db st' =
      let w := with_main (upsert_all EconomicIndicators.on_duplicate kvs)
                 (working (db st)) in
      mkDb w w.
Proof.
  unfold load_main_data, try_except_Error, bind at 1.
  destruct (for_each df _ st) as [st1 [e|[]]] eqn:Hloop.
  { intros ?. destruct e; step_M. }
  eapply (for_each_ok _ (λ row, (λ kv, [kv]) <$> main_entry row)
           (λ t kv, with_main (upsert EconomicIndicators.on_duplicate kv.1 kv.2) t))
    in Hloop as (kvss & Hkvss%mapM_singletons & ->).
  - intros Hrest. rewrite foldl_with_main in Hrest.
    exists (concat kvss). split; [done|]. by step_M.
  - intros row s s' (kv & -> & ->)%insert_economic_indicator_ok. by exists [kv].
Qed.

Lemma load_main_data_failed df st st' e :
  load_main_data rejects df st = (st', inl e) →
  committed (db st') = committed (db st) ∧
  (∀ msg, e = DbError msg → working (db st') = committed (db st)).
Proof.
  unfold load_main_data, try_except_Error, bind at 1.
  destruct (for_each df _ st) as [st1 r] eqn:Hloop.
  apply for_each_committed in Hloop; [|intros; eapply insert_committed; eauto].
  intros Hres. destruct r as [[]|[]]; step_M; split; try done; by intros ? [=].
Qed.

Lemma load_aggregations_ok summaries st st' :
  load_aggregations rejects summaries st = (st', inr tt) →
  ∃ latests yoys,
    mapM latest_entry (latest_values summaries) = Some latests ∧
    mapM yoy_entry (filter (λ y, isna (yoy_change y) = false) (yoy_changes summaries))
      = Some yoys ∧
    db st' =
      let w := with_yoy (upsert_all YoyChanges.on_duplicate yoys)
                 (with_latest (upsert_all LatestIndicators.on_duplicate latests)
                    (working (db st))) in
      mkDb w w.
Proof.
  unfold load_aggregations, try_except_Error, bind at 1.
  destruct (for_each (latest_values summaries) _ st) as [st1 [e|[]]] eqn:Hloop1.
  { intros ?. destruct e; step_M. }
  unfold bind at 1.
  destruct (for_each (yoy_changes summaries) _ st1) as [st2 [e|[]]] eqn:Hloop2.
  { intros ?. destruct e; step_M. }
  eapply (for_each_ok _ (λ row, (λ kv, [kv]) <$> latest_entry row)
           (λ t kv, with_latest (upsert LatestIndicators.on_duplicate kv.1 kv.2) t))
    in Hloop1 as (kvss1 & Hkvss1%mapM_singletons & ->).
  2:{ intros row s s' (kv & -> & ->)%insert_latest_indicator_ok. by exists [kv]. }
  eapply (for_each_ok _
           (λ y, if isna (yoy_change y) then Some [] else (λ kv, [kv]) <$> yoy_entry y)
           (λ t kv, with_yoy (upsert YoyChanges.on_duplicate kv.1 kv.2) t))
    in Hloop2 as (kvss2 & Hkvss2%mapM_yoy_entries & ->).
  2:{ intros y s s' Hy%insert_yoy_change_ok. destruct (isna (yoy_change y)).
      - exists []. split; [done|]. subst. simpl. by rewrite set_working_id.
      - destruct Hy as (kv & -> & ->). by exists [kv]. }
  intros Hrest. simpl in Hrest. rewrite foldl_with_latest, foldl_with_yoy in Hrest.
  exists (concat kvss1), (concat kvss2). split; [done|]. split; [done|]. by step_M.
Qed.

Lemma load_aggregations_failed summaries st st' e :
  load_aggregations rejects summaries st = (st', inl e) →
  committed (db st') = committed (db st) ∧
  (∀ msg, e = DbError msg → working (db st') = committed (db st)).
Proof.
  unfold load_aggregations, try_except_Error, bind at 1.
  destruct (for_each (latest_values summaries) _ st) as [st1 [e1|[]]] eqn:Hloop1.
  { apply for_each_committed in Hloop1; [|intros; eapply insert_committed; eauto].
    intros Hres. destruct e1; step_M; split; try done; by intros ? [=]. }
  unfold bind at 1.
  destruct (for_each (yoy_changes summaries) _ st1) as [st2 r] eqn:Hloop2.
  apply for_each_committed in Hloop1; [|intros; eapply insert_committed; eauto].
  apply for_each_committed in Hloop2; [|intros; by eapply insert_yoy_committed].
  intros Hres. destruct r as [[]|[]]; step_M; split; try congruence; by intros ? [=].
Qed.

Lemma create_country_summary_ok st st' :
  create_country_summary rejects st = (st', inr tt) →
  db st' =
    let w := mkTables (tbl_economic_indicators (working (db st)))
               (tbl_latest_indicators (working (db st)))
               (tbl_yoy_changes (working (db st)))
               (upsert_all CountrySummary.on_duplicate (summary_select (working (db st)))
                  (tbl_country_summary (working (db st)))) in
    mkDb w w.
Proof. unfold create_country_summary. intros H. by step_M. Qed.

Lemma create_country_summary_failed st st' e :
  create_country_summary rejects st = (st', inl e) →
  committed (db st') = committed (db st).
Proof. unfold create_country_summary. intros H. by step_M. Qed.


Lemma create_tables_ok st st' :
  create_tables rejects st = (st', inr tt) →
  db st' = mkDb (working (db st)) (working (db st)).
Proof. unfold create_tables. intros H. by step_M. Qed.

Lemma close_ok st st' r :
  close st = (st', r) →
  r = inr tt ∧ db st' = mkDb (committed (db st)) (committed (db st)).
Proof. unfold close. intros H. by step_M. Qed.
End LoaderRuns.

Section LoaderClaims.
Variable rejects : request → Tables → bool.

Lemma load_steps_ok df summaries st st' :
  load_steps rejects df summaries st = (st', inr tt) →
  ∃ mains latests yoys,
    mapM main_entry df = Some mains ∧
    mapM latest_entry (latest_values summaries) = Some latests ∧
    mapM yoy_entry (filter (λ y, isna (yoy_change y) = false) (yoy_changes summaries))
      = Some yoys ∧
    db st' =
      let w := apply_batch mains latests yoys (working (db st)) in mkDb w w.
Proof.
  unfold load_steps, bind.
  destruct (create_tables rejects st) as [st1 [e|[]]] eqn:H1; [done|].
  destruct (load_main_data rejects df st1) as [st2 [e|[]]] eqn:H2; [done|].
  destruct (load_aggregations rejects summaries st2) as [st3 [e|[]]] eqn:H3; [done|].
  destruct (create_country_summary rejects st3) as [st4 [e|[]]] eqn:H4; [done|].
  intros [_ Hdb]%close_ok.
  apply create_tables_ok in H1.
  apply load_main_data_ok in H2 as (mains & Hmains & H2).
  apply load_aggregations_ok in H3 as (latests & yoys & Hlatests & Hyoys & H3).
  apply create_country_summary_ok in H4.
  exists mains, latests, yoys. split; [done|]. split; [done|]. split; [done|].
  rewrite Hdb, H4, H3, H2, H1. by destruct (working (db st)).
Qed.
End LoaderClaims.

(** C1: loading a batch a second time leaves storage as the first load
    left it: whatever the tables held before, if the load steps of a frame
    and its aggregations succeed twice in a row, the four tables after the
    second load, committed and seen by the connection, equal those after
    the first; no row is added and no column changes. *)
Theorem load_steps_idempotent (rejects rejects' : request → Tables → bool)
    (df : list Row) (summaries : Summaries) (st st1 st2 : State) :
  load_steps rejects df summaries st = (st1, inr tt) →
  load_steps rejects' df summaries st1 = (st2, inr tt) →
  db st2 = db st1.
Proof.
  intros (mains & latests & yoys & Hm & Hl & Hy & H1)%load_steps_ok
         (mains' & latests' & yoys' & Hm' & Hl' & Hy' & H2)%load_steps_ok.
  simplify_eq. rewrite H2, H1. simpl. by rewrite apply_batch_idemp.
Qed.

(** C7: a load of the main table that meets a stored key keeps the stored
    country name, indicator name, decade, period and continent, and takes
    the value and the extraction time of the last row of the batch with that
    key (the stored ones when the batch has no such row). *)
Theorem load_main_data_on_conflict (rejects : request → Tables → bool) (df : list Row)
    (st st' : State) (k : EconomicIndicators.key) (old : EconomicIndicators.t) :
  load_main_data rejects df st = (st', inr tt) →
  tbl_economic_indicators (working (db st)) !! k = Some old →
  ∃ kvs, mapM main_entry df = Some kvs ∧
    let new := default old (last_for k kvs) in
    tbl_economic_indicators (committed (db st')) !! k =
      Some {| EconomicIndicators.country_name := EconomicIndicators.country_name old;
              EconomicIndicators.indicator_name := EconomicIndicators.indicator_name old;
              EconomicIndicators.value := EconomicIndicators.value new;
              EconomicIndicators.decade := EconomicIndicators.decade old;
              EconomicIndicators.period := EconomicIndicators.period old;
              EconomicIndicators.continent := EconomicIndicators.continent old;
              EconomicIndicators.extracted_at := EconomicIndicators.extracted_at new |}.
Proof.
  intros (kvs & Hkvs & Hdb)%load_main_data_ok Hold.
  exists kvs. split; [done|]. rewrite Hdb. simpl.
  rewrite lookup_upsert_all, Hold, upsert_at_stored by done.
  by destruct (last_for k kvs), old.
Qed.

(** The loads that roll back: when [load_main_data] or [load_aggregations]
    fails with a database error, the error comes back to the caller and the
    transaction is rolled back, so that the tables, committed and seen by
    the connection, are the committed ones of the start. This holds batch
    by batch: when the load of the main table has succeeded and the load of
    the aggregations then fails, the main table keeps what was loaded. *)
Theorem failed_load_rolled_back (rejects : request → Tables → bool) (df : list Row)
    (summaries : Summaries) (st st' : State) (msg : string) :
  (load_main_data rejects df st = (st', inl (DbError msg)) →
   db st' = mkDb (committed (db st)) (committed (db st))) ∧
  (load_aggregations rejects summaries st = (st', inl (DbError msg)) →
   db st' = mkDb (committed (db st)) (committed (db st))) ∧
  (∀ st1, load_main_data rejects df st = (st1, inr tt) →
     load_aggregations rejects summaries st1 = (st', inl (DbError msg)) →
     ∃ kvs, mapM main_entry df = Some kvs ∧
       committed (db st') =
         with_main (upsert_all EconomicIndicators.on_duplicate kvs) (working (db st))).
Proof.
  split; [|split].
  - intros [Hc Hw]%load_main_data_failed. specialize (Hw msg eq_refl).
    destruct (db st'). simpl in *. congruence.
  - intros [Hc Hw]%load_aggregations_failed. specialize (Hw msg eq_refl).
    destruct (db st'). simpl in *. congruence.
  - intros st1 (kvs & Hkvs & Hdb)%load_main_data_ok [Hc _]%load_aggregations_failed.
    exists kvs. split; [done|]. by rewrite Hc, Hdb.
Qed.

(** C8, the summary batch as the code runs it: [create_country_summary]
    calls no rollback. When its statement is accepted and its commit is
    refused, the error comes back to the caller, the committed tables are
    unchanged, and what the statement wrote to [country_summary] stays in
    the open transaction of the connection. *)
Theorem create_country_summary_keeps_pending (rejects : request → Tables → bool)
    (st : State) :
  rejects (Execute InsertSelectCountrySummary) (working (db st)) = false →
  rejects Commit (summarised (working (db st))) = true →
  create_country_summary rejects st =
    (mkState (mkDb (committed (db st)) (summarised (working (db st))))
       (log st ++ [ERROR "Error creating summary: commit refused"]),
     inl (DbError "commit refused")).
Proof.
  intros Hexec Hcommit.
  unfold create_country_summary, try_except_Error, bind, cursor_execute,
    connection_commit, logging_error, raise.
  rewrite Hexec. cbn [exec_stmt db working]. fold (summarised (working (db st))).
  by rewrite Hcommit.
Qed.

(** *** The loads on a small frame *)

(** Two loads of the frame of 2010, 2011, 2012 into storage that holds the
    row of 2010: both succeed, and the second changes nothing. *)
Lemma load_steps_idempotent_witness :
  let load := load_steps accepts_all df_100_110_121 (create_aggregations df_100_110_121) in
  let st1 := (load holds_2010).1 in
  let st2 := (load st1).1 in
  load holds_2010 = (st1, inr tt) ∧ load st1 = (st2, inr tt) ∧
  size (tbl_economic_indicators (committed (db st1))) = 3%nat ∧
  size (tbl_yoy_changes (committed (db st1))) = 2%nat ∧
  db st2 = db st1.
Proof.
  cbv zeta.
  split; [vm_compute; reflexivity|]. split; [vm_compute; reflexivity|].
  split; [vm_compute; reflexivity|]. split; [vm_compute; reflexivity|].
  apply (load_steps_idempotent accepts_all accepts_all df_100_110_121
           (create_aggregations df_100_110_121) holds_2010);
    vm_compute; reflexivity.
Defined.

(** The stored row of 2010 after the load: its names, decade, period and
    continent, with the value and extraction time of the batch. *)
Lemma load_main_data_on_conflict_witness :
  let st' := (load_main_data accepts_all df_100_110_121 holds_2010).1 in
  tbl_economic_indicators (committed (db st')) !! ("IND", "NY.GDP.MKTP.CD", 2010)
    = Some (EconomicIndicators.mk "Bharat" "Gross domestic product" (of_Z 100) 2000
              "old" None 0) ∧
  ∃ kvs, mapM main_entry df_100_110_121 = Some kvs ∧
    let new := default stored_2010 (last_for ("IND", "NY.GDP.MKTP.CD", 2010) kvs) in
    tbl_economic_indicators (committed (db st')) !! ("IND", "NY.GDP.MKTP.CD", 2010) =
      Some {| EconomicIndicators.country_name := "Bharat";
              EconomicIndicators.indicator_name := "Gross domestic product";
              EconomicIndicators.value := EconomicIndicators.value new;
              EconomicIndicators.decade := 2000;
              EconomicIndicators.period := "old";
              EconomicIndicators.continent := None;
              EconomicIndicators.extracted_at := EconomicIndicators.extracted_at new |}.
Proof.
  cbv zeta. split; [vm_compute; reflexivity|].
  apply (load_main_data_on_conflict accepts_all df_100_110_121 holds_2010
           (load_main_data accepts_all df_100_110_121 holds_2010).1
           ("IND", "NY.GDP.MKTP.CD", 2010) stored_2010);
    vm_compute; reflexivity.
Defined.

(** A refused row in the main load, and refused rows in the aggregation
    load after a main load that succeeded. *)
Example failed_load_rolled_back_cases :
  let summaries := create_aggregations df_100_110_121 in
  let failed := (load_main_data (refuses_year 2012) df_100_110_121 holds_2010).1 in
  let loaded := (load_main_data refuses_latest df_100_110_121 holds_2010).1 in
  let failed' := (load_aggregations refuses_latest summaries loaded).1 in
  (load_main_data (refuses_year 2012) df_100_110_121 holds_2010
     = (failed, inl (DbError "statement refused")) ∧
   db failed = db holds_2010) ∧
  (load_aggregations refuses_latest summaries loaded
     = (failed', inl (DbError "statement refused")) ∧
   size (tbl_economic_indicators (committed (db failed'))) = 3%nat ∧
   db failed' = db loaded).
Proof.
  cbv zeta. split; (split; [vm_compute; reflexivity|]).
  - vm_compute; reflexivity.
  - split; vm_compute; reflexivity.
Qed.

(** After a main load, with every commit refused: the summary batch fails
    and leaves the row of IND pending in the transaction, where the main
    load, failing the same way, leaves the tables as they were. *)
Lemma create_country_summary_keeps_pending_witness :
  let loaded := (load_main_data accepts_all df_100_110_121 holds_2010).1 in
  let failed := (create_country_summary refuses_commit loaded).1 in
  let rolled_back := (load_main_data refuses_commit df_100_110_121 holds_2010).1 in
  working (db loaded) = committed (db loaded) ∧
  create_country_summary refuses_commit loaded
    = (mkState (mkDb (committed (db loaded)) (summarised (working (db loaded))))
         (log loaded ++ [ERROR "Error creating summary: commit refused"]),
       inl (DbError "commit refused")) ∧
  tbl_country_summary (committed (db failed)) !! "IND" = None ∧
  tbl_country_summary (working (db failed)) !! "IND"
    = Some (CountrySummary.mk "India" 1 (of_Z 121) NaN NaN) ∧
  load_main_data refuses_commit df_100_110_121 holds_2010
    = (rolled_back, inl (DbError "commit refused")) ∧
  db rolled_back = db holds_2010.
Proof.
  cbv zeta. split; [vm_compute; reflexivity|]. split.
  - apply (create_country_summary_keeps_pending refuses_commit
             (load_main_data accepts_all df_100_110_121 holds_2010).1);
      vm_compute; reflexivity.
  - split; [vm_compute; reflexivity|]. split; [vm_compute; reflexivity|].
    split; vm_compute; reflexivity.
Defined.

(** ** run_etl_pipeline *)

(** C10: when [connect] does not connect, by an error it catches or by a
    connection that is not open, a run that extracted and transformed its
    records creates no table and loads nothing, leaves storage as it was,
    logs the run as completed and returns True. *)
Theorem connect_failure_still_succeeds (rejects : request → Tables → bool)
    (outcome : ConnectOutcome) (raw : list Raw.t) (df : list Row) (st : State) :
  outcome ≠ Connected → raw ≠ [] → transform raw = inr df →
  run_etl_pipeline rejects outcome raw st =
    (mkState (db st)
       (log st ++ log_until_load (length raw) (length df) ++
        log_not_connected outcome ++ log_completed (length df)),
     inr true).
Proof.
  intros Hout Hraw Ht.
  unfold run_etl_pipeline, try_except_Exception, bind, logging_info, logging_error.
  simpl. rewrite bool_decide_eq_false_2 by done. rewrite Ht.
  unfold connect, ret, bind, logging_error. 
  destruct outcome as [| |msg]; [done|..]; simpl;
    rewrite <- ?app_assoc; simpl; reflexivity.
Qed.

(** A run of three records against a server that refuses the connection. *)
Lemma connect_failure_still_succeeds_witness :
  run_etl_pipeline accepts_all (ConnectError "Access denied") values_100_110_121 holds_2010
    = (mkState (db holds_2010)
         (log_until_load 3 3 ++
          [ERROR "Error connecting to MySQL: Access denied"] ++ log_completed 3),
       inr true).
Proof.
  apply (connect_failure_still_succeeds accepts_all (ConnectError "Access denied")
           values_100_110_121 df_100_110_121 holds_2010); [done|done|reflexivity].
Defined.

(** C9, amended: when nothing was extracted, [run_etl_pipeline] logs the
    error and returns False without transforming, connecting or touching
    storage; the exit status of the script is 0 for every run, since
    [__main__] drops what [run_etl_pipeline] returns. *)
Theorem empty_extraction_halts_exit_0 (rejects : request → Tables → bool)
    (outcome : ConnectOutcome) (raw : list Raw.t) (st : State) :
  run_etl_pipeline rejects outcome [] st
    = (mkState (db st) (log st ++ log_no_data), inr false) ∧
  (main rejects outcome raw st).2 = 0.
Proof.
  split.
  - unfold run_etl_pipeline, try_except_Exception, bind, logging_info, logging_error.
    simpl. rewrite <- !app_assoc. reflexivity.
  - unfold main. by destruct (run_etl_pipeline rejects outcome raw st).
Qed.

(** C9 as stated fails: a run that extracted nothing ends with exit
    status 0. *)
Lemma empty_extraction_exit_status_0 :
  ¬ (∀ rejects outcome st, (main rejects outcome [] st).2 ≠ 0).
Proof.
  intros H. apply (H accepts_all Connected empty_state).
  unfold main. by destruct (run_etl_pipeline accepts_all Connected [] empty_state).
Qed.

(** ** round(2) *)

Lemma round2_special (v : fval) :
  (∃ s, Prim2SF v = S754_infinity s) ∨ (∃ s, Prim2SF v = S754_zero s) →
  round2 v = v.
Proof.
  intros Hv. apply Prim2SF_inj. unfold round2, rint, fdiv, fmul.
  change (of_Z 100) with 100%float. rewrite div_spec.
  change (Prim2SF 100%float) with (S754_finite false 7036874417766400 (-46)).
  rewrite mul_spec.
  change (Prim2SF 100%float) with (S754_finite false 7036874417766400 (-46)).
  destruct Hv as [[s ->]|[s ->]]; cbn [SF64mul SFmul SFrint];
    (rewrite Prim2SF_SF2Prim by done); cbn [SF64div SFdiv];
    by rewrite !xorb_false_r.
Qed.

(** X1: [round(2)], which is [rint(x * 100) / 100] in float64, keeps a null
    null and a value a value, and leaves the zeros and the infinities as
    they are; but it can take a finite value to an infinity, since the
    product can overflow (1e307), and its result is not always the hundredth
    nearest to the value: the float of 2.675 lies below 2.675 and goes to
    2.68, more than 0.005 away. *)
Theorem round2_float64 :
  (∀ v, isna (round2 v) = isna v) ∧
  (∀ v, is_infinity v = true → round2 v = v) ∧
  (∀ v, is_zero v = true → round2 v = v) ∧
  ¬ (∀ v, is_finite v = true → is_finite (round2 v) = true) ∧
  ¬ (∀ v, is_finite v = true → (abs (round2 v - v) <=? 0.005)%float = true) ∧
  round2 1e307%float = infinity ∧
  round2 2.675%float = 2.68%float.
Proof.
  split; [exact isna_round2|].
  split; [intros v Hv%is_infinity_spec; apply round2_special; by left|].
  split; [intros v Hv%is_zero_spec; apply round2_special; by right|].
  split; [intros H; specialize (H 1e307%float eq_refl); vm_compute in H; discriminate|].
  split; [intros H; specialize (H 2.675%float eq_refl); vm_compute in H; discriminate|].
  split; vm_compute; reflexivity.
Qed.

(** ** transform, beyond its keys *)

Lemma drop_duplicates_from_sublist seen df :
  drop_duplicates_from seen df `sublist_of` df.
Proof.
  revert seen. induction df as [|r df IH]; intros seen; simpl; [constructor|].
  destruct (decide (raw_key r ∈ seen)).
  - by apply sublist_cons.
  - by apply sublist_skip.
Qed.

Lemma drop_duplicates_from_id seen df :
  NoDup (raw_key <$> df) → (∀ r, r ∈ df → raw_key r ∉ seen) →
  drop_duplicates_from seen df = df.
Proof.
  revert seen. induction df as [|r df IH]; intros seen; simpl; [done|].
  rewrite NoDup_cons. intros [Hr Hdf] Hseen.
  rewrite decide_False by (apply Hseen; by left).
  f_equal. apply IH; [done|]. intros r' Hr'. rewrite not_elem_of_cons. split.
  - intros Heq. apply Hr. rewrite <- Heq. apply list_elem_of_fmap. eauto.
  - apply Hseen. by right.
Qed.

Lemma filter_all {A} (P : A → Prop) `{!∀ x, Decision (P x)} (l : list A) :
  (∀ x, x ∈ l → P x) → filter P l = l.
Proof.
  induction l as [|x l IH]; [done|]. intros HP.
  rewrite filter_cons, decide_True by (apply HP; by left).
  f_equal. apply IH. intros y Hy. apply HP. by right.
Qed.

Lemma transform_rows raw df :
  transform raw = inr df →
  ∀ r, r ∈ df ↔ ∃ r0, kept raw r0 ∧ ¬ violates_checks r0 ∧ r = add_derived r0.
Proof.
  intros Ht r. rewrite (elem_of_transform raw df r Ht).
  destruct (transform_cases raw) as [[_ Hok]|(msg & r1 & Heq & _)]; [|congruence].
  split.
  - intros (r0 & Hr0 & ->). eauto.
  - intros (r0 & Hr0 & _ & ->). eauto.
Qed.

Lemma period_of_None (y : Z) : period_of (Some y) = None ↔ y < 2000 ∨ 2025 < y.
Proof.
  unfold period_of, pd_cut, searchsorted_left, period_bins, period_labels.
  cbn [filter list_filter head andb].
  destruct (decide (y = 2000)) as [->|Hne]; [split; [done|lia]|].
  rewrite (bool_decide_eq_false_2 (Some y = Some 2000)) by congruence.
  repeat case_decide; simpl; split; first [discriminate | lia | done | intros _; lia].
Qed.

(** X2: [transform] returns the rows of its input that it keeps, in the
    order of the input, each with its derived columns; when the input has
    no key twice and no null value, it returns a row for every row. *)
Theorem transform_keeps_order (raw : list Raw.t) (df : list Row) :
  transform raw = inr df →
  ∃ rows, rows `sublist_of` raw ∧ df = add_derived <$> rows ∧
    (length df ≤ length raw)%nat ∧
    (NoDup (raw_key <$> raw) → (∀ r, r ∈ raw → isna (Raw.value r) = false) →
     rows = raw).
Proof.
  intros ->%transform_inr. exists (dropna_value (drop_duplicates raw)).
  assert (dropna_value (drop_duplicates raw) `sublist_of` raw) as Hsub.
  { unfold dropna_value, drop_duplicates.
    etrans; [apply sublist_filter|apply drop_duplicates_from_sublist]. }
  split; [done|]. split; [done|]. split.
  - rewrite length_fmap. by apply sublist_length.
  - intros Hnodup Hval. unfold drop_duplicates.
    rewrite drop_duplicates_from_id; [|done|intros; apply not_elem_of_nil].
    by apply filter_all.
Qed.

(** On the frame with a duplicated key: two of the three rows are kept. *)
Lemma transform_keeps_order_witness :
  let df := add_derived <$> delete 1%nat dup_rows in
  length df = 2%nat ∧
  ∃ rows, rows `sublist_of` dup_rows ∧ df = add_derived <$> rows ∧
    (length df ≤ length dup_rows)%nat ∧
    (NoDup (raw_key <$> dup_rows) →
     (∀ r, r ∈ dup_rows → isna (Raw.value r) = false) → rows = dup_rows).
Proof.
  cbv zeta. split; [reflexivity|].
  apply (transform_keeps_order dup_rows (add_derived <$> delete 1%nat dup_rows)).
  reflexivity.
Defined.

(** X3: what every row returned by [transform] satisfies: its country code
    and its year are not null, the year is 2000 or later, the decade is the
    multiple of ten at or below the year (so 2000 or later too), the period
    is missing exactly for the years after 2025, the continent is the one of
    the map, and the value is not null. *)
Theorem transform_postcondition (raw : list Raw.t) (df : list Row) (r : Row) :
  transform raw = inr df → r ∈ df →
  ∃ c y d,
    country_code r = Some c ∧ year r = Some y ∧ decade r = Some d ∧
    2000 ≤ y ∧ d mod 10 = 0 ∧ 2000 ≤ d ≤ y ∧ y ≤ d + 9 ∧
    (period r = None ↔ 2025 < y) ∧
    continent r = continent_map c ∧ isna (value r) = false.
Proof.
  intros Ht Hr. apply (transform_rows raw df Ht) in Hr as (r0 & [_ Hval] & Hok & ->).
  unfold violates_checks in Hok.
  destruct (Raw.country_code r0) as [c|] eqn:Hc; [|by destruct Hok; left].
  destruct (Raw.year r0) as [y|] eqn:Hy; [|by destruct Hok; right; left].
  assert (2000 ≤ y) as Hge.
  { destruct (decide (2000 ≤ y)); [done|]. destruct Hok. right; right. exists y. split; [done|lia]. }
  exists c, y, (y / 10 * 10).
  unfold add_derived. cbn [country_code year decade period continent value].
  rewrite Hc, Hy.
  split; [done|]. split; [done|]. split; [done|]. split; [done|].
  split; [by rewrite Z.mod_mul|].
  pose proof (Z.div_mod y 10 ltac:(lia)) as Hdm.
  pose proof (Z.mod_pos_bound y 10 ltac:(lia)) as Hmod.
  split; [lia|]. split; [lia|]. split.
  - rewrite period_of_None. lia.
  - split; [done|]. by apply round2_notna.
Qed.

(** A row of 2026: it passes the checks and has no period. *)
Lemma transform_postcondition_witness :
  let r := add_derived (zero_in 2026) in
  transform [zero_in 2026] = inr [r] ∧ period r = None ∧
  ∃ c y d,
    country_code r = Some c ∧ year r = Some y ∧ decade r = Some d ∧
    2000 ≤ y ∧ d mod 10 = 0 ∧ 2000 ≤ d ≤ y ∧ y ≤ d + 9 ∧
    (period r = None ↔ 2025 < y) ∧
    continent r = continent_map c ∧ isna (value r) = false.
Proof.
  cbv zeta. split; [reflexivity|]. split; [reflexivity|].
  apply (transform_postcondition [zero_in 2026] [add_derived (zero_in 2026)]);
    [reflexivity|constructor].
Defined.

(** ** The decade averages *)

Global Instance le_decade_key_total : Total le_decade_key.
Proof. unfold le_decade_key. apply _. Qed.

Global Instance le_decade_key_trans : Transitive le_decade_key.
Proof. unfold le_decade_key. apply _. Qed.

Lemma elem_of_decade_keys df k :
  k ∈ decade_keys df ↔ ∃ r, r ∈ df ∧ decade_key r = Some k.
Proof.
  unfold decade_keys. rewrite merge_sort_Permutation, elem_of_remove_dups.
  by rewrite list_elem_of_omap.
Qed.

Lemma NoDup_decade_keys df : NoDup (decade_keys df).
Proof.
  unfold decade_keys. rewrite merge_sort_Permutation. apply NoDup_remove_dups.
Qed.

Lemma fst_decade_averages_of mean df :
  (decade_averages_of mean df).*1 = decade_keys df.
Proof.
  unfold decade_averages_of. rewrite <- list_fmap_compose.
  induction (decade_keys df) as [|k ks IH]; [done|]. simpl. by f_equal.
Qed.

Lemma transform_decade_key raw df r :
  transform raw = inr df → r ∈ df → is_Some (decade_key r).
Proof.
  intros Ht Hr. apply (transform_rows raw df Ht) in Hr as (r0 & _ & Hok & ->).
  unfold violates_checks in Hok. unfold decade_key, add_derived.
  cbn [country_code decade indicator_code].
  destruct (Raw.country_code r0); [|by destruct Hok; left].
  destruct (Raw.year r0); [|by destruct Hok; right; left].
  by eexists.
Qed.

(** X4: the decade averages of a frame returned by [transform]: one row for
    each (country, indicator, decade) that has a row in the frame, in
    ascending key order; every row of the frame is in a group; and the
    average of a group is the mean of the values of the rows of the frame
    with that key, in the order of the frame, none of them null. *)
Theorem decade_averages_spec (mean : list fval → fval) (raw : list Raw.t)
    (df : list Row) :
  transform raw = inr df →
  let avgs := decade_averages_of mean df in
  (∀ r, r ∈ df → ∃ k, decade_key r = Some k ∧ k ∈ avgs.*1) ∧
  (∀ k, k ∈ avgs.*1 ↔ ∃ r, r ∈ df ∧ decade_key r = Some k) ∧
  NoDup avgs.*1 ∧
  StronglySorted le_decade_key avgs.*1 ∧
  (∀ k m, (k, m) ∈ avgs →
     ∃ rows, rows ≠ [] ∧ rows `sublist_of` df ∧
       (∀ r, r ∈ rows ↔ r ∈ df ∧ decade_key r = Some k) ∧
       Forall (λ r, isna (value r) = false) rows ∧
       m = mean (value <$> rows)).
Proof.
  intros Ht avgs. unfold avgs. rewrite fst_decade_averages_of.
  split; [|split; [|split; [|split]]].
  - intros r Hr.
    destruct (transform_decade_key raw df r Ht Hr) as [k Hk].
    exists k. split; [done|]. apply elem_of_decade_keys. eauto.
  - apply elem_of_decade_keys.
  - apply NoDup_decade_keys.
  - apply StronglySorted_merge_sort; apply _.
  - intros k m (k' & [= <- ->] & Hk)%list_elem_of_fmap.
    exists (filter (in_decade k) df).
    assert (∀ r, r ∈ filter (in_decade k) df ↔ r ∈ df ∧ decade_key r = Some k) as Hin.
    { intros r. rewrite list_elem_of_filter. unfold in_decade. tauto. }
    split; [|split; [apply sublist_filter|split; [exact Hin|split; [|done]]]].
    + apply elem_of_decade_keys in Hk as (r & Hr & Hkey).
      intros Hnil. assert (r ∈ filter (in_decade k) df) as Hr' by (by apply Hin).
      rewrite Hnil in Hr'. by apply elem_of_nil in Hr'.
    + apply Forall_forall. intros r [Hr _]%Hin.
      by apply (transform_enriched raw df Ht).
Qed.

(** The years 2015, 2020 and 2018 of one indicator: two decades, the mean
    of 15 and 18 in the first. *)
Lemma decade_averages_spec_witness :
  let df := add_derived <$> years_2015_2020_2018 in
  decade_averages_of mean_left_to_right df
    = [ (("IND", "SP.POP.TOTL", 2010), 16.5%float);
        (("IND", "SP.POP.TOTL", 2020), of_Z 20) ] ∧
  NoDup (decade_averages_of mean_left_to_right df).*1 ∧
  StronglySorted le_decade_key (decade_averages_of mean_left_to_right df).*1.
Proof.
  cbv zeta. split; [vm_compute; reflexivity|].
  assert (transform years_2015_2020_2018 = inr (add_derived <$> years_2015_2020_2018))
    as Ht by reflexivity.
  destruct (decade_averages_spec mean_left_to_right years_2015_2020_2018
              (add_derived <$> years_2015_2020_2018) Ht) as (_ & _ & Hn & Hs & _).
  by split.
Defined.

(** ** What the loader keeps *)

Section Preserves.
Context (I : State → Prop).

Lemma preserves_ret {A} (a : A) : preserves I (ret a).
Proof. intros st st' r HI [= <- _]. done. Qed.

Lemma preserves_raise {A} (e : exn) : preserves I (raise (A:=A) e).
Proof. intros st st' r HI [= <- _]. done. Qed.

Lemma preserves_bind {A B} (m : M A) (k : A → M B) :
  preserves I m → (∀ a, preserves I (k a)) → preserves I (bind m k).
Proof.
  intros Hm Hk st st' r HI. unfold bind.
  destruct (m st) as [st1 [e|a]] eqn:Hst.
  - intros [= <- _]. by eapply Hm.
  - intros Hka. eapply Hk; [|done]. by eapply Hm.
Qed.

Lemma preserves_try_except_Error {A} (body : M A) (handler : string → M A) :
  preserves I body → (∀ msg, preserves I (handler msg)) →
  preserves I (try_except_Error body handler).
Proof.
  intros Hm Hk st st' r HI. unfold try_except_Error.
  destruct (body st) as [st1 [[]|a]] eqn:Hst.
  1,2,4: intros [= <- _]; by eapply Hm.
  intros Hh. eapply Hk; [|done]. by eapply Hm.
Qed.

Lemma preserves_for_each {A} (l : list A) (body : A → M unit) :
  (∀ x, preserves I (body x)) → preserves I (for_each l body).
Proof.
  intros Hbody. induction l as [|x l IH]; simpl.
  - apply preserves_ret.
  - apply preserves_bind; [done|]. by intros _.
Qed.

Lemma preserves_py_int (x : option Z) : preserves I (py_int x).
Proof. destruct x; [apply preserves_ret|apply preserves_raise]. Qed.
End Preserves.

Section Both.
Context (J : Tables → Prop) (rejects : request → Tables → bool).

Lemma both_logging_info msg : preserves (both J) (logging_info msg).
Proof. intros st st' r HI [= <- _]. done. Qed.

Lemma both_logging_error msg : preserves (both J) (logging_error msg).
Proof. intros st st' r HI [= <- _]. done. Qed.

Lemma both_commit : preserves (both J) (connection_commit rejects).
Proof.
  intros st st' r [Hc Hw]. unfold connection_commit.
  destruct (rejects _ _); intros [= <- _]; by split.
Qed.

Lemma both_rollback : preserves (both J) connection_rollback.
Proof. intros st st' r [Hc Hw] [= <- _]. by split. Qed.

Lemma both_execute s :
  (∀ t t', J t → exec_stmt s t = Some t' → J t') →
  preserves (both J) (cursor_execute rejects s).
Proof.
  intros Hs st st' r [Hc Hw]. unfold cursor_execute.
  destruct (rejects _ _); [by intros [= <- _]|].
  destruct (exec_stmt s (working (db st))) as [w|] eqn:Hexec; intros [= <- _]; [|done].
  split; [done|]. simpl. by eapply Hs.
Qed.
End Both.

Ltac keep_both :=
  repeat first
    [ apply preserves_bind; [|intro]
    | apply preserves_try_except_Error; [|intro]
    | apply preserves_for_each; intro
    | apply preserves_ret | apply preserves_raise
    | apply preserves_py_int | apply both_logging_info | apply both_logging_error
    | apply both_commit | apply both_rollback ].

Section LoaderKeeps.
Context (J : Tables → Prop) (rejects : request → Tables → bool).

Lemma create_tables_keeps : preserves (both J) (create_tables rejects).
Proof.
  unfold create_tables. keep_both; apply both_execute; by intros t t' ? [= <-].
Qed.

Lemma close_keeps : preserves (both J) close.
Proof. unfold close. keep_both. Qed.

Lemma load_main_data_keeps df :
  (∀ cc cn ic iname y v d p c x t t',
     J t → exec_stmt (InsertEconomicIndicator cc cn ic iname y v d p c x) t = Some t' →
     J t') →
  preserves (both J) (load_main_data rejects df).
Proof.
  intros HJ. unfold load_main_data, insert_economic_indicator.
  keep_both. apply both_execute. apply HJ.
Qed.

Lemma load_aggregations_keeps summaries :
  (∀ cc ic y v t t',
     J t → exec_stmt (InsertLatestIndicator cc ic y v) t = Some t' → J t') →
  (∀ cc ic y v c t t',
     J t → exec_stmt (InsertYoyChange cc ic y v c) t = Some t' → J t') →
  preserves (both J) (load_aggregations rejects summaries).
Proof.
  intros HJ1 HJ2. unfold load_aggregations, insert_latest_indicator, insert_yoy_change.
  keep_both.
  - apply both_execute. apply HJ1.
  - case_match; keep_both. apply both_execute. apply HJ2.
Qed.

Lemma create_country_summary_keeps :
  (∀ t t', J t → exec_stmt InsertSelectCountrySummary t = Some t' → J t') →
  preserves (both J) (create_country_summary rejects).
Proof.
  intros HJ. unfold create_country_summary. keep_both. by apply both_execute.
Qed.
End LoaderKeeps.

Lemma load_steps_keeps (J : Tables → Prop) rejects df summaries :
  (∀ s t t', J t → exec_stmt s t = Some t' → J t') →
  preserves (both J) (load_steps rejects df summaries).
Proof.
  intros HJ. unfold load_steps.
  apply preserves_bind; [apply create_tables_keeps|intros _].
  apply preserves_bind; [apply load_main_data_keeps; intros; by eapply HJ|intros _].
  apply preserves_bind; [apply load_aggregations_keeps; intros; by eapply HJ|intros _].
  apply preserves_bind; [apply create_country_summary_keeps; intros; by eapply HJ|intros _].
  apply close_keeps.
Qed.

Lemma upsert_at_is_Some `{EqDecision K} {V} (f : V → V → V) (k : K) o kv :
  is_Some o → is_Some (upsert_at f k o kv).
Proof. unfold upsert_at. intros Ho. by destruct (decide (kv.1 = k)). Qed.

Lemma upsert_is_Some `{Countable K} {V} (f : V → V → V) (k k' : K) v (m : gmap K V) :
  is_Some (m !! k) → is_Some (upsert f k' v m !! k).
Proof. rewrite lookup_upsert. apply upsert_at_is_Some. Qed.

Lemma upsert_all_is_Some `{Countable K} {V} (f : V → V → V) (k : K)
    (kvs : list (K * V)) (m : gmap K V) :
  is_Some (m !! k) → is_Some (upsert_all f kvs m !! k).
Proof.
  rewrite lookup_upsert_all. generalize (m !! k).
  induction kvs as [|kv kvs IH]; intros o Ho; simpl; [done|].
  by apply IH, upsert_at_is_Some.
Qed.

Lemma keeps_rows_refl t : keeps_rows t t.
Proof. by repeat split. Qed.

Lemma keeps_rows_trans t1 t2 t3 : keeps_rows t1 t2 → keeps_rows t2 t3 → keeps_rows t1 t3.
Proof.
  intros (H1 & H2 & H3 & H4) (H1' & H2' & H3' & H4').
  split; [|split; [|split]]; intros k Hk; auto.
Qed.

Lemma exec_stmt_keeps_rows s t t' : exec_stmt s t = Some t' → keeps_rows t t'.
Proof.
  destruct s as [tbl|[cc|] ? ? ? ? ? ? ? ? ?|[cc|] ? ? ?|[cc|] ? ? ? ?|];
    simpl; intros [= <-]; try apply keeps_rows_refl.
  all: split; [|split; [|split]]; simpl; intros k Hk; try done.
  - by apply upsert_is_Some.
  - by apply upsert_is_Some.
  - by apply upsert_is_Some.
  - by apply upsert_all_is_Some.
Qed.

(** X5: each step of the loader writes to its own tables only. Started
    with nothing pending, and however it ends: [create_tables] leaves every
    table as it was; [load_main_data] leaves the latest view, the yearly
    changes and the country summary; [load_aggregations] leaves the main
    table and the country summary; [create_country_summary] leaves the main
    table, the latest view and the yearly changes. *)
Theorem loader_writes_own_tables (rejects : request → Tables → bool) (df : list Row)
    (summaries : Summaries) (st st' : State) (r : exn + unit) :
  working (db st) = committed (db st) →
  (create_tables rejects st = (st', r) → unchanged id st st') ∧
  (load_main_data rejects df st = (st', r) →
   unchanged tbl_latest_indicators st st' ∧ unchanged tbl_yoy_changes st st' ∧
   unchanged tbl_country_summary st st') ∧
  (load_aggregations rejects summaries st = (st', r) →
   unchanged tbl_economic_indicators st st' ∧ unchanged tbl_country_summary st st') ∧
  (create_country_summary rejects st = (st', r) →
   unchanged tbl_economic_indicators st st' ∧ unchanged tbl_latest_indicators st st' ∧
   unchanged tbl_yoy_changes st st').
Proof.
  intros Hclean. set (c0 := committed (db st)).
  split; [|split; [|split]].
  - intros Hrun.
    apply (create_tables_keeps (λ t, t = c0) rejects st st' r) in Hrun as [Hc Hw];
      [done|by split].
  - intros Hrun.
    apply (load_main_data_keeps
             (λ t, tbl_latest_indicators t = tbl_latest_indicators c0 ∧
                   tbl_yoy_changes t = tbl_yoy_changes c0 ∧
                   tbl_country_summary t = tbl_country_summary c0)
             rejects df) in Hrun as [(? & ? & ?) (? & ? & ?)].
    + by repeat split.
    + intros [cc|] ? ? ? ? ? ? ? ? ? t t' ?; simpl; by intros [= <-].
    + split; by rewrite ?Hclean.
  - intros Hrun.
    apply (load_aggregations_keeps
             (λ t, tbl_economic_indicators t = tbl_economic_indicators c0 ∧
                   tbl_country_summary t = tbl_country_summary c0)
             rejects summaries) in Hrun as [(? & ?) (? & ?)].
    + by repeat split.
    + intros [cc|] ? ? ? t t' ?; simpl; by intros [= <-].
    + intros [cc|] ? ? ? ? t t' ?; simpl; by intros [= <-].
    + split; by rewrite ?Hclean.
  - intros Hrun.
    apply (create_country_summary_keeps
             (λ t, tbl_economic_indicators t = tbl_economic_indicators c0 ∧
                   tbl_latest_indicators t = tbl_latest_indicators c0 ∧
                   tbl_yoy_changes t = tbl_yoy_changes c0)
             rejects) in Hrun as [(? & ? & ?) (? & ? & ?)].
    + by repeat split.
    + intros t t' ?; simpl; by intros [= <-].
    + split; by rewrite ?Hclean.
Qed.

(** X6: the loader deletes nothing. Started with nothing pending, and
    however the load steps end, every key stored in one of the four tables
    before them is stored in that table after them, in the committed tables
    and in those the connection sees. *)
Theorem load_never_deletes (rejects : request → Tables → bool) (df : list Row)
    (summaries : Summaries) (st st' : State) (r : exn + unit) :
  working (db st) = committed (db st) →
  load_steps rejects df summaries st = (st', r) →
  keeps_rows (committed (db st)) (committed (db st')) ∧
  keeps_rows (committed (db st)) (working (db st')).
Proof.
  intros Hclean Hrun.
  apply (load_steps_keeps (keeps_rows (committed (db st))) rejects df summaries
           ltac:(intros s t t' ? ?%exec_stmt_keeps_rows; by eapply keeps_rows_trans)
           st st' r); [|done].
  split; [|rewrite Hclean]; apply keeps_rows_refl.
Qed.

(** The main load of three rows into storage that holds one of them: the
    main table has three rows afterwards, the other tables are as before. *)
Lemma loader_writes_own_tables_witness :
  let st' := (load_main_data accepts_all df_100_110_121 holds_2010).1 in
  size (tbl_economic_indicators (committed (db st'))) = 3%nat ∧
  unchanged tbl_latest_indicators holds_2010 st' ∧
  unchanged tbl_yoy_changes holds_2010 st' ∧
  unchanged tbl_country_summary holds_2010 st'.
Proof.
  cbv zeta. split; [vm_compute; reflexivity|].
  assert (working (db holds_2010) = committed (db holds_2010)) as Hclean
    by (vm_compute; reflexivity).
  destruct (loader_writes_own_tables accepts_all df_100_110_121
              (create_aggregations df_100_110_121) holds_2010
              (load_main_data accepts_all df_100_110_121 holds_2010).1 (inr tt) Hclean)
    as (_ & Hmain & _).
  apply Hmain. vm_compute; reflexivity.
Defined.

(** Load steps that fail in the aggregations, on storage that holds the
    row of 2010: the row is still stored. *)
Lemma load_never_deletes_witness :
  let summaries := create_aggregations df_100_110_121 in
  let st' := (load_steps refuses_latest df_100_110_121 summaries holds_2010).1 in
  load_steps refuses_latest df_100_110_121 summaries holds_2010
    = (st', inl (DbError "statement refused")) ∧
  is_Some (tbl_economic_indicators (committed (db st')) !! ("IND", "NY.GDP.MKTP.CD", 2010)) ∧
  keeps_rows (committed (db holds_2010)) (committed (db st')) ∧
  keeps_rows (committed (db holds_2010)) (working (db st')).
Proof.
  cbv zeta. split; [vm_compute; reflexivity|]. split; [vm_compute; eauto|].
  apply (load_never_deletes refuses_latest df_100_110_121
           (create_aggregations df_100_110_121) holds_2010
           (load_steps refuses_latest df_100_110_121
              (create_aggregations df_100_110_121) holds_2010).1
           (inl (DbError "statement refused")));
    vm_compute; reflexivity.
Defined.

(** ** What a load stores *)

Section upsert_batches.
Context `{Countable K} {V : Type} (on_duplicate : V → V → V).
Implicit Types (k : K) (v : V) (o : option V) (kvs : list (K * V)).

Lemma last_for_None k kvs : k ∉ kvs.*1 → last_for k kvs = None.
Proof.
  unfold last_for. induction kvs as [|[k' v] kvs IH]; [done|].
  rewrite fmap_cons, not_elem_of_cons. intros [Hne Hk].
  rewrite filter_cons, decide_False by (simpl in *; congruence). by apply IH.
Qed.

(** A batch without two rows of the same key writes, under a key it has,
    the row of that key: as it is when the key is new, through the ON
    DUPLICATE KEY UPDATE clause when the key is stored. *)
Lemma upsert_at_once k v kvs o :
  NoDup kvs.*1 → (k, v) ∈ kvs →
  foldl (upsert_at on_duplicate k) o kvs =
    Some (match o with Some old => on_duplicate old v | None => v end).
Proof.
  revert o. induction kvs as [|[k' v'] kvs IH]; intros o; simpl.
  - by intros _ ?%elem_of_nil.
  - rewrite NoDup_cons. intros [Hk' Hnodup] [[= -> ->]|Hin]%elem_of_cons.
    + rewrite upsert_at_untouched by by apply last_for_None.
      unfold upsert_at. simpl. by rewrite decide_True.
    + unfold upsert_at at 2. simpl. rewrite decide_False; [by apply IH|].
      intros ->. apply Hk'. apply list_elem_of_fmap. by exists (k, v).
Qed.
End upsert_batches.

Lemma main_entry_key row kv :
  main_entry row = Some kv → row_key row = (Some kv.1.1.1, kv.1.1.2, Some kv.1.2).
Proof.
  unfold main_entry, row_key. intros Hkv.
  destruct (country_code row), (year row), (decade row); simplify_eq/=. done.
Qed.

Lemma mapM_entries_NoDup {A K V} `{EqDecision K'} (entry : A → option (K * V))
    (key : A → K') (embed : K → K') (df : list A) (kvs : list (K * V)) :
  (∀ x kv, entry x = Some kv → key x = embed kv.1) →
  (∀ k1 k2, embed k1 = embed k2 → k1 = k2) →
  mapM entry df = Some kvs → NoDup (key <$> df) → NoDup kvs.*1.
Proof.
  intros Hkey Hinj. revert kvs. induction df as [|x df IH]; intros kvs; simpl.
  - intros [= <-] _. constructor.
  - destruct (entry x) as [kv|] eqn:Hx; simpl; [|done].
    destruct (mapM entry df) as [kvs'|] eqn:Hdf; simpl; [|done].
    intros [= <-]. rewrite NoDup_cons. intros [Hnotin Hnodup]. simpl.
    constructor; [|by apply IH].
    intros (kv' & Heq & Hin)%list_elem_of_fmap. apply Hnotin.
    apply list_elem_of_fmap.
    apply mapM_Some_1 in Hdf.
    apply list_elem_of_lookup in Hin as [i Hi].
    destruct (Forall2_lookup_r _ _ _ _ _ Hdf Hi) as (x' & Hx' & Hentry).
    exists x'. split; [|by eapply list_elem_of_lookup_2].
    rewrite (Hkey x kv Hx), (Hkey x' kv' Hentry). by rewrite Heq.
Qed.

Lemma mapM_entries_elem {A B} (entry : A → option B) (df : list A) (kvs : list B) x :
  mapM entry df = Some kvs → x ∈ df → ∃ kv, entry x = Some kv ∧ kv ∈ kvs.
Proof.
  intros Hdf%mapM_Some_1 [i Hi]%list_elem_of_lookup.
  destruct (Forall2_lookup_l _ _ _ _ _ Hdf Hi) as (kv & Hkv & Hentry).
  exists kv. split; [done|]. by eapply list_elem_of_lookup_2.
Qed.

(** X7: a row of a frame returned by [transform] whose key is not stored
    yet is stored by [load_main_data] with all its columns. Its period is
    the label of the row, and the text "nan" when the row has none, which is
    the case of the years after 2025. *)
Theorem load_main_data_inserts (rejects : request → Tables → bool) (raw : list Raw.t)
    (df : list Row) (st st' : State) (r : Row) (c : string) (y : Z) :
  transform raw = inr df → r ∈ df →
  country_code r = Some c → year r = Some y →
  load_main_data rejects df st = (st', inr tt) →
  tbl_economic_indicators (working (db st)) !! (c, indicator_code r, y) = None →
  ∃ p,
    tbl_economic_indicators (committed (db st')) !! (c, indicator_code r, y) =
      Some (EconomicIndicators.mk (country_name r) (indicator_name r) (value r)
              (y / 10 * 10) p (continent r) (extracted_at r)) ∧
    if decide (2025 < y) then p = "nan" else period r = Some p.
Proof.
  intros Ht Hr Hc Hy (kvs & Hkvs & Hdb)%load_main_data_ok Hnew.
  destruct (mapM_entries_elem _ _ _ r Hkvs Hr) as (kv & Hkv & Hin).
  assert (NoDup kvs.*1) as Hnodup.
  { eapply (mapM_entries_NoDup main_entry row_key
              (λ k : EconomicIndicators.key, (Some k.1.1, k.1.2, Some k.2))); [..|done|].
    - intros x kv' Hx. by apply main_entry_key.
    - intros [[] ?] [[] ?] [=]. by simplify_eq/=.
    - by eapply transform_NoDup. }
  assert (decade r = Some (y / 10 * 10) ∧ period r = period_of (Some y) ∧ 2000 ≤ y)
    as (Hd & Hp & Hge).
  { pose proof (transform_rows raw df Ht r) as [(r0 & _ & Hok & ->) _]; [done|].
    unfold add_derived in *. cbn [year decade period] in *. rewrite Hy.
    split; [done|]. split; [done|].
    destruct (decide (2000 ≤ y)); [done|]. destruct Hok. right; right.
    exists y. split; [done|lia]. }
  unfold main_entry in Hkv. rewrite Hc, Hy, Hd in Hkv. simpl in Hkv. simplify_eq.
  exists (py_str (period r)). split.
  - rewrite Hdb. cbn [committed with_main tbl_economic_indicators].
    rewrite lookup_upsert_all.
    etrans; [exact (f_equal (λ o, foldl (upsert_at _ _) o kvs) Hnew)|].
    by rewrite (upsert_at_once _ _ _ _ _ Hnodup Hin).
  - rewrite Hp. destruct (period_of (Some y)) as [p|] eqn:Hper.
    + rewrite decide_False; [done|].
      intros Hlate. assert (period_of (Some y) = None) as Hnone
        by (apply period_of_None; lia). congruence.
    + apply period_of_None in Hper as [Hlt|Hgt]; [lia|].
      by rewrite decide_True.
Qed.

(** A row of 2026, loaded into empty tables: its period is stored as the
    text "nan". *)
Lemma load_main_data_inserts_witness :
  let r := add_derived (zero_in 2026) in
  let st' := (load_main_data accepts_all [r] empty_state).1 in
  ∃ p,
    tbl_economic_indicators (committed (db st')) !! ("JPN", indicator_code r, 2026) =
      Some (EconomicIndicators.mk (country_name r) (indicator_name r) (value r)
              (2026 / 10 * 10) p (continent r) (extracted_at r)) ∧
    if decide (2025 < 2026) then p = "nan" else period r = Some p.
Proof.
  cbv zeta.
  apply (load_main_data_inserts accepts_all [zero_in 2026] [add_derived (zero_in 2026)]
           empty_state (load_main_data accepts_all [add_derived (zero_in 2026)] empty_state).1
           (add_derived (zero_in 2026)) "JPN" 2026);
    [reflexivity|constructor|reflexivity|reflexivity|vm_compute; reflexivity
    |vm_compute; reflexivity].
Defined.

Lemma latest_entry_key row kv : latest_entry row = Some kv → group_key row = Some kv.1.
Proof.
  unfold latest_entry, group_key. intros Hkv.
  destruct (country_code row), (year row); simplify_eq/=. done.
Qed.

Lemma yoy_entry_key yrow kv :
  yoy_entry yrow = Some kv →
  row_key (yoy_row yrow) = (Some kv.1.1.1, kv.1.1.2, Some kv.1.2).
Proof.
  unfold yoy_entry, row_key. intros Hkv.
  destruct (country_code (yoy_row yrow)), (year (yoy_row yrow)); simplify_eq/=. done.
Qed.

Lemma latest_in_unique df r r' :
  enriched df → latest_in df r → latest_in df r' → group_key r = group_key r' → r = r'.
Proof.
  intros Hdf [Hr Hmax] [Hr' Hmax'] Hg.
  apply (enriched_same_year df); [done..|].
  specialize (Hmax r' Hr' (eq_sym Hg)). specialize (Hmax' r Hr Hg). lia.
Qed.

Lemma NoDup_group_key_latest_values_of df :
  NoDup (group_key <$> latest_values_of df).
Proof.
  unfold latest_values_of. rewrite <- list_fmap_compose.
  erewrite (list_fmap_ext _ Some).
  - apply (NoDup_fmap_2 Some), NoDup_group_keys.
  - intros i g _. simpl. apply group_key_groupby_last.
Qed.

Lemma latest_row_of_group df r g :
  enriched df → latest_in df r → group_key r = Some g →
  ∃ row, row ∈ latest_values_of df ∧ view_of row = view_of r.
Proof.
  intros Hdf Hr Hg.
  assert (g ∈ group_keys df) as Hin.
  { apply elem_of_group_keys. exists r. split; [apply Hr|done]. }
  destruct (last_of_group_latest df g Hdf Hin) as (r' & Hlast & Hg' & Hr').
  assert (r' = r) as -> by (apply (latest_in_unique df); [done..|congruence]).
  exists (groupby_last g (filter (in_group g) (sort_values_year df))). split.
  - unfold latest_values_of. apply list_elem_of_fmap. by exists g.
  - by apply view_of_groupby_last.
Qed.

(** X8: the aggregation tables take the rows of the views without
    comparing them with what is stored. After [load_aggregations] of the
    aggregations of a frame returned by [transform], whatever the tables
    held: the latest table has, for each group of the frame, the year and
    the value of its row of the latest year, also where a later year was
    stored; and the table of yearly changes has each row of that view. *)
Theorem load_aggregations_overwrites (rejects : request → Tables → bool)
    (raw : list Raw.t) (df : list Row) (st st' : State) :
  transform raw = inr df →
  load_aggregations rejects (create_aggregations df) st = (st', inr tt) →
  (∀ r c y, latest_in df r → country_code r = Some c → year r = Some y →
     tbl_latest_indicators (committed (db st')) !! (c, indicator_code r)
       = Some (LatestIndicators.mk y (value r))) ∧
  (∀ yr c y, yr ∈ yoy_changes (create_aggregations df) →
     country_code (yoy_row yr) = Some c → year (yoy_row yr) = Some y →
     tbl_yoy_changes (committed (db st')) !! (c, indicator_code (yoy_row yr), y)
       = Some (YoyChanges.mk (value (yoy_row yr)) (yoy_change yr))).
Proof.
  intros Ht (latests & yoys & Hlatests & Hyoys & Hdb)%load_aggregations_ok.
  pose proof (transform_enriched raw df Ht) as Hdf.
  cbn [latest_values yoy_changes create_aggregations] in *.
  rewrite Hdb. cbn [committed with_yoy with_latest tbl_latest_indicators tbl_yoy_changes].
  split.
  - intros r c y Hr Hc Hy.
    destruct (latest_row_of_group df r (c, indicator_code r) Hdf Hr)
      as (row & Hrow & Hview); [unfold group_key; by rewrite Hc|].
    destruct (mapM_entries_elem _ _ _ row Hlatests Hrow) as (kv & Hkv & Hin).
    assert (NoDup latests.*1) as Hnodup.
    { eapply (mapM_entries_NoDup latest_entry group_key Some); [..|done|].
      - apply latest_entry_key.
      - by intros ?? [=].
      - apply NoDup_group_key_latest_values_of. }
    unfold view_of in Hview. unfold latest_entry in Hkv.
    injection Hview as Hc' Hi' Hy' Hv'. rewrite Hc', Hi', Hy', Hv', Hc, Hy in Hkv.
    simpl in Hkv. simplify_eq.
    rewrite lookup_upsert_all, (upsert_at_once _ _ _ _ _ Hnodup Hin).
    by destruct (_ !! _).
  - intros yr c y Hyr Hc Hy.
    assert (filter (λ y0, isna (yoy_change y0) = false) (yoy_changes_of df)
            = yoy_changes_of df) as Hfilter.
    { apply filter_all. intros y0 Hy0. unfold yoy_changes_of in Hy0.
      by apply list_elem_of_filter in Hy0 as [? _]. }
    rewrite Hfilter in Hyoys.
    destruct (mapM_entries_elem _ _ _ yr Hyoys Hyr) as (kv & Hkv & Hin).
    assert (NoDup yoys.*1) as Hnodup.
    { eapply (mapM_entries_NoDup yoy_entry (λ y0, row_key (yoy_row y0))
                (λ k : YoyChanges.key, (Some k.1.1, k.1.2, Some k.2))); [..|done|].
      - apply yoy_entry_key.
      - intros [[] ?] [[] ?] [=]. by simplify_eq/=.
      - by apply yoy_changes_of_NoDup. }
    unfold yoy_entry in Hkv. rewrite Hc, Hy in Hkv. simpl in Hkv. simplify_eq.
    rewrite lookup_upsert_all, (upsert_at_once _ _ _ _ _ Hnodup Hin).
    by destruct (_ !! _).
Qed.

(** The frame of 2010, 2011 and 2012, loaded where the latest table holds
    the year 2023: the table holds 2012 afterwards. *)
Lemma load_aggregations_overwrites_witness :
  let st' := (load_aggregations accepts_all (create_aggregations df_100_110_121)
                holds_latest_2023).1 in
  tbl_latest_indicators (committed (db holds_latest_2023)) !! ("IND", "NY.GDP.MKTP.CD")
    = Some (LatestIndicators.mk 2023 (of_Z 999)) ∧
  tbl_latest_indicators (committed (db st')) !! ("IND", "NY.GDP.MKTP.CD")
    = Some (LatestIndicators.mk 2012 (of_Z 121)).
Proof.
  cbv zeta. split; [vm_compute; reflexivity|].
  assert (transform values_100_110_121 = inr df_100_110_121) as Ht by reflexivity.
  assert (load_aggregations accepts_all (create_aggregations df_100_110_121)
            holds_latest_2023
          = ((load_aggregations accepts_all (create_aggregations df_100_110_121)
                holds_latest_2023).1, inr tt)) as Hload by (vm_compute; reflexivity).
  destruct (load_aggregations_overwrites accepts_all values_100_110_121 df_100_110_121
              holds_latest_2023 _ Ht Hload) as [Hlatest _].
  apply (Hlatest (add_derived (Raw.mk (Some "IND") "India" "NY.GDP.MKTP.CD"
                                 "GDP (current US$)" (Some 2012) (of_Z 121) 0))
           "IND" 2012); [|reflexivity|reflexivity].
  split; [right; right; left|].
  intros r' Hr' _. apply list_elem_of_In in Hr'. simpl in Hr'.
  destruct Hr' as [<-|[<-|[<-|[]]]]; unfold year_of; simpl; lia.
Defined.

(** *** A load that the server accepts *)

Lemma for_each_accepted {A KV} (body : A → M unit) (entry : A → option KV)
    (step : Tables → KV → Tables) (l : list A) (kvs : list KV) (st : State) :
  (∀ x kv st, x ∈ l → entry x = Some kv →
     body x st = (set_working (step (working (db st)) kv) st, inr tt)) →
  mapM entry l = Some kvs →
  for_each l body st = (set_working (foldl step (working (db st)) kvs) st, inr tt).
Proof.
  revert kvs st. induction l as [|x l IH]; intros kvs st Hbody; simpl.
  - intros [= <-]. simpl. by rewrite set_working_id.
  - destruct (entry x) as [kv|] eqn:Hx; simpl; [|done].
    destruct (mapM entry l) as [kvs'|] eqn:Hl; simpl; [|done].
    intros [= <-]. unfold bind at 1.
    rewrite (Hbody x kv st) by (done || by left).
    rewrite (IH kvs'); [done| |done].
    intros x' kv' st' Hx'. apply Hbody. by right.
Qed.

Section Accepted.
Variable rejects : request → Tables → bool.
Hypothesis accepts : ∀ q t, rejects q t = false.

Lemma insert_economic_indicator_accepted row kv st :
  main_entry row = Some kv →
  insert_economic_indicator rejects row st =
    (set_working (with_main (upsert EconomicIndicators.on_duplicate kv.1 kv.2)
                    (working (db st))) st, inr tt).
Proof.
  unfold main_entry. intros Hkv.
  destruct (country_code row) eqn:Hc, (year row) eqn:Hy, (decade row) eqn:Hd;
    simplify_eq/=.
  unfold insert_economic_indicator, bind, py_int, ret, cursor_execute.
  rewrite Hy, Hd, accepts, Hc. done.
Qed.

Lemma insert_latest_indicator_accepted row kv st :
  latest_entry row = Some kv →
  insert_latest_indicator rejects row st =
    (set_working (with_latest (upsert LatestIndicators.on_duplicate kv.1 kv.2)
                    (working (db st))) st, inr tt).
Proof.
  unfold latest_entry. intros Hkv.
  destruct (country_code row) eqn:Hc, (year row) eqn:Hy; simplify_eq/=.
  unfold insert_latest_indicator, bind, py_int, ret, cursor_execute.
  rewrite Hy, accepts, Hc. done.
Qed.

Lemma insert_yoy_change_accepted yrow kv st :
  isna (yoy_change yrow) = false → yoy_entry yrow = Some kv →
  insert_yoy_change rejects yrow st =
    (set_working (with_yoy (upsert YoyChanges.on_duplicate kv.1 kv.2)
                    (working (db st))) st, inr tt).
Proof.
  unfold yoy_entry. intros Hna Hkv.
  destruct (country_code (yoy_row yrow)) eqn:Hc, (year (yoy_row yrow)) eqn:Hy;
    simplify_eq/=.
  unfold insert_yoy_change, bind, py_int, ret, cursor_execute.
  rewrite Hna, Hy, accepts, Hc. done.
Qed.

Lemma create_tables_accepted st :
  create_tables rejects st =
    (mkState (mkDb (working (db st)) (working (db st)))
       (log st ++ [INFO "All tables created successfully"]), inr tt).
Proof.
  unfold create_tables, try_except_Error, bind, cursor_execute, connection_commit,
    logging_info.
  repeat (rewrite ?accepts; cbn [exec_stmt db working log committed]).
  reflexivity.
Qed.

Lemma load_main_data_accepted df mains st :
  mapM main_entry df = Some mains →
  load_main_data rejects df st =
    (mkState (let w := with_main (upsert_all EconomicIndicators.on_duplicate mains)
                         (working (db st)) in mkDb w w)
       (log st ++ [INFO ("Loaded " +:+ pretty (length df) +:+
                         " records to economic_indicators table")]), inr tt).
Proof.
  intros Hmains. unfold load_main_data, try_except_Error, bind at 1.
  rewrite (for_each_accepted _ main_entry
             (λ t kv, with_main (upsert EconomicIndicators.on_duplicate kv.1 kv.2) t)
             df mains);
    [|intros; by apply insert_economic_indicator_accepted|done].
  rewrite foldl_with_main.
  unfold bind, connection_commit, logging_info, set_working.
  cbn [db working log committed]. by rewrite accepts.
Qed.

Lemma load_aggregations_accepted summaries latests yoys st :
  mapM latest_entry (latest_values summaries) = Some latests →
  mapM yoy_entry (yoy_changes summaries) = Some yoys →
  (∀ y, y ∈ yoy_changes summaries → isna (yoy_change y) = false) →
  load_aggregations rejects summaries st =
    (mkState (let w := with_yoy (upsert_all YoyChanges.on_duplicate yoys)
                         (with_latest (upsert_all LatestIndicators.on_duplicate latests)
                            (working (db st))) in mkDb w w)
       (log st ++ [INFO "Loaded all aggregations successfully"]), inr tt).
Proof.
  intros Hlatests Hyoys Hna. unfold load_aggregations, try_except_Error, bind at 1.
  rewrite (for_each_accepted _ latest_entry
             (λ t kv, with_latest (upsert LatestIndicators.on_duplicate kv.1 kv.2) t)
             (latest_values summaries) latests);
    [|intros; by apply insert_latest_indicator_accepted|done].
  rewrite foldl_with_latest. unfold bind at 1.
  rewrite (for_each_accepted _ yoy_entry
             (λ t kv, with_yoy (upsert YoyChanges.on_duplicate kv.1 kv.2) t)
             (yoy_changes summaries) yoys);
    [|intros; apply insert_yoy_change_accepted; auto|done].
  rewrite foldl_with_yoy.
  unfold bind, connection_commit, logging_info, set_working.
  cbn [db working log committed]. by rewrite accepts.
Qed.

Lemma create_country_summary_accepted st :
  create_country_summary rejects st =
    (mkState (mkDb (summarised (working (db st))) (summarised (working (db st))))
       (log st ++ [INFO "Country summary created successfully"]), inr tt).
Proof.
  unfold create_country_summary, try_except_Error, bind, cursor_execute,
    connection_commit, logging_info.
  rewrite accepts. cbn [exec_stmt db working log committed].
  fold (summarised (working (db st))). by rewrite accepts.
Qed.

Lemma load_steps_accepted df summaries mains latests yoys st :
  mapM main_entry df = Some mains →
  mapM latest_entry (latest_values summaries) = Some latests →
  mapM yoy_entry (yoy_changes summaries) = Some yoys →
  (∀ y, y ∈ yoy_changes summaries → isna (yoy_change y) = false) →
  load_steps rejects df summaries st =
    (mkState (let w := apply_batch mains latests yoys (working (db st)) in mkDb w w)
       (log st ++ log_loaded (length df)),
     inr tt).
Proof.
  intros Hmains Hlatests Hyoys Hna. unfold load_steps, bind.
  rewrite create_tables_accepted, (load_main_data_accepted df mains) by done.
  rewrite (load_aggregations_accepted summaries latests yoys) by done.
  rewrite create_country_summary_accepted.
  unfold close, bind, connection_rollback, logging_info.
  cbn [db working log committed]. unfold log_loaded. rewrite <- !app_assoc. simpl.
  unfold apply_batch, summarised, with_main, with_latest, with_yoy.
  cbn [tbl_economic_indicators tbl_latest_indicators tbl_yoy_changes tbl_country_summary].
  reflexivity.
Qed.
End Accepted.

Lemma transform_main_entries raw df :
  transform raw = inr df → is_Some (mapM main_entry df).
Proof.
  intros Ht. apply mapM_is_Some, Forall_forall. intros r Hr. simpl.
  destruct (transform_decade_key raw df r Ht Hr) as [k Hk].
  destruct (transform_enriched raw df Ht) as [_ Hcols].
  destruct (Hcols r Hr) as (_ & [y Hy] & _).
  unfold decade_key in Hk. unfold main_entry.
  destruct (country_code r), (decade r); simplify_eq/=. rewrite Hy. by eexists.
Qed.

Lemma enriched_latest_entries df :
  enriched df → is_Some (mapM latest_entry (latest_values_of df)).
Proof.
  intros Hdf. apply mapM_is_Some, Forall_forall. intros row Hrow. simpl.
  unfold latest_values_of in Hrow.
  apply list_elem_of_fmap in Hrow as (g & -> & Hg).
  destruct (last_of_group_latest df g Hdf Hg) as (r & Hlast & Hgr & [Hr _]).
  pose proof (view_of_groupby_last df g r Hdf Hlast) as Hview.
  remember (groupby_last g (filter (in_group g) (sort_values_year df))) as row.
  unfold view_of in Hview. injection Hview as Hc Hi Hy Hv.
  destruct Hdf as [_ Hcols]. destruct (Hcols r Hr) as ([c Hc'] & [y Hy'] & _).
  unfold latest_entry. rewrite Hc, Hy, Hc', Hy'. by eexists.
Qed.

Lemma enriched_yoy_entries df :
  enriched df → is_Some (mapM yoy_entry (yoy_changes_of df)).
Proof.
  intros Hdf. apply mapM_is_Some, Forall_forall. intros yr Hyr. simpl.
  apply (elem_of_yoy_changes_of df yr Hdf) in Hyr as (r & prev & Hr & _ & _ & ->).
  destruct Hdf as [_ Hcols]. destruct (Hcols r Hr) as ([c Hc'] & [y Hy'] & _).
  unfold yoy_entry. cbn [yoy_row yoy_change]. rewrite Hc', Hy'. by eexists.
Qed.

Lemma yoy_changes_of_notna df y :
  y ∈ yoy_changes_of df → isna (yoy_change y) = false.
Proof. unfold yoy_changes_of. by intros [? _]%list_elem_of_filter. Qed.

(** X9: the frame of [transform] and its aggregations always load, when
    the server refuses nothing: no conversion of a row fails, the five steps
    run to the end and log their success, and the tables, committed, are the
    stored ones with the rows of the frame, of the views and of the summary
    put in. *)
Theorem load_steps_succeeds (rejects : request → Tables → bool) (raw : list Raw.t)
    (df : list Row) (st : State) :
  (∀ q t, rejects q t = false) → transform raw = inr df →
  ∃ mains latests yoys,
    mapM main_entry df = Some mains ∧
    mapM latest_entry (latest_values (create_aggregations df)) = Some latests ∧
    mapM yoy_entry (yoy_changes (create_aggregations df)) = Some yoys ∧
    load_steps rejects df (create_aggregations df) st =
      (mkState (let w := apply_batch mains latests yoys (working (db st)) in mkDb w w)
         (log st ++ log_loaded (length df)),
       inr tt).
Proof.
  intros Hacc Ht. pose proof (transform_enriched raw df Ht) as Hdf.
  destruct (transform_main_entries raw df Ht) as [mains Hmains].
  destruct (enriched_latest_entries df Hdf) as [latests Hlatests].
  destruct (enriched_yoy_entries df Hdf) as [yoys Hyoys].
  exists mains, latests, yoys. split; [done|]. split; [done|]. split; [done|].
  apply load_steps_accepted; try done. apply yoy_changes_of_notna.
Qed.

(** The frame of 2010, 2011 and 2012 against a server that accepts
    everything. *)
Lemma load_steps_succeeds_witness :
  ∃ mains latests yoys,
    mapM main_entry df_100_110_121 = Some mains ∧
    mapM latest_entry (latest_values (create_aggregations df_100_110_121)) = Some latests ∧
    mapM yoy_entry (yoy_changes (create_aggregations df_100_110_121)) = Some yoys ∧
    load_steps accepts_all df_100_110_121 (create_aggregations df_100_110_121) holds_2010 =
      (mkState (let w := apply_batch mains latests yoys (working (db holds_2010)) in
                mkDb w w)
         (log holds_2010 ++ log_loaded (length df_100_110_121)),
       inr tt).
Proof.
  apply (load_steps_succeeds accepts_all values_100_110_121 df_100_110_121 holds_2010);
    [intros q t; reflexivity|reflexivity].
Defined.

Lemma upsert_all_fresh `{Countable K} {V} (f : V → V → V) (kvs : list (K * V)) :
  NoDup kvs.*1 → upsert_all f kvs ∅ = list_to_map kvs.
Proof.
  intros Hnodup. apply map_eq. intros k. rewrite lookup_upsert_all, lookup_empty.
  destruct (decide (k ∈ kvs.*1)) as [Hin|Hout].
  - apply list_elem_of_fmap in Hin as ([k' v] & -> & Hin). simpl.
    rewrite (upsert_at_once f k' v kvs None Hnodup Hin).
    symmetry. by apply elem_of_list_to_map_1.
  - rewrite upsert_at_untouched by by apply last_for_None.
    symmetry. by apply not_elem_of_list_to_map_1.
Qed.

(** X10: loaded into empty tables, a frame returned by [transform] gives
    one stored row for each of its rows, one latest row for each of its
    groups and one row of yearly change for each row of that view. *)
Theorem load_into_empty_tables (rejects : request → Tables → bool) (raw : list Raw.t)
    (df : list Row) (st st' : State) :
  transform raw = inr df → working (db st) = no_tables →
  load_steps rejects df (create_aggregations df) st = (st', inr tt) →
  size (tbl_economic_indicators (committed (db st'))) = length df ∧
  size (tbl_latest_indicators (committed (db st'))) = length (group_keys df) ∧
  size (tbl_yoy_changes (committed (db st')))
    = length (yoy_changes (create_aggregations df)).
Proof.
  intros Ht Hempty (mains & latests & yoys & Hmains & Hlatests & Hyoys & Hdb)%load_steps_ok.
  pose proof (transform_enriched raw df Ht) as Hdf.
  cbn [latest_values yoy_changes create_aggregations] in *.
  rewrite (filter_all _ (yoy_changes_of df)) in Hyoys by apply yoy_changes_of_notna.
  assert (NoDup mains.*1) as Hn1.
  { eapply (mapM_entries_NoDup main_entry row_key
              (λ k : EconomicIndicators.key, (Some k.1.1, k.1.2, Some k.2))); [..|done|].
    - intros x kv' Hx. by apply main_entry_key.
    - intros [[] ?] [[] ?] [=]. by simplify_eq/=.
    - by eapply transform_NoDup. }
  assert (NoDup latests.*1) as Hn2.
  { eapply (mapM_entries_NoDup latest_entry group_key Some); [..|done|].
    - apply latest_entry_key.
    - by intros ?? [=].
    - apply NoDup_group_key_latest_values_of. }
  assert (NoDup yoys.*1) as Hn3.
  { eapply (mapM_entries_NoDup yoy_entry (λ y0, row_key (yoy_row y0))
              (λ k : YoyChanges.key, (Some k.1.1, k.1.2, Some k.2))); [..|done|].
    - apply yoy_entry_key.
    - intros [[] ?] [[] ?] [=]. by simplify_eq/=.
    - by apply yoy_changes_of_NoDup. }
  rewrite Hdb, Hempty. unfold apply_batch, no_tables.
  cbn [committed tbl_economic_indicators tbl_latest_indicators tbl_yoy_changes].
  rewrite !upsert_all_fresh by done. rewrite !map_size_list_to_map by done.
  apply length_mapM in Hmains, Hlatests, Hyoys.
  rewrite <- Hmains, <- Hlatests, <- Hyoys. unfold latest_values_of.
  by rewrite length_fmap.
Qed.

(** The frame of 2010, 2011 and 2012 into empty tables: three rows, one
    latest row, two yearly changes. *)
Lemma load_into_empty_tables_witness :
  let summaries := create_aggregations df_100_110_121 in
  let st' := (load_steps accepts_all df_100_110_121 summaries empty_state).1 in
  (length df_100_110_121 = 3 ∧ length (group_keys df_100_110_121) = 1 ∧
   length (yoy_changes summaries) = 2)%nat ∧
  size (tbl_economic_indicators (committed (db st'))) = length df_100_110_121 ∧
  size (tbl_latest_indicators (committed (db st'))) = length (group_keys df_100_110_121) ∧
  size (tbl_yoy_changes (committed (db st'))) = length (yoy_changes summaries).
Proof.
  cbv zeta. split; [repeat split; vm_compute; reflexivity|].
  apply (load_into_empty_tables accepts_all values_100_110_121 df_100_110_121 empty_state);
    [reflexivity|reflexivity|vm_compute; reflexivity].
Defined.

(** ** The country summary *)

Lemma exists_max {A} (f : A → Z) (l : list A) :
  l ≠ [] → ∃ x, x ∈ l ∧ ∀ y, y ∈ l → f y ≤ f x.
Proof.
  induction l as [|a l IH]; [done|]. intros _.
  destruct l as [|b l'].
  { exists a. split; [by left|]. intros y ->%list_elem_of_singleton. lia. }
  destruct IH as (x & Hx & Hmax); [done|].
  destruct (decide (f x ≤ f a)).
  - exists a. split; [by left|]. intros y [->|Hy]%elem_of_cons; [lia|].
    specialize (Hmax y Hy). lia.
  - exists x. split; [by right|]. intros y [->|Hy]%elem_of_cons; [lia|by apply Hmax].
Qed.

Lemma filter_none {A} (P : A → Prop) `{!∀ x, Decision (P x)} (l : list A) :
  (∀ x, x ∈ l → ¬ P x) → filter P l = [].
Proof.
  induction l as [|a l IH]; [done|]. intros HP.
  rewrite filter_cons, decide_False by (apply HP; by left).
  apply IH. intros x Hx. apply HP. by right.
Qed.

Lemma filter_only {A} (P : A → Prop) `{!∀ x, Decision (P x)} (l : list A) (x : A) :
  NoDup l → x ∈ l → P x → (∀ y, y ∈ l → P y → y = x) → filter P l = [x].
Proof.
  induction l as [|a l IH]; [by intros _ ?%elem_of_nil|].
  rewrite NoDup_cons. intros [Ha Hl] Hin HP Huniq. rewrite filter_cons.
  apply elem_of_cons in Hin as [->|Hin].
  - rewrite decide_True by done. f_equal.
    apply filter_none. intros y Hy HPy.
    assert (y = a) as -> by (apply Huniq; [by right|done]). done.
  - destruct (decide (P a)) as [HPa|_].
    + assert (a = x) as -> by (apply Huniq; [by left|done]). done.
    + apply IH; [done..|]. intros y Hy. apply Huniq. by right.
Qed.

Lemma foldl_upsert_at_filter `{EqDecision K} {V} (f : V → V → V) (k : K)
    (kvs : list (K * V)) (o : option V) :
  foldl (upsert_at f k) o kvs = foldl (upsert_at f k) o (filter (λ kv, kv.1 = k) kvs).
Proof.
  revert o. induction kvs as [|kv kvs IH]; intros o; [done|].
  rewrite filter_cons. simpl. destruct (decide (kv.1 = k)) as [Hk|Hk]; simpl.
  - apply IH.
  - rewrite <- IH. unfold upsert_at at 2. by rewrite decide_False.
Qed.

Section summary.
Context (main : gmap EconomicIndicators.key EconomicIndicators.t).

Lemma elem_of_latest_rows (x : ei_row) :
  x ∈ latest_rows main ↔
  main !! x.1 = Some x.2 ∧
  ∀ y' e', main !! (ei_country x, ei_indicator x, y') = Some e' → y' ≤ ei_year x.
Proof.
  unfold latest_rows. rewrite list_elem_of_filter. unfold rn_is_1.
  rewrite Forall_forall. destruct x as [[[c i] y] v].
  unfold ei_country, ei_indicator, ei_year. cbn [fst snd]. split.
  - intros [Hmax Hx%elem_of_map_to_list]. split; [done|]. intros y' e' He'.
    apply (Hmax ((c, i, y'), e')); [|done..]. by apply elem_of_map_to_list.
  - intros [Hx Hmax]. split; [|by apply elem_of_map_to_list].
    intros [[[c' i'] y'] e'] He'%elem_of_map_to_list. cbn [fst snd]. intros -> ->.
    by eapply Hmax.
Qed.

Lemma NoDup_latest_rows : NoDup (latest_rows main).
Proof. apply NoDup_filter, NoDup_map_to_list. Qed.

Lemma latest_stored_elem c i e :
  latest_stored main c i e ↔ ∃ y, ((c, i, y), e) ∈ latest_rows main.
Proof.
  unfold latest_stored. split; intros [y Hy]; exists y.
  - by apply elem_of_latest_rows.
  - by apply elem_of_latest_rows in Hy.
Qed.

Lemma latest_stored_exists c i y e :
  main !! (c, i, y) = Some e → ∃ e0, latest_stored main c i e0.
Proof.
  intros He.
  set (part := filter (λ x : ei_row, ei_country x = c ∧ ei_indicator x = i)
                    (map_to_list main)).
  assert (((c, i, y), e) ∈ part) as Hin.
  { apply list_elem_of_filter. split; [done|]. by apply elem_of_map_to_list. }
  destruct (exists_max ei_year part) as ([[[c0 i0] y0] e0] & Hx & Hmax).
  { intros Hnil. rewrite Hnil in Hin. by apply elem_of_nil in Hin. }
  apply list_elem_of_filter in Hx as [[Hc Hi] Hx%elem_of_map_to_list].
  unfold ei_country, ei_indicator in Hc, Hi. cbn [fst snd] in Hc, Hi. subst c0 i0.
  exists e0, y0. split; [done|]. intros y' e' He'.
  apply (Hmax ((c, i, y'), e')). apply list_elem_of_filter. split; [done|].
  by apply elem_of_map_to_list.
Qed.

Lemma latest_stored_unique c i e e' :
  latest_stored main c i e → latest_stored main c i e' →
  ∃ y, main !! (c, i, y) = Some e ∧ e' = e ∧
       ∀ y' e'', main !! (c, i, y') = Some e'' → y' ≤ y.
Proof.
  intros (y & He & Hmax) (y' & He' & Hmax').
  assert (y = y') as <-.
  { specialize (Hmax _ _ He'). specialize (Hmax' _ _ He). lia. }
  exists y. split; [done|]. split; [congruence|done].
Qed.
End summary.

Lemma case_when_notna (code : string) (rs : list ei_row) :
  filter (λ v, isna v = false) (case_when_indicator code rs) =
  filter (λ v, isna v = false)
    ((λ r : ei_row, EconomicIndicators.value r.2)
       <$> filter (λ r, ei_indicator r = code) rs).
Proof.
  unfold case_when_indicator. induction rs as [|r rs IH]; [done|].
  rewrite fmap_cons, !filter_cons.
  destruct (decide (ei_indicator r = code)).
  - rewrite fmap_cons, filter_cons. by rewrite IH.
  - simpl. done.
Qed.

Lemma sql_max_one (code : string) (rs : list ei_row) (x : ei_row) :
  filter (λ r, ei_indicator r = code) rs = [x] →
  sql_max (case_when_indicator code rs) = EconomicIndicators.value x.2.
Proof.
  intros Hx. unfold sql_max. rewrite case_when_notna, Hx. simpl.
  rewrite filter_cons, filter_nil.
  destruct (isna (EconomicIndicators.value x.2)) eqn:Hv.
  - rewrite decide_False by done. simpl. symmetry. apply Prim2SF_inj.
    by apply isna_spec in Hv.
  - by rewrite decide_True by done.
Qed.

Lemma sql_max_none (code : string) (rs : list ei_row) :
  filter (λ r, ei_indicator r = code) rs = [] →
  sql_max (case_when_indicator code rs) = NaN.
Proof. intros Hx. unfold sql_max. by rewrite case_when_notna, Hx. Qed.

Lemma sql_avg_one (code : string) (rs : list ei_row) (x : ei_row) :
  filter (λ r, ei_indicator r = code) rs = [x] →
  same_number (sql_avg (case_when_indicator code rs)) (EconomicIndicators.value x.2).
Proof.
  intros Hx. unfold sql_avg. rewrite case_when_notna, Hx. simpl.
  rewrite filter_cons, filter_nil.
  destruct (isna (EconomicIndicators.value x.2)) eqn:Hv.
  - rewrite decide_False by done. left. symmetry. apply Prim2SF_inj.
    by apply isna_spec in Hv.
  - rewrite decide_True by done. apply fadd_0_fdiv_1.
Qed.

Lemma sql_avg_none (code : string) (rs : list ei_row) :
  filter (λ r, ei_indicator r = code) rs = [] →
  sql_avg (case_when_indicator code rs) = NaN.
Proof. intros Hx. unfold sql_avg. by rewrite case_when_notna, Hx. Qed.

Lemma filter_fmap_list {A B} (f : A → B) (P : B → Prop) `{!∀ y, Decision (P y)}
    (l : list A) :
  filter P (f <$> l) = f <$> filter (λ x, P (f x)) l.
Proof.
  induction l as [|x l IH]; [done|].
  rewrite fmap_cons, !filter_cons. destruct (decide (P (f x))); simpl; by rewrite IH.
Qed.

(** X11: what [create_country_summary] writes for a country that has rows
    in the main table and one name on its latest rows. The summary row
    counts the indicators stored for the country, and takes its three
    numbers from the rows of the latest year of their indicators, which are
    the only ones the SELECT keeps: the latest GDP, the latest population,
    and, as [avg_gdp_growth], the GDP growth of the latest year, not a mean
    over the years. An indicator without a row gives NULL. The name is the
    one of the rows, unless the summary already had the country: then the
    stored name stays. *)
Theorem country_summary_takes_latest_rows (rejects : request → Tables → bool)
    (st st' : State) (c n : string) :
  let main := tbl_economic_indicators (working (db st)) in
  create_country_summary rejects st = (st', inr tt) →
  (∃ i y e, main !! (c, i, y) = Some e) →
  (∀ i e, latest_stored main c i e → EconomicIndicators.country_name e = n) →
  ∃ row inds,
    tbl_country_summary (committed (db st')) !! c = Some row ∧
    CountrySummary.country_name row =
      default n (CountrySummary.country_name <$>
                 tbl_country_summary (working (db st)) !! c) ∧
    NoDup inds ∧ (∀ i, i ∈ inds ↔ ∃ y e, main !! (c, i, y) = Some e) ∧
    CountrySummary.total_indicators row = length inds ∧
    (∀ e, latest_stored main c "NY.GDP.MKTP.CD" e →
       CountrySummary.latest_gdp row = EconomicIndicators.value e) ∧
    ("NY.GDP.MKTP.CD" ∉ inds → CountrySummary.latest_gdp row = NaN) ∧
    (∀ e, latest_stored main c "SP.POP.TOTL" e →
       CountrySummary.latest_population row = EconomicIndicators.value e) ∧
    ("SP.POP.TOTL" ∉ inds → CountrySummary.latest_population row = NaN) ∧
    (∀ e, latest_stored main c "NY.GDP.MKTP.KD.ZG" e →
       same_number (CountrySummary.avg_gdp_growth row) (EconomicIndicators.value e)) ∧
    ("NY.GDP.MKTP.KD.ZG" ∉ inds → CountrySummary.avg_gdp_growth row = NaN).
Proof.
  intros main Hrun (i0 & y0 & e0 & He0) Hname.
  apply create_country_summary_ok in Hrun.
  set (key_of := λ r : ei_row, (ei_country r, EconomicIndicators.country_name r.2)).
  set (rs := filter (λ r, key_of r = (c, n)) (latest_rows main)).
  assert (∀ x, x ∈ rs ↔ x ∈ latest_rows main ∧ ei_country x = c) as Hrs.
  { intros x. unfold rs. rewrite list_elem_of_filter. split.
    - intros [Hk Hx]. split; [done|]. by injection Hk.
    - intros [Hx Hc]. split; [|done]. unfold key_of. f_equal; [done|].
      apply (Hname (ei_indicator x)). apply latest_stored_elem. exists (ei_year x).
      destruct x as [[[c' i'] y'] e']. cbn in *. by subst c'. }
  assert (NoDup rs) as Hnodup by apply NoDup_filter, NoDup_latest_rows.
  set (inds := remove_dups (ei_indicator <$> rs)).
  assert (∀ i, i ∈ inds ↔ ∃ y e, main !! (c, i, y) = Some e) as Hinds.
  { intros i. unfold inds. rewrite elem_of_remove_dups, list_elem_of_fmap. split.
    - intros ([[[c' i'] y'] e'] & -> & [Hx Hc]%Hrs). cbn in Hc. subst c'.
      apply elem_of_latest_rows in Hx as [Hx _]. cbn in *. eauto.
    - intros (y & e & He).
      destruct (latest_stored_exists main c i y e He) as [e1 He1].
      apply latest_stored_elem in He1 as [y1 Hy1].
      exists ((c, i, y1), e1). split; [done|]. apply Hrs. by split. }
  assert (∀ code e1, latest_stored main c code e1 →
            ∃ x, filter (λ r, ei_indicator r = code) rs = [x] ∧ x.2 = e1) as Hone.
  { intros code e1 He1. pose proof He1 as [y1 Hy1]%latest_stored_elem.
    exists ((c, code, y1), e1). split; [|done]. apply filter_only; [done|..].
    - apply Hrs. by split.
    - done.
    - intros [[[c' i'] y'] e'] [Hx Hc]%Hrs Hi. cbn in Hc, Hi. subst c' i'.
      apply elem_of_latest_rows in Hx as [Hx Hxmax].
      apply elem_of_latest_rows in Hy1 as [Hy1 Hy1max]. cbn in *.
      assert (y' = y1) as ->.
      { specialize (Hxmax _ _ Hy1). specialize (Hy1max _ _ Hx). lia. }
      pose proof (eq_trans (eq_sym Hx) Hy1) as Heq. by injection Heq as ->. }
  assert (∀ code, code ∉ inds → filter (λ r, ei_indicator r = code) rs = []) as Hnone.
  { intros code Hcode. apply filter_none. intros x Hx Hi. apply Hcode.
    unfold inds. rewrite elem_of_remove_dups, list_elem_of_fmap. eauto. }
  set (new := {| CountrySummary.country_name := n;
                 CountrySummary.total_indicators := length inds;
                 CountrySummary.latest_gdp := sql_max (case_when_indicator "NY.GDP.MKTP.CD" rs);
                 CountrySummary.latest_population :=
                   sql_max (case_when_indicator "SP.POP.TOTL" rs);
                 CountrySummary.avg_gdp_growth :=
                   sql_avg (case_when_indicator "NY.GDP.MKTP.KD.ZG" rs) |}).
  assert (tbl_country_summary (committed (db st')) !! c =
          Some (match tbl_country_summary (working (db st)) !! c with
                | Some old => CountrySummary.on_duplicate old new
                | None => new
                end)) as Hrow.
  { rewrite Hrun. cbn [committed tbl_country_summary].
    rewrite lookup_upsert_all, foldl_upsert_at_filter.
    unfold summary_select. fold main. fold (latest_rows main). fold key_of.
    rewrite filter_fmap_list. cbn [fst].
    rewrite (filter_only _ _ (c, n)).
    - simpl. unfold upsert_at. cbn [fst snd]. rewrite decide_True by done.
      fold rs. fold inds. done.
    - apply NoDup_remove_dups.
    - rewrite elem_of_remove_dups, list_elem_of_fmap.
      destruct (latest_stored_exists main c i0 y0 e0 He0) as [e1 He1].
      pose proof He1 as [y1 Hy1]%latest_stored_elem.
      exists ((c, i0, y1), e1). split; [|done]. unfold key_of. cbn.
      by rewrite (Hname i0 e1 He1).
    - done.
    - intros [c' n'] Hg Hc. cbn in Hc. subst c'.
      apply elem_of_remove_dups, list_elem_of_fmap in Hg as (x & Hk & Hx).
      assert (x ∈ rs) as Hxrs.
      { apply Hrs. split; [done|]. unfold key_of in Hk. by injection Hk. }
      unfold rs in Hxrs. apply list_elem_of_filter in Hxrs as [Hk' _]. congruence. }
  eexists _, inds. split; [exact Hrow|].
  destruct (tbl_country_summary (working (db st)) !! c) as [old|]; simpl;
    (split; [done|]); (split; [apply NoDup_remove_dups|]); (split; [done|]);
    (split; [done|]).
  all: repeat split.
  all: try (intros e He; destruct (Hone _ e He) as (x & Hx & <-)).
  all: try (intros Hout%Hnone).
  all: first [by apply sql_max_one | by apply sql_max_none | by apply sql_avg_one
             | by apply sql_avg_none].
Qed.

(** A country with the GDP growth of 2019 and 2020 and the population of
    2020: the summary has two indicators, no GDP, the population, and as
    [avg_gdp_growth] the growth of 2020, 7, where the mean of the two years
    is 5. *)
Lemma country_summary_takes_latest_rows_witness :
  let st' := (create_country_summary accepts_all holds_growth).1 in
  tbl_country_summary (committed (db st')) !! "IND"
    = Some (CountrySummary.mk "India" 2 NaN (of_Z 1380) (of_Z 7)) ∧
  ∃ row inds,
    tbl_country_summary (committed (db st')) !! "IND" = Some row ∧
    CountrySummary.country_name row =
      default "India" (CountrySummary.country_name <$>
                       tbl_country_summary (working (db holds_growth)) !! "IND") ∧
    NoDup inds ∧
    (∀ i, i ∈ inds ↔ ∃ y e, growth_3_then_7 !! ("IND", i, y) = Some e) ∧
    CountrySummary.total_indicators row = length inds ∧
    (∀ e, latest_stored growth_3_then_7 "IND" "NY.GDP.MKTP.CD" e →
       CountrySummary.latest_gdp row = EconomicIndicators.value e) ∧
    ("NY.GDP.MKTP.CD" ∉ inds → CountrySummary.latest_gdp row = NaN) ∧
    (∀ e, latest_stored growth_3_then_7 "IND" "SP.POP.TOTL" e →
       CountrySummary.latest_population row = EconomicIndicators.value e) ∧
    ("SP.POP.TOTL" ∉ inds → CountrySummary.latest_population row = NaN) ∧
    (∀ e, latest_stored growth_3_then_7 "IND" "NY.GDP.MKTP.KD.ZG" e →
       same_number (CountrySummary.avg_gdp_growth row) (EconomicIndicators.value e)) ∧
    ("NY.GDP.MKTP.KD.ZG" ∉ inds → CountrySummary.avg_gdp_growth row = NaN).
Proof.
  cbv zeta. split; [vm_compute; reflexivity|].
  apply (country_summary_takes_latest_rows accepts_all holds_growth
           (create_country_summary accepts_all holds_growth).1 "IND" "India").
  - vm_compute; reflexivity.
  - exists "SP.POP.TOTL", 2020,
      (EconomicIndicators.mk "India" "" (of_Z 1380) 2010 "2015-2020" (Some "Asia") 0).
    vm_compute; reflexivity.
  - intros i e (y & He & _).
    change (growth_3_then_7 !! ("IND", i, y) = Some e) in He.
    assert (map_Forall (λ _ e, EconomicIndicators.country_name e = "India")
              growth_3_then_7) as Hall.
    { unfold growth_3_then_7. cbv zeta.
      repeat (apply map_Forall_insert_2; [reflexivity|]).
      apply map_Forall_empty. }
    exact (Hall _ _ He).
Defined.

(** ** run_etl_pipeline: how a run ends *)

(** X12: a run whose frame fails a check of [transform] is a failed run:
    [run_etl_pipeline] logs the message of the assertion as the failure of
    the pipeline and returns False, without connecting to the database or
    touching it. *)
Theorem validation_failure_fails_run (rejects : request → Tables → bool)
    (outcome : ConnectOutcome) (raw : list Raw.t) (e : exn) (st : State) :
  raw ≠ [] → transform raw = inl e →
  run_etl_pipeline rejects outcome raw st =
    (mkState (db st)
       (log st ++ log_until_transform (length raw) ++
        [ERROR ("Pipeline failed: " +:+ exn_str e)]),
     inr false).
Proof.
  intros Hraw Ht.
  unfold run_etl_pipeline, try_except_Exception, bind, logging_info, logging_error, raise.
  simpl. rewrite bool_decide_eq_false_2 by done. rewrite Ht. simpl.
  rewrite <- !app_assoc. reflexivity.
Qed.

(** A row of 1999 stops the run before the database is reached. *)
Lemma validation_failure_fails_run_witness :
  run_etl_pipeline accepts_all Connected [row_1999 (of_Z 5)] holds_2010 =
    (mkState (db holds_2010)
       (log holds_2010 ++ log_until_transform 1 ++
        [ERROR "Pipeline failed: Invalid years found"]),
     inr false).
Proof.
  apply (validation_failure_fails_run accepts_all Connected [row_1999 (of_Z 5)]
           (AssertionError "Invalid years found") holds_2010); [done|reflexivity].
Defined.

Lemma try_except_Exception_returns {A} (body : M A) (handler : exn → M A) st :
  (∀ e st, ∃ a, (handler e st).2 = inr a) →
  ∃ a, (try_except_Exception body handler st).2 = inr a.
Proof.
  intros Hh. unfold try_except_Exception.
  destruct (body st) as [st' [e|a]]; [apply Hh|by exists a].
Qed.

(** X13: [run_etl_pipeline] raises nothing: whatever the API answers,
    whatever the dates and values of the records, whatever the server
    refuses, the call returns True or False; every exception of the three
    stages ends in its [except Exception] clause. *)
Theorem run_etl_pipeline_never_raises (fetch : string → string → Response)
    (int_of_str : string → string + Z) (now : nat → Z)
    (rejects : request → Tables → bool) (outcome : ConnectOutcome)
    (raw : list Raw.t) (st : State) :
  (∃ b, (Script.run_etl_pipeline fetch int_of_str now rejects outcome st).2 = inr b) ∧
  (∃ b, (run_etl_pipeline rejects outcome raw st).2 = inr b).
Proof.
  split.
  - unfold Script.run_etl_pipeline. unfold bind at 1 2 3. unfold logging_info at 1 2 3.
    apply try_except_Exception_returns. intros e s. by exists false.
  - unfold run_etl_pipeline. unfold bind at 1 2 3. unfold logging_info at 1 2 3.
    apply try_except_Exception_returns. intros e s. by exists false.
Qed.

(** *** A load that fails *)

Section logged.
Context (l0 : list LogRecord) (P : LogRecord → Prop)
  (rejects : request → Tables → bool).

Lemma logged_since_start (st : State) : log st = l0 → logged_since l0 P st.
Proof. intros <-. exists []. by rewrite app_nil_r. Qed.

Lemma logged_logging_info msg :
  P (INFO msg) → preserves (logged_since l0 P) (logging_info msg).
Proof.
  intros HP st st' r (l & Hl & HPl) [= <- _]. exists (l ++ [INFO msg])%list. simpl.
  split; [by rewrite Hl, app_assoc|]. apply Forall_app. by split; [|constructor].
Qed.

Lemma logged_logging_error msg :
  P (ERROR msg) → preserves (logged_since l0 P) (logging_error msg).
Proof.
  intros HP st st' r (l & Hl & HPl) [= <- _]. exists (l ++ [ERROR msg])%list. simpl.
  split; [by rewrite Hl, app_assoc|]. apply Forall_app. by split; [|constructor].
Qed.

Lemma logged_execute s : preserves (logged_since l0 P) (cursor_execute rejects s).
Proof.
  intros st st' r HI. unfold cursor_execute.
  destruct (rejects _ _); [by intros [= <- _]|].
  destruct (exec_stmt _ _); by intros [= <- _].
Qed.

Lemma logged_commit : preserves (logged_since l0 P) (connection_commit rejects).
Proof.
  intros st st' r HI. unfold connection_commit.
  destruct (rejects _ _); by intros [= <- _].
Qed.

Lemma logged_rollback : preserves (logged_since l0 P) connection_rollback.
Proof. by intros st st' r HI [= <- _]. Qed.
End logged.

Ltac keep_logged :=
  repeat first
    [ apply preserves_bind; [|intro]
    | apply preserves_try_except_Error; [|intro]
    | apply preserves_for_each; intro
    | apply preserves_ret | apply preserves_raise | apply preserves_py_int
    | apply logged_execute | apply logged_commit | apply logged_rollback
    | apply logged_logging_info; [done]
    | apply logged_logging_error; [done] ].

(** Before [close], the load steps log nothing under the message of
    [close]. *)
Lemma load_steps_failed_logged (l0 : list LogRecord) rejects df summaries st st' e :
  logged_since l0 (λ r, r ≠ INFO "MySQL connection closed") st →
  load_steps rejects df summaries st = (st', inl e) →
  logged_since l0 (λ r, r ≠ INFO "MySQL connection closed") st'.
Proof.
  set (I := logged_since l0 (λ r, r ≠ INFO "MySQL connection closed")).
  intros HI. unfold load_steps, bind.
  assert (preserves I (create_tables rejects)) as H1.
  { unfold create_tables. keep_logged. }
  assert (preserves I (load_main_data rejects df)) as H2.
  { unfold load_main_data, insert_economic_indicator. keep_logged. }
  assert (preserves I (load_aggregations rejects summaries)) as H3.
  { unfold load_aggregations, insert_latest_indicator, insert_yoy_change. keep_logged.
    case_match; keep_logged. }
  assert (preserves I (create_country_summary rejects)) as H4.
  { unfold create_country_summary. keep_logged. }
  destruct (create_tables rejects st) as [s1 [e1|[]]] eqn:E1.
  { intros [= <- <-]. by eapply H1. }
  destruct (load_main_data rejects df s1) as [s2 [e2|[]]] eqn:E2.
  { intros [= <- <-]. eapply H2; [|done]. by eapply H1. }
  destruct (load_aggregations rejects summaries s2) as [s3 [e3|[]]] eqn:E3.
  { intros [= <- <-]. eapply H3; [|done]. eapply H2; [|done]. by eapply H1. }
  destruct (create_country_summary rejects s3) as [s4 [e4|[]]] eqn:E4.
  { intros [= <- <-]. eapply H4; [|done]. eapply H3; [|done]. eapply H2; [|done].
    by eapply H1. }
  intros Hclose. by apply close_ok in Hclose as [? _].
Qed.

(** X14: a load step that fails makes the run fail and leaves the
    connection open. When, after a successful [connect], one of the load
    steps raises, [run_etl_pipeline] keeps the tables as that step left them,
    logs the failure of the pipeline and returns False; nothing is logged
    about the connection being closed, since [close] comes after the steps
    and outside any [finally]. *)
Theorem load_failure_fails_run (rejects : request → Tables → bool) (raw : list Raw.t)
    (df : list Row) (e : exn) (st st1 : State) :
  raw ≠ [] → transform raw = inr df →
  load_steps rejects df (create_aggregations df)
    (connected_state (length raw) (length df) st) = (st1, inl e) →
  run_etl_pipeline rejects Connected raw st =
    (mkState (db st1) (log st1 ++ [ERROR ("Pipeline failed: " +:+ exn_str e)]),
     inr false) ∧
  ∃ l, log st1 = (log (connected_state (length raw) (length df) st) ++ l)%list ∧
       INFO "MySQL connection closed" ∉ l.
Proof.
  intros Hraw Ht Hload. split.
  - unfold run_etl_pipeline, try_except_Exception, bind, logging_info, logging_error.
    simpl. rewrite bool_decide_eq_false_2 by done. rewrite Ht.
    unfold connect, ret, bind, logging_info. simpl.
    unfold connected_state, log_until_load in Hload. simpl in Hload.
    rewrite <- ?app_assoc. simpl. rewrite <- ?app_assoc in Hload. simpl in Hload.
    by rewrite Hload.
  - eapply load_steps_failed_logged in Hload as (l & Hl & HP);
      [|by apply logged_since_start].
    exists l. split; [done|]. intros Hin.
    rewrite Forall_forall in HP. by apply (HP _ Hin).
Qed.

(** The frame of 2010, 2011 and 2012 against a server that refuses the
    rows of the latest view: the run fails, the three rows of the main
    table are committed, the connection stays open. *)
Lemma load_failure_fails_run_witness :
  let st1 := (load_steps refuses_latest df_100_110_121
                (create_aggregations df_100_110_121)
                (connected_state 3 3 holds_2010)).1 in
  size (tbl_economic_indicators (committed (db st1))) = 3%nat ∧
  run_etl_pipeline refuses_latest Connected values_100_110_121 holds_2010 =
    (mkState (db st1) (log st1 ++ [ERROR "Pipeline failed: statement refused"]),
     inr false) ∧
  ∃ l, log st1 = (log (connected_state 3 3 holds_2010) ++ l)%list ∧
       INFO "MySQL connection closed" ∉ l.
Proof.
  cbv zeta. split; [vm_compute; reflexivity|].
  apply (load_failure_fails_run refuses_latest values_100_110_121 df_100_110_121
           (DbError "statement refused") holds_2010); [done|reflexivity|].
  vm_compute; reflexivity.
Defined.

(** ** WorldBankExtractor *)

Lemma fold_each_result {A S} (body : S → A → M S) (step : S → A → exn + S)
    (l : list A) (s : S) (st : State) :
  (∀ s x st, ∃ st', body s x st = (st', step s x) ∧ db st' = db st) →
  ∃ st', fold_each l body s st = (st', fold_result step s l) ∧ db st' = db st.
Proof.
  intros Hbody. revert s st. induction l as [|x l IH]; intros s st; simpl.
  - by exists st.
  - unfold bind. destruct (Hbody s x st) as (st1 & -> & Hdb1).
    destruct (step s x) as [e|s']; [by exists st1|].
    destruct (IH s' st1) as (st2 & -> & Hdb2). exists st2. split; [done|congruence].
Qed.

Lemma fold_result_app {A S E} (step : S → A → E + S) (s : S) (l1 l2 : list A) :
  fold_result step s (l1 ++ l2) =
    match fold_result step s l1 with
    | inl e => inl e
    | inr s' => fold_result step s' l2
    end.
Proof.
  revert s. induction l1 as [|x l1 IH]; intros s; simpl; [done|].
  by destruct (step s x).
Qed.

Lemma fold_result_fmap {A B S E} (f : A → B) (step : S → B → E + S) (s : S) (l : list A) :
  fold_result step s (f <$> l) = fold_result (λ s x, step s (f x)) s l.
Proof.
  revert s. induction l as [|x l IH]; intros s; simpl; [done|].
  by destruct (step s (f x)).
Qed.

Lemma fold_result_nested {A B S E} (step : S → A * B → E + S) (s : S)
    (l1 : list A) (l2 : list B) :
  fold_result (λ s x, fold_result (λ s y, step s (x, y)) s l2) s l1 =
  fold_result step s (x ← l1; (λ y, (x, y)) <$> l2).
Proof.
  revert s. induction l1 as [|x l1 IH]; intros s; simpl; [done|].
  rewrite fold_result_app, fold_result_fmap.
  destruct (fold_result _ s l2); [done|]. apply IH.
Qed.

Section Extraction.
Context (fetch : string → string → Response) (int_of_str : string → string + Z)
  (now : nat → Z).

Lemma extract_indicator_data_run country indicator st :
  ∃ st', WorldBankExtractor.extract_indicator_data fetch country.1 indicator.1 st
           = (st', inr (answered fetch (country, indicator))) ∧
         db st' = db st.
Proof.
  unfold WorldBankExtractor.extract_indicator_data, answered. simpl.
  destruct (fetch country.1 indicator.1) as [msg|data].
  - unfold bind, logging_error, ret. simpl. by eexists.
  - destruct (data !! 1%nat) as [[|record records]|]; by eexists.
Qed.

Lemma append_record_run all_records record st :
  WorldBankExtractor.append_record int_of_str now all_records record st
    = (st, appended int_of_str now all_records record).
Proof.
  unfold WorldBankExtractor.append_record, appended.
  destruct (Api.value record); [|done]. by destruct (int_of_str _).
Qed.

Lemma extract_pair_run total country indicator vars st :
  ∃ st', WorldBankExtractor.extract_pair fetch int_of_str now total country indicator
           vars st
           = (st', extracted_pair fetch int_of_str now vars (country, indicator)) ∧
         db st' = db st.
Proof.
  unfold WorldBankExtractor.extract_pair, extracted_pair. unfold bind at 1.
  unfold logging_info. unfold bind at 1.
  destruct (extract_indicator_data_run country indicator
              (mkState (db st) (log st ++ [INFO ("[" +:+ pretty (S vars.2) +:+ "/" +:+
                 pretty total +:+ "] Extracting " +:+ country.2 +:+ " - " +:+
                 indicator.2)]))) as (st1 & -> & Hdb1).
  unfold bind at 1.
  destruct (fold_each_result (WorldBankExtractor.append_record int_of_str now)
              (appended int_of_str now) (answered fetch (country, indicator)) vars.1 st1)
    as (st2 & -> & Hdb2).
  { intros s x st0. exists st0. by rewrite append_record_run. }
  destruct (fold_result _ _ _); exists st2; (split; [done|]); simpl in *; congruence.
Qed.

(** The result of [extract_all_data]: the loops, without the log. *)
Lemma extract_all_data_run st :
  ∃ st', WorldBankExtractor.extract_all_data fetch int_of_str now st
           = (st', match fold_result (extracted_pair fetch int_of_str now) ([], 0%nat)
                           requests with
                   | inl e => inl e
                   | inr vars => inr vars.1
                   end) ∧
         db st' = db st.
Proof.
  unfold WorldBankExtractor.extract_all_data. unfold bind at 1. unfold logging_info at 1.
  unfold bind at 1.
  match goal with
  | |- context [fold_each COUNTRIES ?body ?s ?st0] =>
      destruct (fold_each_result body
                  (λ vars country,
                     fold_result (λ vars indicator,
                       extracted_pair fetch int_of_str now vars (country, indicator))
                       vars INDICATORS) COUNTRIES s st0) as (st1 & -> & Hdb1)
  end.
  { intros s country st0. apply fold_each_result. intros s' indicator st0'.
    apply extract_pair_run. }
  rewrite (fold_result_nested (extracted_pair fetch int_of_str now)).
  fold requests.
  destruct (fold_result _ _ requests) as [e|vars].
  - exists st1. split; [done|]. simpl in *. congruence.
  - unfold bind, logging_info, ret. eexists. split; [done|]. simpl in *. congruence.
Qed.
End Extraction.

Section Closed.
Context (fetch : string → string → Response) (int_of_str : string → string + Z)
  (now : nat → Z).

Lemma appended_ok records all_records ys :
  mapM (year_of_date int_of_str) (valued records) = Some ys →
  fold_result (appended int_of_str now) all_records records =
    inr (all_records ++
         imap (λ i, to_raw now (length all_records + i)) (zip (valued records) ys))%list.
Proof.
  revert all_records ys. unfold valued.
  induction records as [|r records IH]; intros acc ys; simpl.
  - intros [= <-]. simpl. by rewrite app_nil_r.
  - rewrite filter_cons. unfold appended at 1.
    destruct (Api.value r) as [v|] eqn:Hv.
    + rewrite decide_True by done. simpl.
      destruct (year_of_date int_of_str r) as [y|] eqn:Hyr; simpl; [|done].
      unfold year_of_date in Hyr.
      destruct (int_of_str (Api.date r)) as [msg|y'] eqn:Hy; simplify_eq.
      destruct (mapM _ _) as [ys'|] eqn:Hys; simpl; [|done].
      intros [= <-]. rewrite (IH _ ys' eq_refl). f_equal. rewrite <- app_assoc. simpl.
      f_equal. f_equal.
      * unfold to_raw. simpl. rewrite Hv. simpl. by rewrite Nat.add_0_r.
      * apply imap_ext. intros i x _. simpl. rewrite length_app. simpl.
        f_equal. lia.
    + rewrite decide_False by (by intros [? ?]). by apply IH.
Qed.

Lemma appended_bad records all_records l1 r l2 ys msg :
  valued records = (l1 ++ r :: l2)%list →
  mapM (year_of_date int_of_str) l1 = Some ys →
  int_of_str (Api.date r) = inl msg →
  fold_result (appended int_of_str now) all_records records = inl (ValueError msg).
Proof.
  revert all_records l1 ys. unfold valued.
  induction records as [|r0 records IH]; intros acc l1 ys; simpl.
  - by destruct l1.
  - rewrite filter_cons. unfold appended at 1.
    destruct (Api.value r0) as [v|] eqn:Hv.
    + rewrite decide_True by done. destruct l1 as [|r1 l1]; simpl.
      * intros [= -> _] _ Hmsg. by rewrite Hmsg.
      * intros [= -> Hrest].
        destruct (year_of_date int_of_str r1) as [y|] eqn:Hyr; simpl; [|done].
        unfold year_of_date in Hyr.
        destruct (int_of_str (Api.date r1)) as [msg1|y'] eqn:Hy; simplify_eq.
        destruct (mapM _ l1) as [ys'|] eqn:Hys; simpl; [|done].
        intros _ Hmsg. by eapply IH.
    + rewrite decide_False by (by intros [? ?]). apply IH.
Qed.

Lemma extracted_requests reqs all_records current :
  fold_result (extracted_pair fetch int_of_str now) (all_records, current) reqs =
    match fold_result (appended int_of_str now) all_records (reqs ≫= answered fetch) with
    | inl e => inl e
    | inr all_records' => inr (all_records', (current + length reqs)%nat)
    end.
Proof.
  revert all_records current. induction reqs as [|req reqs IH]; intros acc cur; simpl.
  - by rewrite Nat.add_0_r.
  - rewrite fold_result_app. unfold extracted_pair at 1. simpl.
    destruct (fold_result _ acc (answered fetch req)) as [e|acc']; [done|].
    rewrite IH. destruct (fold_result _ acc' _); [done|]. do 2 f_equal. lia.
Qed.

Lemma filter_bind_list {A B} (P : B → Prop) `{!∀ y, Decision (P y)} (f : A → list B)
    (l : list A) :
  filter P (l ≫= f) = l ≫= (λ x, filter P (f x)).
Proof.
  induction l as [|x l IH]; [done|].
  cbn [mbind list_bind]. by rewrite filter_app, IH.
Qed.

Lemma valued_all_answers :
  valued (requests ≫= answered fetch) = valued_records fetch.
Proof. unfold valued_records, valued. apply filter_bind_list. Qed.

Lemma extracted_ok ys :
  mapM (year_of_date int_of_str) (valued_records fetch) = Some ys →
  fold_result (extracted_pair fetch int_of_str now) ([], 0%nat) requests =
    inr (imap (to_raw now) (zip (valued_records fetch) ys), length requests).
Proof.
  intros Hys. rewrite extracted_requests.
  rewrite <- valued_all_answers in Hys |- *.
  by rewrite (appended_ok _ [] ys Hys).
Qed.

Lemma extracted_bad l1 r l2 ys msg :
  valued_records fetch = (l1 ++ r :: l2)%list →
  mapM (year_of_date int_of_str) l1 = Some ys →
  int_of_str (Api.date r) = inl msg →
  fold_result (extracted_pair fetch int_of_str now) ([], 0%nat) requests =
    inl (ValueError msg).
Proof.
  intros Hrecs Hys Hmsg. rewrite extracted_requests.
  rewrite <- valued_all_answers in Hrecs.
  by rewrite (appended_bad _ [] l1 r l2 ys msg Hrecs Hys Hmsg).
Qed.
End Closed.

Lemma mapM_None_first {A B} (f : A → option B) (l : list A) :
  mapM f l = None →
  ∃ l1 x l2 ys, l = (l1 ++ x :: l2)%list ∧ mapM f l1 = Some ys ∧ f x = None.
Proof.
  induction l as [|a l IH]; simpl; [done|].
  destruct (f a) as [b|] eqn:Ha; simpl.
  - destruct (mapM f l) as [bs|] eqn:Hl; simpl; [done|]. intros _.
    destruct IH as (l1 & x & l2 & ys & -> & Hys & Hx); [done|].
    exists (a :: l1), x, l2, (b :: ys). simpl. rewrite Ha, Hys. done.
  - intros _. by exists [], a, l, [].
Qed.

Section Returns.
Context (fetch : string → string → Response) (int_of_str : string → string + Z)
  (now : nat → Z).

Lemma extract_all_data_ok ys st :
  mapM (year_of_date int_of_str) (valued_records fetch) = Some ys →
  ∃ st',
    WorldBankExtractor.extract_all_data fetch int_of_str now st
      = (st', inr (imap (to_raw now) (zip (valued_records fetch) ys))) ∧
    db st' = db st.
Proof.
  intros Hys. destruct (extract_all_data_run fetch int_of_str now st) as (st' & Hrun & Hdb).
  exists st'. split; [|done]. rewrite Hrun. by rewrite (extracted_ok _ _ _ ys Hys).
Qed.

Lemma extract_all_data_bad l1 r l2 ys msg st :
  valued_records fetch = (l1 ++ r :: l2)%list →
  mapM (year_of_date int_of_str) l1 = Some ys →
  int_of_str (Api.date r) = inl msg →
  ∃ st',
    WorldBankExtractor.extract_all_data fetch int_of_str now st
      = (st', inl (ValueError msg)) ∧
    db st' = db st.
Proof.
  intros Hrecs Hys Hmsg.
  destruct (extract_all_data_run fetch int_of_str now st) as (st' & Hrun & Hdb).
  exists st'. split; [|done]. rewrite Hrun.
  by rewrite (extracted_bad _ _ _ l1 r l2 ys msg Hrecs Hys Hmsg).
Qed.
End Returns.

(** X16: what [extract_all_data] returns when every date of a record with
    a value is a number: one row for each record whose value is not null,
    in the order of the requests (country by country, indicator by
    indicator) and of the records of an answer, with the year read from the
    date and the clock of its turn. A request that fails brings no row and
    stops nothing. The database is not touched. *)
Theorem extract_all_data_returns (fetch : string → string → Response)
    (int_of_str : string → string + Z) (now : nat → Z) (st : State) (ys : list Z) :
  mapM (year_of_date int_of_str) (valued_records fetch) = Some ys →
  ∃ st',
    WorldBankExtractor.extract_all_data fetch int_of_str now st
      = (st', inr (imap (to_raw now) (zip (valued_records fetch) ys))) ∧
    db st' = db st.
Proof.
  intros Hys. destruct (extract_all_data_run fetch int_of_str now st) as (st' & Hrun & Hdb).
  exists st'. split; [|done]. rewrite Hrun. by rewrite (extracted_ok _ _ _ ys Hys).
Qed.

(** India's GDP of 2021 and 2020, extracted; the null of 2019 and the
    failing requests for the United States bring nothing. *)
Lemma extract_all_data_returns_witness :
  mapM (year_of_date int_of_sample_date) (valued_records fetch_india_gdp)
    = Some [2021; 2020] ∧
  imap (to_raw clock_0) (zip (valued_records fetch_india_gdp) [2021; 2020]) =
    [ Raw.mk (Some "IND") "India" "NY.GDP.MKTP.CD" "GDP (current US$)" (Some 2021)
        (of_Z 3170000000000) 0;
      Raw.mk (Some "IND") "India" "NY.GDP.MKTP.CD" "GDP (current US$)" (Some 2020)
        (of_Z 2660000000000) 0 ] ∧
  ∃ st',
    WorldBankExtractor.extract_all_data fetch_india_gdp int_of_sample_date clock_0
      empty_state
      = (st', inr (imap (to_raw clock_0)
                     (zip (valued_records fetch_india_gdp) [2021; 2020]))) ∧
    db st' = db empty_state.
Proof.
  split; [vm_compute; reflexivity|]. split; [vm_compute; reflexivity|].
  apply (extract_all_data_returns fetch_india_gdp int_of_sample_date clock_0 empty_state
           [2021; 2020]).
  vm_compute; reflexivity.
Defined.


Lemma script_run_on_extract (fetch : string → string → Response)
    (int_of_str : string → string + Z) (now : nat → Z)
    (rejects : request → Tables → bool) (outcome : ConnectOutcome) (st s' : State)
    (r : exn + list Raw.t) :
  WorldBankExtractor.extract_all_data fetch int_of_str now (script_extract_state st)
    = (s', r) →
  Script.run_etl_pipeline fetch int_of_str now rejects outcome st =
    match r with
    | inl e => pipeline_failed e s'
    | inr raw =>
        try_except_Exception (script_after_extract rejects outcome raw) pipeline_failed s'
    end.
Proof.
  intros Hrun.
  change (Script.run_etl_pipeline fetch int_of_str now rejects outcome) with
    (logging_info banner >>
     logging_info "Starting World Bank Economic Indicators ETL Pipeline" >>
     logging_info banner >>
     try_except_Exception
       (logging_info "STEP 1: EXTRACT" >>
        bind (WorldBankExtractor.extract_all_data fetch int_of_str now)
          (script_after_extract rejects outcome))
       pipeline_failed).
  set (K := script_after_extract rejects outcome).
  unfold bind, logging_info, try_except_Exception. cbn [db log].
  rewrite <- !app_assoc.
  change (mkState (db st) _) with (script_extract_state st).
  rewrite Hrun. by destruct r.
Qed.

(** X17: one date that is not a number fails the whole run. When the date
    of a record with a value makes [int] raise, [extract_all_data] raises
    that [ValueError], with the rows of the earlier records lost, and
    [run_etl_pipeline] logs the failure with the message of the error and
    returns False without touching the database, whereas a request that
    fails is passed over. *)
Theorem bad_date_fails_run (fetch : string → string → Response)
    (int_of_str : string → string + Z) (now : nat → Z)
    (rejects : request → Tables → bool) (outcome : ConnectOutcome) (st : State)
    (l1 l2 : list Api.t) (r : Api.t) (ys : list Z) (msg : string) :
  valued_records fetch = (l1 ++ r :: l2)%list →
  mapM (year_of_date int_of_str) l1 = Some ys →
  int_of_str (Api.date r) = inl msg →
  (WorldBankExtractor.extract_all_data fetch int_of_str now st).2
    = inl (ValueError msg) ∧
  ∃ st', Script.run_etl_pipeline fetch int_of_str now rejects outcome st
           = (st', inr false) ∧
         db st' = db st ∧
         ERROR ("Pipeline failed: " +:+ msg) ∈ log st'.
Proof.
  intros Hrecs Hys Hmsg. split.
  - destruct (extract_all_data_bad fetch int_of_str now l1 r l2 ys msg st Hrecs Hys Hmsg)
      as (s' & -> & _). done.
  - destruct (extract_all_data_bad fetch int_of_str now l1 r l2 ys msg
                (script_extract_state st) Hrecs Hys Hmsg) as (s' & Hs' & Hdb).
    rewrite (script_run_on_extract _ _ _ _ _ _ _ _ Hs').
    unfold pipeline_failed, bind, logging_error, ret. cbn [exn_str].
    eexists. split; [reflexivity|]. cbn [db log]. split; [done|].
    apply elem_of_app. right. apply list_elem_of_singleton. reflexivity.
Qed.

(** The date 2020Q4 after the date 2021. *)
Lemma bad_date_fails_run_witness :
  (WorldBankExtractor.extract_all_data fetch_quarter int_of_sample_date clock_0
     empty_state).2
    = inl (ValueError "invalid literal for int() with base 10: '2020Q4'") ∧
  ∃ st', Script.run_etl_pipeline fetch_quarter int_of_sample_date clock_0 accepts_all
           Connected empty_state = (st', inr false) ∧
         db st' = db empty_state ∧
         ERROR ("Pipeline failed: " +:+
                "invalid literal for int() with base 10: '2020Q4'") ∈ log st'.
Proof.
  apply (bad_date_fails_run fetch_quarter int_of_sample_date clock_0 accepts_all Connected
           empty_state [gdp_record "2021" (Some (of_Z 3170000000000))] []
           (gdp_record "2020Q4" (Some (of_Z 2660000000000))) [2021]);
    vm_compute; reflexivity.
Defined.

(** X18: a run that extracts nothing. When no request brings a record with
    a value (the requests fail, or the answers are empty, or the values are
    null) [run_etl_pipeline] logs that no data was extracted, as its last
    line, and returns False without touching the database. *)
Theorem no_record_fails_run (fetch : string → string → Response)
    (int_of_str : string → string + Z) (now : nat → Z)
    (rejects : request → Tables → bool) (outcome : ConnectOutcome) (st : State) :
  valued_records fetch = [] →
  ∃ st', Script.run_etl_pipeline fetch int_of_str now rejects outcome st
           = (st', inr false) ∧
         db st' = db st ∧
         last (log st') = Some (ERROR "No data extracted. Exiting.").
Proof.
  intros Hnone.
  destruct (extract_all_data_ok fetch int_of_str now [] (script_extract_state st))
    as (s' & Hs' & Hdb); [by rewrite Hnone|].
  rewrite Hnone in Hs'. cbn [zip zip_with imap] in Hs'.
  rewrite (script_run_on_extract _ _ _ _ _ _ _ _ Hs').
  unfold try_except_Exception, script_after_extract.
  rewrite bool_decide_eq_true_2 by done.
  unfold bind, logging_error, ret.
  eexists. split; [reflexivity|]. cbn [db log]. split; [done|]. by rewrite last_snoc.
Qed.

(** Every request refused. *)
Lemma no_record_fails_run_witness :
  ∃ st', Script.run_etl_pipeline fetch_nothing int_of_sample_date clock_0 accepts_all
           Connected holds_2010 = (st', inr false) ∧
         db st' = db holds_2010 ∧
         last (log st') = Some (ERROR "No data extracted. Exiting.").
Proof.
  apply (no_record_fails_run fetch_nothing int_of_sample_date clock_0 accepts_all Connected
           holds_2010).
  vm_compute; reflexivity.
Defined.

(** X19: the frame of the extraction has no null year: every row that
    [extract_all_data] returns has a year, so that [transform] never fails
    on it with "Null years found"; the checks that can fail on an extracted
    frame are the ones of the country code and of the year 2000. *)
Theorem extracted_frame_has_years (fetch : string → string → Response)
    (int_of_str : string → string + Z) (now : nat → Z) (st st' : State)
    (raw : list Raw.t) :
  WorldBankExtractor.extract_all_data fetch int_of_str now st = (st', inr raw) →
  (∀ r, r ∈ raw → is_Some (Raw.year r)) ∧
  ∀ msg, transform raw = inl (AssertionError msg) →
    msg = "Null country codes found" ∨ msg = "Invalid years found".
Proof.
  intros Hrun.
  assert (∀ r, r ∈ raw → is_Some (Raw.year r)) as Hyears.
  { destruct (mapM (year_of_date int_of_str) (valued_records fetch)) as [ys|] eqn:Hys.
    - destruct (extract_all_data_ok fetch int_of_str now ys st Hys) as (s' & Hrun' & _).
      pose proof (eq_trans (eq_sym Hrun) Hrun') as [= _ ->].
      intros r Hr.
      apply list_elem_of_lookup_1 in Hr as (i & Hi).
      apply list_lookup_imap_Some in Hi as ([rec y] & _ & ->).
      by eexists.
    - apply mapM_None_first in Hys as (l1 & x & l2 & ys & Hrecs & Hys & Hx).
      unfold year_of_date in Hx.
      destruct (int_of_str (Api.date x)) as [msg|] eqn:Hmsg; [|done].
      destruct (extract_all_data_bad fetch int_of_str now l1 x l2 ys msg st Hrecs Hys Hmsg)
        as (s' & Hrun' & _).
      by pose proof (eq_trans (eq_sym Hrun) Hrun'). }
  split; [done|]. intros msg. unfold transform.
  set (rows := add_derived <$> dropna_value (drop_duplicates raw)).
  destruct (existsb _ rows); [intros [= <-]; by left|].
  destruct (existsb (λ r, bool_decide (year r = None)) rows) eqn:Hnull.
  - exfalso. apply existsb_exists in Hnull as (x & Hx%list_elem_of_In & Hnone%bool_decide_eq_true).
    apply list_elem_of_fmap in Hx as (r & -> & Hr).
    apply list_elem_of_filter in Hr as [_ Hr].
    assert (r ∈ raw) as Hin.
    { apply elem_of_drop_duplicates in Hr as (i & Hi & _). by eapply list_elem_of_lookup_2. }
    destruct (Hyears r Hin) as [y Hy]. cbn [year add_derived] in Hnone. congruence.
  - destruct (negb _); [intros [= <-]; by right|done].
Qed.

(** The frame of India's GDP. *)
Lemma extracted_frame_has_years_witness :
  (∀ r, r ∈ imap (to_raw clock_0) (zip (valued_records fetch_india_gdp) [2021; 2020]) →
        is_Some (Raw.year r)) ∧
  ∀ msg,
    transform (imap (to_raw clock_0) (zip (valued_records fetch_india_gdp) [2021; 2020]))
      = inl (AssertionError msg) →
    msg = "Null country codes found" ∨ msg = "Invalid years found".
Proof.
  apply (extracted_frame_has_years fetch_india_gdp int_of_sample_date clock_0 empty_state
           (WorldBankExtractor.extract_all_data fetch_india_gdp int_of_sample_date clock_0
              empty_state).1).
  vm_compute; reflexivity.
Defined.
